(** * Configuration resolution of the CodeQL action (config-utils)

    A shallow embedding of the query/config resolution engine:
    language detection, the [uses] reference grammar, query resolution
    through the external resolver, the merge of default, workflow and
    config-file queries, and the validation of path filters.

    Conventions of the embedding.
    - A JavaScript string is a [string]: a sequence of code units, here
      restricted to eight bits.
    - [throw new Error(msg)] is [Error msg]; a function that may throw
      returns a [result].  An exception that the engine raises itself,
      a [TypeError], is [Error (typeError operation)]: the operation
      that failed stands for the engine's message.
    - The external collaborators (resolver, file system, repository API,
      Node's [path] module, [parseLanguage]) are the fields of a record
      [Env]; the general theorems hold for an arbitrary [Env], and the
      module [Sample] gives a concrete one to run the definitions on.
    - The logger is modelled where it carries a result of its own: the
      warning of [validateAndSanitisePath]; debug and info output is
      left out.
    - A JavaScript object used as a map is the association list of its
      own properties, in insertion order.  Where the source reads such
      an object at a key that can be any string (a language of the
      resolver's answer or of the languages input), the names that the
      object inherits from [Object.prototype] are modelled too
      ([inherited]). *)

From Stdlib Require Import String Ascii List Bool Arith ZArith Lia DecimalString.
Import ListNotations.
Local Open Scope list_scope.
Local Open Scope string_scope.

Set Implicit Arguments.
#[local] Set Warnings "-register-all".

(* ================================================================== *)
(** * Results *)

Inductive result (A : Type) : Type :=
| Ok (a : A)
| Error (msg : string).

Arguments Ok {A} a.
Arguments Error {A} msg.

Definition bind {A B : Type} (m : result A) (f : A -> result B) : result B :=
  match m with
  | Ok a => f a
  | Error e => Error e
  end.

Notation "x <- m ;; k" := (bind m (fun x => k))
  (at level 61, m at next level, right associativity).

Definition isOk {A : Type} (m : result A) : bool :=
  match m with Ok _ => true | Error _ => false end.

(* ================================================================== *)
(** * JavaScript strings *)

Module JS.

Definition chr (n : nat) : string := String (ascii_of_nat n) EmptyString.

(** The double quote, the line feed and the backslash. *)
Definition dquote : string := chr 34.
Definition newline : string := chr 10.
Definition backslash : ascii := ascii_of_nat 92.

(** White space as [String.prototype.trim] sees it (code units below 256). *)
Definition isWhiteSpace (a : ascii) : bool :=
  let n := nat_of_ascii a in
  (Nat.leb 9 n && Nat.leb n 13) || Nat.eqb n 32 || Nat.eqb n 160.

Fixpoint trimStart (s : string) : string :=
  match s with
  | String a s' => if isWhiteSpace a then trimStart s' else s
  | EmptyString => EmptyString
  end.

Fixpoint trimEnd (s : string) : string :=
  match s with
  | String a s' =>
      match trimEnd s' with
      | EmptyString => if isWhiteSpace a then EmptyString else String a EmptyString
      | t => String a t
      end
  | EmptyString => EmptyString
  end.

Definition trim (s : string) : string := trimEnd (trimStart s).

(** [s.startsWith(p)] *)
Definition startsWith (s p : string) : bool := prefix p s.

(** [s.endsWith(p)]: some suffix of [s] is [p]. *)
Fixpoint endsWith (s p : string) : bool :=
  (s =? p) ||
  match s with
  | String _ s' => endsWith s' p
  | EmptyString => false
  end.

(** [s.indexOf(c) !== -1] for a one-character [c]. *)
Fixpoint hasChar (c : ascii) (s : string) : bool :=
  match s with
  | String a s' => Ascii.eqb a c || hasChar c s'
  | EmptyString => false
  end.

(** [s.split(c)] for a one-character separator. *)
Fixpoint split (c : ascii) (s : string) : list string :=
  match s with
  | EmptyString => [EmptyString]
  | String a s' =>
      if Ascii.eqb a c then EmptyString :: split c s'
      else match split c s' with
           | h :: t => String a h :: t
           | [] => [String a EmptyString]
           end
  end.

(** [l.join(sep)] *)
Definition join (sep : string) (l : list string) : string := String.concat sep l.

(** [s.slice(n)] and [s.substring(n)] for [0 <= n]. *)
Definition sliceFrom (n : nat) (s : string) : string :=
  substring n (String.length s - n) s.

(** [s.replace(/^\+/, "")] for the one pattern the code uses. *)
Definition stripLeadingPlus (s : string) : string :=
  match s with
  | String "+"%char s' => s'
  | _ => s
  end.

End JS.

(* ================================================================== *)
(** * Regular expressions

    The three patterns of the source use character classes, sequence,
    alternation, greedy repetition of a class, named groups and the end
    anchor.  The matcher backtracks in JavaScript's order (left
    alternative first, longest repetition first). *)

Module Regex.

Inductive regex : Type :=
| RChar (p : ascii -> bool)
| RSeq (r1 r2 : regex)
| RAlt (r1 r2 : regex)
| RStar (p : ascii -> bool)
| RPlus (p : ascii -> bool)
| RGroup (name : string) (r : regex)
| REnd.

Definition captures := list (string * string).

Fixpoint star (p : ascii -> bool) (s : string)
         (k : string -> option captures) : option captures :=
  match s with
  | String a s' =>
      if p a then
        match star p s' k with
        | Some c => Some c
        | None => k s
        end
      else k s
  | EmptyString => k s
  end.

Fixpoint rmatch (r : regex) (s : string) (caps : captures)
         (k : string -> captures -> option captures) : option captures :=
  match r with
  | RChar p =>
      match s with
      | String a s' => if p a then k s' caps else None
      | EmptyString => None
      end
  | RSeq r1 r2 => rmatch r1 s caps (fun s' c' => rmatch r2 s' c' k)
  | RAlt r1 r2 =>
      match rmatch r1 s caps k with
      | Some c => Some c
      | None => rmatch r2 s caps k
      end
  | RStar p => star p s (fun s' => k s' caps)
  | RPlus p =>
      match s with
      | String a s' => if p a then star p s' (fun s'' => k s'' caps) else None
      | EmptyString => None
      end
  | RGroup n r1 =>
      rmatch r1 s caps
        (fun s' c' =>
           k s' ((n, substring 0 (String.length s - String.length s') s) :: c'))
  | REnd =>
      match s with
      | EmptyString => k s caps
      | String _ _ => None
      end
  end.

(** [re.exec(s)] without the sticky or global flag: the leftmost match. *)
Fixpoint exec (r : regex) (s : string) : option captures :=
  match rmatch r s [] (fun _ c => Some c) with
  | Some c => Some c
  | None =>
      match s with
      | String _ s' => exec r s'
      | EmptyString => None
      end
  end.

(** The truth value of [s.match(re)]. *)
Definition matches (r : regex) (s : string) : bool :=
  match exec r s with Some _ => true | None => false end.

Fixpoint group (name : string) (c : captures) : option string :=
  match c with
  | (n, v) :: c' => if n =? name then Some v else group name c'
  | [] => None
  end.

(** Character classes. *)
Definition lit (c : ascii) : ascii -> bool := fun a => Ascii.eqb a c.
Definition notChar (c : ascii) : ascii -> bool := fun a => negb (Ascii.eqb a c).
(** [.] matches all but the line terminators. *)
Definition dot : ascii -> bool :=
  fun a => negb (Ascii.eqb a (ascii_of_nat 10) || Ascii.eqb a (ascii_of_nat 13)).

End Regex.

Import Regex.

(* ================================================================== *)
(** * Property names and error messages *)

Definition NAME_PROPERTY := "name".
Definition DISABLE_DEFAULT_QUERIES_PROPERTY := "disable-default-queries".
Definition QUERIES_PROPERTY := "queries".
Definition QUERIES_USES_PROPERTY := "uses".
Definition PATHS_IGNORE_PROPERTY := "paths-ignore".
Definition PATHS_PROPERTY := "paths".

(** The set of acceptable values for built-in suites. *)
Definition builtinSuites : list string :=
  ["security-extended"; "security-and-quality"].

(** [configFile = None] is the source's [undefined]: the property came
    from the workflow file. *)
Definition getConfigFilePropertyError
           (configFile : option string) (property error : string) : string :=
  match configFile with
  | None =>
      "The workflow property " ++ JS.dquote ++ property ++ JS.dquote
        ++ " is invalid: " ++ error
  | Some f =>
      "The configuration file " ++ JS.dquote ++ f ++ JS.dquote
        ++ " is invalid: property " ++ JS.dquote ++ property ++ JS.dquote
        ++ " " ++ error
  end.

Definition getNameInvalid (configFile : string) : string :=
  getConfigFilePropertyError (Some configFile) NAME_PROPERTY
    "must be a non-empty string".

Definition getDisableDefaultQueriesInvalid (configFile : string) : string :=
  getConfigFilePropertyError (Some configFile) DISABLE_DEFAULT_QUERIES_PROPERTY
    "must be a boolean".

Definition getQueriesInvalid (configFile : string) : string :=
  getConfigFilePropertyError (Some configFile) QUERIES_PROPERTY
    "must be an array".

Definition getQueryUsesInvalid
           (configFile : option string) (queryUses : option string) : string :=
  getConfigFilePropertyError configFile
    (QUERIES_PROPERTY ++ "." ++ QUERIES_USES_PROPERTY)
    ("must be a built-in suite (" ++ JS.join " or " builtinSuites
       ++ "), a relative path, or be of the form "
       ++ JS.dquote ++ "owner/repo[/path]@ref" ++ JS.dquote
       ++ match queryUses with
          | Some u => JS.newline ++ " Found: " ++ u
          | None => ""
          end).

Definition getPathsIgnoreInvalid (configFile : string) : string :=
  getConfigFilePropertyError (Some configFile) PATHS_IGNORE_PROPERTY
    "must be an array of non-empty strings".

Definition getPathsInvalid (configFile : string) : string :=
  getConfigFilePropertyError (Some configFile) PATHS_PROPERTY
    "must be an array of non-empty strings".

Definition getLocalPathOutsideOfRepository
           (configFile : option string) (localPath : string) : string :=
  getConfigFilePropertyError configFile
    (QUERIES_PROPERTY ++ "." ++ QUERIES_USES_PROPERTY)
    ("is invalid as the local path " ++ JS.dquote ++ localPath ++ JS.dquote
       ++ " is outside of the repository").

Definition getLocalPathDoesNotExist
           (configFile : option string) (localPath : string) : string :=
  getConfigFilePropertyError configFile
    (QUERIES_PROPERTY ++ "." ++ QUERIES_USES_PROPERTY)
    ("is invalid as the local path " ++ JS.dquote ++ localPath ++ JS.dquote
       ++ " does not exist in the repository").

Definition getConfigFileOutsideWorkspaceErrorMessage (configFile : string) : string :=
  "The configuration file " ++ JS.dquote ++ configFile ++ JS.dquote
    ++ " is outside of the workspace".

Definition getConfigFileDoesNotExistErrorMessage (configFile : string) : string :=
  "The configuration file " ++ JS.dquote ++ configFile ++ JS.dquote
    ++ " does not exist".

Definition getConfigFileRepoFormatInvalidMessage (configFile : string) : string :=
  "The configuration file " ++ JS.dquote ++ configFile ++ JS.dquote
    ++ " is not a supported remote file reference."
    ++ " Expected format <owner>/<repository>/<file-path>@<ref>".

Definition getConfigFileFormatInvalidMessage (configFile : string) : string :=
  "The configuration file " ++ JS.dquote ++ configFile ++ JS.dquote
    ++ " could not be read".

Definition getConfigFileDirectoryGivenMessage (configFile : string) : string :=
  "The configuration file " ++ JS.dquote ++ configFile ++ JS.dquote
    ++ " looks like a directory, not a file".

Definition getNoLanguagesError : string :=
  "Did not detect any languages to analyze. "
    ++ "Please update input in workflow or check that GitHub detects the correct languages in your repository.".

Definition getUnknownLanguagesError (languages : list string) : string :=
  "Did not recognise the following languages: " ++ JS.join ", " languages.

Definition getNoQueriesError (language : string) : string :=
  "Did not detect any queries to run for " ++ language ++ ". "
    ++ "Please make sure that the default queries are enabled, or you are specifying queries to run.".

(* ================================================================== *)
(** * Path filter validation *)

Definition star2 : regex := RSeq (RChar (lit "*")) (RChar (lit "*")).

(** The source's [pathStarsRegex]: any prefix, then one of: two stars and
    a character other than a slash; two stars at the end; a character
    other than a slash and two stars. *)
Definition pathStarsRegex : regex :=
  RSeq (RStar dot)
       (RAlt (RSeq star2 (RSeq (RChar (notChar "/")) (RStar dot)))
             (RAlt (RSeq star2 REnd)
                   (RSeq (RChar (notChar "/")) (RSeq star2 (RStar dot))))).

(** The source's [filterPatternCharactersRegex]: one of the characters
    ?, +, [, ], ! somewhere in the line. *)
Definition filterPatternCharactersRegex : regex :=
  RSeq (RStar dot)
       (RSeq (RChar (fun a => existsb (Ascii.eqb a) ["?"; "+"; "["; "]"; "!"]%char))
             (RStar dot)).

(** The [while (newPath.charAt(0) === "/")] loop. *)
Fixpoint stripLeadingSlashes (s : string) : string :=
  match s with
  | String "/"%char s' => stripLeadingSlashes s'
  | _ => s
  end.

(** The trailing-stars step: [substring(0, length - 2)] when the path
    ends with a slash and two stars. *)
Definition stripTrailingStars (s : string) : string :=
  if JS.endsWith s "/**" then substring 0 (String.length s - 2) s else s.

(** [validateAndSanitisePath]: the warnings sent to the logger, and the
    sanitised path or the error thrown. *)
Definition validateAndSanitisePath
           (originalPath propertyName configFile : string)
  : list string * result string :=
  let newPath := stripLeadingSlashes originalPath in
  let newPath := stripTrailingStars newPath in
  if newPath =? "" then
    ([], Error (getConfigFilePropertyError (Some configFile) propertyName
                  (JS.dquote ++ originalPath ++ JS.dquote
                     ++ " is not an invalid path. "
                     ++ "It is not necessary to include it, and it is not allowed to exclude it.")))
  else if matches pathStarsRegex newPath then
    ([], Error (getConfigFilePropertyError (Some configFile) propertyName
                  (JS.dquote ++ originalPath ++ JS.dquote
                     ++ " contains an invalid " ++ JS.dquote ++ "**" ++ JS.dquote
                     ++ " wildcard. "
                     ++ "They must be immediately preceded and followed by a slash as in "
                     ++ JS.dquote ++ "/**/" ++ JS.dquote
                     ++ ", or come at the start or end.")))
  else
    let warnings :=
      if matches filterPatternCharactersRegex newPath then
        [getConfigFilePropertyError (Some configFile) propertyName
           (JS.dquote ++ originalPath ++ JS.dquote
              ++ " contains an unsupported character. "
              ++ "The filter pattern characters ?, +, [, ], ! are not supported and will be matched literally.")]
      else [] in
    if JS.hasChar JS.backslash newPath then
      (warnings,
       Error (getConfigFilePropertyError (Some configFile) propertyName
                (JS.dquote ++ originalPath ++ JS.dquote
                   ++ " contains an " ++ JS.dquote ++ String JS.backslash "" ++ JS.dquote
                   ++ " character. These are not allowed in filters. "
                   ++ "If running on windows we recommend using "
                   ++ JS.dquote ++ "/" ++ JS.dquote
                   ++ " instead for path filters.")))
    else (warnings, Ok newPath).

(* ================================================================== *)
(** * Data model *)

(** Association lists model JavaScript objects used as maps: the list
    holds the properties of the object itself, and a new key goes to the
    end, as in the insertion order of an object. *)
Section Assoc.
Variable V : Type.

Fixpoint lookup (k : string) (m : list (string * V)) : option V :=
  match m with
  | (k', v) :: m' => if k' =? k then Some v else lookup k m'
  | [] => None
  end.

Fixpoint update (k : string) (f : V -> V) (m : list (string * V))
  : list (string * V) :=
  match m with
  | (k', v) :: m' =>
      if k' =? k then (k', f v) :: m' else (k', v) :: update k f m'
  | [] => []
  end.
End Assoc.

(** The names that every object inherits from [Object.prototype].  On
    an object that has no property of its own with such a name, reading
    the name gives a function (the prototype itself for [__proto__])
    and not [undefined]. *)
Definition objectPrototypeNames : list string :=
  ["constructor"; "__defineGetter__"; "__defineSetter__"; "hasOwnProperty";
   "__lookupGetter__"; "__lookupSetter__"; "isPrototypeOf";
   "propertyIsEnumerable"; "toString"; "valueOf"; "__proto__";
   "toLocaleString"].

Definition inherited (name : string) : bool :=
  existsb (String.eqb name) objectPrototypeNames.

(** An exception that the engine raises (a [TypeError]) and not a
    [throw] of the source.  The text of its message is the engine's own;
    the model keeps the operation that failed in its place. *)
Definition typeError (operation : string) : string :=
  "TypeError: " ++ operation.

(** A value produced by the YAML loader [yaml.safeLoad]: a scalar, a
    sequence, a mapping, or the object that the loader makes of a
    timestamp scalar (a [Date], with its time value) or of a binary
    scalar (a [Buffer], with its bytes).  The code looks at the type of
    a number only, never at its value. *)
Inductive yaml : Type :=
| YUndefined
| YNull
| YBool (b : bool)
| YNumber (n : Z)
| YString (s : string)
| YArray (items : list yaml)
| YObject (fields : list (string * yaml))
| YDate (time : Z)
| YBinary (bytes : list Byte.byte).

(** [p in y], for [p] one of the six property names of the config file,
    none of which an object, an array, a [Date] or a [Buffer] inherits:
    a [TypeError] on a value that is not an object. *)
Definition hasProperty (p : string) (y : yaml) : result bool :=
  match y with
  | YObject fields =>
      Ok (match lookup p fields with Some _ => true | None => false end)
  | YArray _ | YDate _ | YBinary _ => Ok false
  | YUndefined | YNull | YBool _ | YNumber _ | YString _ =>
      Error (typeError "in")
  end.

(** [y[p]], for [p] one of the six property names of the config file,
    on a value on which [p in y] did not throw. *)
Definition getProperty (p : string) (y : yaml) : yaml :=
  match y with
  | YObject fields =>
      match lookup p fields with Some v => v | None => YUndefined end
  | _ => YUndefined
  end.

Record QueriesWithSearchPath : Type := {
  searchPath : string;
  customQueries : list string  (* the source's field [queries] *)
}.

Record LanguageQueries : Type := {
  builtin : list string;
  custom : list QueriesWithSearchPath
}.

(** Map from language to query files. *)
Definition Queries := list (string * LanguageQueries).

(** The output of [codeql resolve queries]: per language the resolved
    query files (the keys of the inner object, in order), and the two
    buckets of files with a missing or ambiguous language. *)
Record ResolveQueriesOutput : Type := {
  byLanguage : list (string * list string);
  noDeclaredLanguage : list string;
  multipleDeclaredLanguages : list string
}.

Record RepositoryNwo : Type := {
  owner : string;
  repo : string
}.

(** What [repos.getContent] answers: a file with its base64 content, a
    directory listing, or anything else. *)
Inductive ContentData : Type :=
| FileContent (content : string)
| DirectoryListing
| OtherContent.

(** The resolved configuration.  [GitHubVersion] is declared outside
    this file of the source and stays a parameter. *)
Record Config (GitHubVersion : Type) : Type := {
  languages : list string;
  queries : Queries;
  pathsIgnore : list string;
  paths : list string;
  originalUserInput : yaml;
  tempDir : string;
  toolCacheDir : string;
  codeQLCmd : string;
  gitHubVersion : GitHubVersion
}.

(** The external collaborators of the resolution engine. *)
Record Env : Type := {
  (** [codeQL.resolveQueries(toResolve, extraSearchPath)] *)
  resolveQueries : list string -> option string -> result ResolveQueriesOutput;
  (** [codeQL.getPath()] *)
  getPath : string;
  (** [parseLanguage] of the languages module; a [Language] is its string. *)
  parseLanguage : string -> option string;
  (** the keys of the answer of [repos.listLanguages], in order *)
  listLanguages : RepositoryNwo -> result (list string);
  (** [repos.getContent] with owner, repo, path and ref *)
  getContent : string -> string -> string -> string -> result ContentData;
  (** [externalQueries.checkoutExternalRepository] with nwo, ref and tempDir *)
  checkoutExternalRepository : string -> string -> string -> result string;
  existsSync : string -> bool;
  realpathSync : string -> result string;
  (** [yaml.safeLoad(fs.readFileSync(file, "utf8"))] *)
  loadYamlFile : string -> result yaml;
  (** [yaml.safeLoad] of the decoded base64 content *)
  loadYamlBase64 : string -> result yaml;
  (** [path.join], [path.resolve] and [path.sep] *)
  path_join : string -> string -> string;
  path_resolve : string -> string -> string;
  path_sep : string
}.

(* ================================================================== *)
(** * Query resolution client *)

(** A [for] loop over [items] that threads the result map and stops at
    the first error. *)
Fixpoint forEach (A : Type) (body : Queries -> A -> result Queries)
         (items : list A) (resultMap : Queries) : result Queries :=
  match items with
  | [] => Ok resultMap
  | x :: items' =>
      resultMap' <- body resultMap x ;;
      forEach body items' resultMap'
  end.

(** Map from language to path suffixes of disabled queries. *)
Definition DISABLED_BUILTIN_QUERIES : list (string * list string) :=
  [("csharp",
    ["ql/src/Security Features/CWE-937/VulnerablePackage.ql";
     "ql/src/Security Features/CWE-451/MissingXFrameOptions.ql"])].

(** [(DISABLED_BUILTIN_QUERIES[language] || []).some(...)]: for a
    language that is a name every object inherits, the table answers a
    function, which is truthy and has no [some]. *)
Definition queryIsDisabled (language query : string) : result bool :=
  match lookup language DISABLED_BUILTIN_QUERIES with
  | Some disabledQueries =>
      Ok (existsb (fun disabledQuery => JS.endsWith query disabledQuery)
                  disabledQueries)
  | None =>
      if inherited language then Error (typeError "some")
      else Ok (existsb (fun disabledQuery => JS.endsWith query disabledQuery) [])
  end.

(** Errors unless both buckets are empty. *)
Definition validateQueries (resolvedQueries : ResolveQueriesOutput) : result unit :=
  match noDeclaredLanguage resolvedQueries with
  | _ :: _ =>
      Error ("The following queries do not declare a language. "
               ++ "Their qlpack.yml files are either missing or is invalid."
               ++ JS.newline
               ++ JS.join JS.newline (noDeclaredLanguage resolvedQueries))
  | [] =>
      match multipleDeclaredLanguages resolvedQueries with
      | _ :: _ =>
          Error ("The following queries declare multiple languages. "
                   ++ "Their qlpack.yml files are either missing or is invalid."
                   ++ JS.newline
                   ++ JS.join JS.newline (multipleDeclaredLanguages resolvedQueries))
      | [] => Ok tt
      end
  end.

Definition emptyLanguageQueries : LanguageQueries :=
  {| builtin := []; custom := [] |}.

(** [if (resultMap[language] === undefined) resultMap[language] = ...]:
    a name that the result map inherits does not read as [undefined],
    and gets no entry. *)
Definition ensureLanguage (language : string) (resultMap : Queries) : Queries :=
  match lookup language resultMap with
  | Some _ => resultMap
  | None =>
      if inherited language then resultMap
      else (resultMap ++ [(language, emptyLanguageQueries)])%list
  end.

(** [Object.keys(queryPaths).filter((q) => !queryIsDisabled(language, q))] *)
Fixpoint enabledQueries (language : string) (queryPaths : list string)
  : result (list string) :=
  match queryPaths with
  | [] => Ok []
  | q :: queryPaths' =>
      disabled <- queryIsDisabled language q ;;
      queries <- enabledQueries language queryPaths' ;;
      Ok (if disabled then queries else q :: queries)
  end.

(** One turn of the loop of [runResolveQueries].  Where the result map
    has no entry of its own for the language after the first step, the
    language is an inherited name, [resultMap[language]] is a function
    without [builtin] and [custom], and the [push] fails. *)
Definition addResolved (extraSearchPath : option string)
           (resultMap : Queries) (entry : string * list string)
  : result Queries :=
  let (language, queryPaths) := entry in
  let resultMap := ensureLanguage language resultMap in
  queries <- enabledQueries language queryPaths ;;
  match lookup language resultMap with
  | Some _ =>
      Ok (update language
                 (fun e =>
                    match extraSearchPath with
                    | Some sp =>
                        {| builtin := builtin e;
                           custom := (custom e ++
                                      [{| searchPath := sp;
                                          customQueries := queries |}])%list |}
                    | None =>
                        {| builtin := (builtin e ++ queries)%list;
                           custom := custom e |}
                    end)
                 resultMap)
  | None => Error (typeError "push")
  end.

Definition runResolveQueries (env : Env) (resultMap : Queries)
           (toResolve : list string) (extraSearchPath : option string)
  : result Queries :=
  resolvedQueries <- resolveQueries env toResolve extraSearchPath ;;
  _ <- match extraSearchPath with
       | Some _ => validateQueries resolvedQueries
       | None => Ok tt
       end ;;
  forEach (addResolved extraSearchPath) (byLanguage resolvedQueries) resultMap.

(** The set of queries included by default. *)
Definition addDefaultQueries (env : Env) (languages : list string)
           (resultMap : Queries) : result Queries :=
  let suites := map (fun l => l ++ "-code-scanning.qls") languages in
  runResolveQueries env resultMap suites None.

Definition addBuiltinSuiteQueries (env : Env) (languages : list string)
           (resultMap : Queries) (suiteName : string) (configFile : option string)
  : result Queries :=
  match find (fun suite => suite =? suiteName) builtinSuites with
  | None => Error (getQueryUsesInvalid configFile (Some suiteName))
  | Some _ =>
      let suites := map (fun l => l ++ "-" ++ suiteName ++ ".qls") languages in
      runResolveQueries env resultMap suites None
  end.

Definition addLocalQueries (env : Env) (resultMap : Queries)
           (localQueryPath checkoutPath : string) (configFile : option string)
  : result Queries :=
  let absoluteQueryPath := path_join env checkoutPath localQueryPath in
  if negb (existsSync env absoluteQueryPath) then
    Error (getLocalPathDoesNotExist configFile localQueryPath)
  else
    absoluteQueryPath <- realpathSync env absoluteQueryPath ;;
    checkoutReal <- realpathSync env checkoutPath ;;
    if negb (JS.startsWith (absoluteQueryPath ++ path_sep env)
                           (checkoutReal ++ path_sep env)) then
      Error (getLocalPathOutsideOfRepository configFile localQueryPath)
    else
      runResolveQueries env resultMap [absoluteQueryPath] (Some checkoutPath).

Definition addRemoteQueries (env : Env) (resultMap : Queries)
           (queryUses tempDir : string) (configFile : option string)
  : result Queries :=
  match JS.split "@" queryUses with
  | [locator; ref] =>
      match JS.split "/" locator with
      | tok0 :: tok1 :: rest =>
          if (JS.trim tok0 =? "") || (JS.trim tok1 =? "") then
            Error (getQueryUsesInvalid configFile (Some queryUses))
          else
            let nwo := tok0 ++ "/" ++ tok1 in
            checkoutPath <- checkoutExternalRepository env nwo ref tempDir ;;
            let queryPath :=
              match rest with
              | _ :: _ => path_join env checkoutPath (JS.join "/" rest)
              | [] => checkoutPath
              end in
            runResolveQueries env resultMap [queryPath] (Some checkoutPath)
      | _ => Error (getQueryUsesInvalid configFile (Some queryUses))
      end
  | _ => Error (getQueryUsesInvalid configFile (Some queryUses))
  end.

Definition parseQueryUses (env : Env) (languages : list string)
           (resultMap : Queries) (queryUses tempDir checkoutPath : string)
           (configFile : option string) : result Queries :=
  let queryUses := JS.trim queryUses in
  if queryUses =? "" then
    Error (getQueryUsesInvalid configFile None)
  else if JS.startsWith queryUses "./" then
    addLocalQueries env resultMap (JS.sliceFrom 2 queryUses) checkoutPath configFile
  else if negb (JS.hasChar "/" queryUses) && negb (JS.hasChar "@" queryUses) then
    addBuiltinSuiteQueries env languages resultMap queryUses configFile
  else
    addRemoteQueries env resultMap queryUses tempDir configFile.

(* ================================================================== *)
(** * Language resolver *)

(** [Set.prototype.add] on a set kept in insertion order. *)
Definition setAdd (x : string) (l : list string) : list string :=
  if existsb (String.eqb x) l then l else (l ++ [x])%list.

(** The languages of the repository, in the order of the API. *)
Definition getLanguagesInRepo (env : Env) (repository : RepositoryNwo)
  : result (list string) :=
  names <- listLanguages env repository ;;
  Ok (fold_left
        (fun languages lang =>
           match parseLanguage env lang with
           | Some parsedLang => setAdd parsedLang languages
           | None => languages
           end)
        names []).

(** One turn of the loop that sorts the languages into the parsed and
    the unknown ones. *)
Definition classifyLanguage (env : Env)
           (acc : list string * list string) (language : string)
  : list string * list string :=
  let (parsedLanguages, unknownLanguages) := acc in
  match parseLanguage env language with
  | None => (parsedLanguages, (unknownLanguages ++ [language])%list)
  | Some parsedLanguage =>
      if existsb (String.eqb parsedLanguage) parsedLanguages
      then (parsedLanguages, unknownLanguages)
      else ((parsedLanguages ++ [parsedLanguage])%list, unknownLanguages)
  end.

(** [(languagesInput || "").split(",").map(trim).filter(nonempty)] *)
Definition languagesFromInput (languagesInput : option string) : list string :=
  filter (fun x => negb (String.length x =? 0)%nat)
         (map JS.trim
              (JS.split ","
                        (match languagesInput with
                         | Some s => s
                         | None => ""
                         end))).

Definition getLanguages (env : Env) (languagesInput : option string)
           (repository : RepositoryNwo) : result (list string) :=
  let languages := languagesFromInput languagesInput in
  languages <- match languages with
               | [] => getLanguagesInRepo env repository
               | _ :: _ => Ok languages
               end ;;
  match languages with
  | [] => Error getNoLanguagesError
  | _ :: _ =>
      let (parsedLanguages, unknownLanguages) :=
        fold_left (classifyLanguage env) languages ([], []) in
      match unknownLanguages with
      | _ :: _ => Error (getUnknownLanguagesError unknownLanguages)
      | [] => Ok parsedLanguages
      end
  end.

(* ================================================================== *)
(** * Queries of the workflow and of the config file *)

(** The truth value of an optional string: defined and not empty. *)
Definition truthy (s : option string) : bool :=
  match s with
  | Some x => negb (x =? "")
  | None => false
  end.

Definition addQueriesFromWorkflow (env : Env) (queriesInput : string)
           (languages : list string) (resultMap : Queries)
           (tempDir checkoutPath : string) : result Queries :=
  let queriesInput := JS.trim queriesInput in
  let queriesInput := JS.stripLeadingPlus queriesInput in
  forEach (fun resultMap query =>
             parseQueryUses env languages resultMap query tempDir checkoutPath None)
          (JS.split "," queriesInput) resultMap.

(** True if no queries were provided in the workflow, or if they were
    provided in additive mode. *)
Definition shouldAddConfigFileQueries (queriesInput : option string) : bool :=
  match queriesInput with
  | Some q =>
      if truthy queriesInput
      then substring 0 1 (JS.trimStart q) =? "+"
      else true
  | None => true
  end.

(* ================================================================== *)
(** * Loading the config file *)

Definition isLocal (configPath : string) : bool :=
  if JS.startsWith configPath "./" then true
  else negb (JS.hasChar "@" configPath).

Definition getLocalConfig (env : Env) (configFile checkoutPath : string)
  : result yaml :=
  if negb (JS.startsWith (configFile ++ path_sep env)
                         (checkoutPath ++ path_sep env)) then
    Error (getConfigFileOutsideWorkspaceErrorMessage configFile)
  else if negb (existsSync env configFile) then
    Error (getConfigFileDoesNotExistErrorMessage configFile)
  else loadYamlFile env configFile.

(** The pattern of a remote config reference: owner, repo and path
    separated by slashes, an at sign, and the ref. *)
Definition remoteConfigFormat : regex :=
  RSeq (RGroup "owner" (RPlus (notChar "/")))
  (RSeq (RChar (lit "/"))
  (RSeq (RGroup "repo" (RPlus (notChar "/")))
  (RSeq (RChar (lit "/"))
  (RSeq (RGroup "path" (RPlus (notChar "@")))
  (RSeq (RChar (lit "@"))
        (RGroup "ref" (RStar dot))))))).

Definition getRemoteConfig (env : Env) (configFile : string) : result yaml :=
  match exec remoteConfigFormat configFile with
  | None => Error (getConfigFileRepoFormatInvalidMessage configFile)
  | Some pieces =>
      match group "owner" pieces, group "repo" pieces,
            group "path" pieces, group "ref" pieces with
      | Some o, Some r, Some p, Some rf =>
          data <- getContent env o r p rf ;;
          match data with
          | FileContent fileContents => loadYamlBase64 env fileContents
          | DirectoryListing => Error (getConfigFileDirectoryGivenMessage configFile)
          | OtherContent => Error (getConfigFileFormatInvalidMessage configFile)
          end
      | _, _, _, _ => Error (getConfigFileRepoFormatInvalidMessage configFile)
      end
  end.

(** The loop of [loadConfig] over the [queries] of the config file. *)
Definition addConfigFileQuery (env : Env) (languages : list string)
           (tempDir checkoutPath configFile : string)
           (resultMap : Queries) (query : yaml) : result Queries :=
  hasUses <- hasProperty QUERIES_USES_PROPERTY query ;;
  match hasUses, getProperty QUERIES_USES_PROPERTY query with
  | true, YString uses =>
      parseQueryUses env languages resultMap uses tempDir checkoutPath
                     (Some configFile)
  | _, _ => Error (getQueryUsesInvalid (Some configFile) None)
  end.

(** The loops of [loadConfig] over [paths-ignore] and [paths]. *)
Fixpoint sanitisePaths (invalid : string) (propertyName configFile : string)
         (items : list yaml) : result (list string) :=
  match items with
  | [] => Ok []
  | YString p :: items' =>
      if p =? "" then Error invalid
      else
        p' <- snd (validateAndSanitisePath p propertyName configFile) ;;
        rest <- sanitisePaths invalid propertyName configFile items' ;;
        Ok (p' :: rest)
  | _ :: _ => Error invalid
  end.

(** The last loop of [loadConfig]: no language may be left without
    queries.  For a language that is an inherited name and has no entry
    of its own, [queries[language]] is a function, not [undefined], and
    reading the length of its [builtin] fails. *)
Fixpoint checkQueriesNotEmpty (languages : list string) (queries : Queries)
  : result unit :=
  match languages with
  | [] => Ok tt
  | language :: languages' =>
      match lookup language queries with
      | None =>
          if inherited language then Error (typeError "length")
          else Error (getNoQueriesError language)
      | Some q =>
          match builtin q, custom q with
          | [], [] => Error (getNoQueriesError language)
          | _, _ => checkQueriesNotEmpty languages' queries
          end
      end
  end.

Section Orchestrator.

Variable GitHubVersion : Type.
Variable env : Env.

(** The default config for when the user has not supplied one. *)
Definition getDefaultConfig (languagesInput queriesInput : option string)
           (repository : RepositoryNwo) (tempDir toolCacheDir checkoutPath : string)
           (gitHubVersion : GitHubVersion) : result (Config GitHubVersion) :=
  languages <- getLanguages env languagesInput repository ;;
  queries <- addDefaultQueries env languages [] ;;
  queries <- match queriesInput with
             | Some q =>
                 if truthy queriesInput
                 then addQueriesFromWorkflow env q languages queries tempDir checkoutPath
                 else Ok queries
             | None => Ok queries
             end ;;
  Ok {| languages := languages;
        queries := queries;
        pathsIgnore := [];
        paths := [];
        originalUserInput := YObject [];
        tempDir := tempDir;
        toolCacheDir := toolCacheDir;
        codeQLCmd := getPath env;
        gitHubVersion := gitHubVersion |}.

(** Load the config from the given file. *)
Definition loadConfig (languagesInput queriesInput : option string)
           (configFile : string)
           (repository : RepositoryNwo) (tempDir toolCacheDir checkoutPath : string)
           (gitHubVersion : GitHubVersion) : result (Config GitHubVersion) :=
  let configFile' :=
    if isLocal configFile then path_resolve env checkoutPath configFile
    else configFile in
  parsedYAML <- (if isLocal configFile
                 then getLocalConfig env configFile' checkoutPath
                 else getRemoteConfig env configFile) ;;
  let configFile := configFile' in
  hasName <- hasProperty NAME_PROPERTY parsedYAML ;;
  _ <- (if hasName then
          match getProperty NAME_PROPERTY parsedYAML with
          | YString n =>
              if (String.length n =? 0)%nat
              then Error (getNameInvalid configFile) else Ok tt
          | _ => Error (getNameInvalid configFile)
          end
        else Ok tt) ;;
  languages <- getLanguages env languagesInput repository ;;
  hasDisable <- hasProperty DISABLE_DEFAULT_QUERIES_PROPERTY parsedYAML ;;
  disableDefaultQueries <-
    (if hasDisable then
       match getProperty DISABLE_DEFAULT_QUERIES_PROPERTY parsedYAML with
       | YBool b => Ok b
       | _ => Error (getDisableDefaultQueriesInvalid configFile)
       end
     else Ok false) ;;
  queries <- (if negb disableDefaultQueries
              then addDefaultQueries env languages []
              else Ok []) ;;
  queries <- match queriesInput with
             | Some q =>
                 if truthy queriesInput
                 then addQueriesFromWorkflow env q languages queries tempDir checkoutPath
                 else Ok queries
             | None => Ok queries
             end ;;
  hasQueries <- (if shouldAddConfigFileQueries queriesInput
                 then hasProperty QUERIES_PROPERTY parsedYAML
                 else Ok false) ;;
  queries <- (if hasQueries then
                match getProperty QUERIES_PROPERTY parsedYAML with
                | YArray items =>
                    forEach (addConfigFileQuery env languages tempDir checkoutPath configFile)
                            items queries
                | _ => Error (getQueriesInvalid configFile)
                end
              else Ok queries) ;;
  hasPathsIgnore <- hasProperty PATHS_IGNORE_PROPERTY parsedYAML ;;
  pathsIgnore <-
    (if hasPathsIgnore then
       match getProperty PATHS_IGNORE_PROPERTY parsedYAML with
       | YArray items =>
           sanitisePaths (getPathsIgnoreInvalid configFile)
                         PATHS_IGNORE_PROPERTY configFile items
       | _ => Error (getPathsIgnoreInvalid configFile)
       end
     else Ok []) ;;
  hasPaths <- hasProperty PATHS_PROPERTY parsedYAML ;;
  paths <-
    (if hasPaths then
       match getProperty PATHS_PROPERTY parsedYAML with
       | YArray items =>
           sanitisePaths (getPathsInvalid configFile)
                         PATHS_PROPERTY configFile items
       | _ => Error (getPathsInvalid configFile)
       end
     else Ok []) ;;
  _ <- checkQueriesNotEmpty languages queries ;;
  Ok {| languages := languages;
        queries := queries;
        pathsIgnore := pathsIgnore;
        paths := paths;
        originalUserInput := parsedYAML;
        tempDir := tempDir;
        toolCacheDir := toolCacheDir;
        codeQLCmd := getPath env;
        gitHubVersion := gitHubVersion |}.

(** The files written by the run: the path of a saved config and the
    config it holds (the JSON text is represented by the value it
    serialises). *)
Definition Store := list (string * Config GitHubVersion).

Definition getPathToParsedConfigFile (tempDir : string) : string :=
  path_join env tempDir "config".

Definition saveConfig (config : Config GitHubVersion) (store : Store) : Store :=
  (getPathToParsedConfigFile (tempDir config), config) :: store.

Definition getConfig (tempDir : string) (store : Store)
  : option (Config GitHubVersion) :=
  lookup (getPathToParsedConfigFile tempDir) store.

(** Load the config, or generate the default one, and store it. *)
Definition initConfig (languagesInput queriesInput configFile : option string)
           (repository : RepositoryNwo) (tempDir toolCacheDir checkoutPath : string)
           (gitHubVersion : GitHubVersion) (store : Store)
  : result (Config GitHubVersion) * Store :=
  let config :=
    match configFile with
    | Some f =>
        if truthy configFile
        then loadConfig languagesInput queriesInput f repository
                        tempDir toolCacheDir checkoutPath gitHubVersion
        else getDefaultConfig languagesInput queriesInput repository
                              tempDir toolCacheDir checkoutPath gitHubVersion
    | None => getDefaultConfig languagesInput queriesInput repository
                               tempDir toolCacheDir checkoutPath gitHubVersion
    end in
  match config with
  | Ok c => (Ok c, saveConfig c store)
  | Error e => (Error e, store)
  end.

End Orchestrator.

(* ================================================================== *)
(** * Counting lines of code (count-loc)

    The enum [Language] is declared in the languages module; it stays a
    parameter, with its equality test and the six members that
    count-loc names.  The line counter [LocDir] is an external
    collaborator: [loadInfo] stands for building it with the four
    options and loading its information, and answers the entries of
    [result.languages] with their [code] counts, in order. *)

Module CountLoc.

Section CountLoc.

Variable Language : Type.
Variable Language_eqb : Language -> Language -> bool.
Variables cpp csharp go java javascript python : Language.

Variable loadInfo :
  string -> list string -> list string -> list (option string) ->
  result (list (string * nat)).

Record Metrics : Type := {
  name : Language;
  prefix : string
}.

(** Map from linguist language names to language prefixes. *)
Definition linguistToMetrics : list (string * Metrics) :=
  [("c", {| name := cpp; prefix := "cpp" |});
   ("c++", {| name := cpp; prefix := "cpp" |});
   ("c#", {| name := csharp; prefix := "cs" |});
   ("go", {| name := go; prefix := "go" |});
   ("java", {| name := java; prefix := "java" |});
   ("javascript", {| name := javascript; prefix := "js" |});
   ("python", {| name := python; prefix := "py" |});
   ("typescript", {| name := javascript; prefix := "js" |})].

(** An object keyed by the members of [Language]. *)
Fixpoint lookupLanguage (V : Type) (k : Language) (m : list (Language * V))
  : option V :=
  match m with
  | (k', v) :: m' => if Language_eqb k' k then Some v else lookupLanguage k m'
  | [] => None
  end.

Fixpoint updateLanguage (V : Type) (k : Language) (f : V -> V)
         (m : list (Language * V)) : list (Language * V) :=
  match m with
  | (k', v) :: m' =>
      if Language_eqb k' k then (k', f v) :: m'
      else (k', v) :: updateLanguage k f m'
  | [] => []
  end.

(** One turn of the reduction that builds [nameToLinguist]. *)
Definition pushName (obj : list (Language * list string))
           (entry : string * Metrics) : list (Language * list string) :=
  let (key, metrics) := entry in
  let action := name metrics in
  let obj :=
    match lookupLanguage action obj with
    | Some _ => obj
    | None => (obj ++ [(action, [])])%list
    end in
  updateLanguage action (fun keys => (keys ++ [key])%list) obj.

Definition nameToLinguist : list (Language * list string) :=
  fold_left pushName linguistToMetrics [].

(** [dbLanguages.flatMap((lang) => nameToLinguist[lang])]: a language
    without an entry contributes [undefined], here [None]. *)
Definition analysisLanguages (dbLanguages : list Language) : list (option string) :=
  flat_map (fun lang =>
              match lookupLanguage lang nameToLinguist with
              | Some keys => map Some keys
              | None => [None]
              end) dbLanguages.

(** One turn of the reduction that builds [lineCounts].  A name that
    the table does not have but every object inherits (constructor,
    toString) gives a value whose [name] is no member of [Language],
    and is left out like a name that gives [undefined]. *)
Definition addLineCount (dbLanguages : list Language)
           (obj : list (string * nat)) (entry : string * nat)
  : list (string * nat) :=
  let (language, code) := entry in
  match lookup language linguistToMetrics with
  | Some metricsLanguage =>
      if existsb (Language_eqb (name metricsLanguage)) dbLanguages then
        match lookup (prefix metricsLanguage) obj with
        | Some count => update (prefix metricsLanguage) (fun _ => code + count) obj
        | None => (obj ++ [(prefix metricsLanguage, code + 0)])%list
        end
      else obj
  | None => obj
  end.

Inductive LogLine : Type :=
| LogDebug (message : string)
| LogInfo (message : string).

Definition noLinesOfCodeMessage : string :=
  "Could not determine the total number of lines of code in this repository. "
    ++ "Because of this, it will not be possible to compare the number of lines "
    ++ "of code analyzed by code scanning with the total number of lines of "
    ++ "code in the repository. This will not affect the results produced by code "
    ++ "scanning. If you have any questions, you can raise an issue at "
    ++ "https://github.com/github/codeql-action/issues. Please include a link "
    ++ "to the repository if public, or otherwise information about the code scanning "
    ++ "workflow you are using.".

(** The lines sent to the logger for the counts. *)
Definition logLineCounts (lineCounts : list (string * nat)) : list LogLine :=
  match lineCounts with
  | _ :: _ =>
      LogDebug "Lines of code count:"
      :: map (fun entry : string * nat =>
                LogDebug ("  " ++ fst entry ++ ": "
                            ++ NilEmpty.string_of_uint (Nat.to_uint (snd entry))))
             lineCounts
  | [] => [LogInfo noLinesOfCodeMessage]
  end.

(** Count the lines of code of the given languages: the lines sent to
    the logger and the counts by language prefix. *)
Definition countLoc (cwd : string) (include : option (list string))
           (exclude : list string) (dbLanguages : list Language)
  : result (list LogLine * list (string * nat)) :=
  languages <- loadInfo cwd
                 ("**" :: match include with Some l => l | None => [] end)
                 exclude (analysisLanguages dbLanguages) ;;
  let lineCounts := fold_left (addLineCount dbLanguages) languages [] in
  Ok (logLineCounts lineCounts, lineCounts).

End CountLoc.

End CountLoc.

(* ================================================================== *)
(** * A sample environment

    A small concrete world on which the definitions are run: the POSIX
    flavour of Node's [path] module, a file system given by the table of
    its paths with their canonical paths, and a resolver that answers
    one JavaScript query per requested entry. *)

Module Sample.

(** The segments of a normalised path; [stack] holds the segments kept
    so far, last first. *)
Fixpoint normalizeSegments (absolute : bool) (segs stack : list string)
  : list string :=
  match segs with
  | [] => rev stack
  | seg :: segs' =>
      if (seg =? "") || (seg =? ".") then normalizeSegments absolute segs' stack
      else if seg =? ".." then
        match stack with
        | top :: stack' =>
            if top =? ".." then normalizeSegments absolute segs' (seg :: stack)
            else normalizeSegments absolute segs' stack'
        | [] =>
            if absolute then normalizeSegments absolute segs' []
            else normalizeSegments absolute segs' [seg]
        end
      else normalizeSegments absolute segs' (seg :: stack)
  end.

Definition normalize (p : string) : string :=
  let absolute := JS.startsWith p "/" in
  let body := JS.join "/" (normalizeSegments absolute (JS.split "/" p) []) in
  let body := if (body =? "") && negb absolute then "." else body in
  let body := if JS.endsWith p "/" && negb (body =? "") then body ++ "/" else body in
  if absolute then "/" ++ body else body.

Definition join (a b : string) : string :=
  if a =? "" then (if b =? "" then "." else normalize b)
  else if b =? "" then normalize a
  else normalize (a ++ "/" ++ b).

(** [path.resolve(from, to)] for an absolute [from]. *)
Definition resolve (from to : string) : string :=
  let p := if JS.startsWith to "/" then to else from ++ "/" ++ to in
  "/" ++ JS.join "/" (normalizeSegments true (JS.split "/" p) []).

(** One query file per requested entry, all declared as JavaScript. *)
Definition resolver (toResolve : list string) (extraSearchPath : option string)
  : result ResolveQueriesOutput :=
  Ok {| byLanguage := [("javascript", map (fun s => s ++ "/q.ql") toResolve)];
        noDeclaredLanguage := [];
        multipleDeclaredLanguages := [] |}.

(** A resolver that finds no query at all. *)
Definition emptyResolver (toResolve : list string) (extraSearchPath : option string)
  : result ResolveQueriesOutput :=
  Ok {| byLanguage := []; noDeclaredLanguage := []; multipleDeclaredLanguages := [] |}.

(** A resolver that finds files without a language and files with
    several languages. *)
Definition ambiguousResolver (toResolve : list string) (extraSearchPath : option string)
  : result ResolveQueriesOutput :=
  Ok {| byLanguage := [("javascript", map (fun s => s ++ "/q.ql") toResolve)];
        noDeclaredLanguage := ["/work/repo/queries/a.ql"; "/work/repo/queries/b.ql"];
        multipleDeclaredLanguages := ["/work/repo/queries/c.ql"] |}.

Definition languageNames : list (string * string) :=
  [("javascript", "javascript"); ("typescript", "javascript");
   ("python", "python"); ("cpp", "cpp"); ("c", "cpp"); ("csharp", "csharp");
   ("go", "go"); ("java", "java")].

(** The environment over a file system [files] (paths with their
    canonical paths), YAML documents [docs] and a resolver. *)
Definition env (files : list (string * string)) (docs : list (string * yaml))
           (resolve_queries : list string -> option string -> result ResolveQueriesOutput)
  : Env :=
  {| resolveQueries := resolve_queries;
     getPath := "/opt/codeql/codeql";
     parseLanguage := fun l => lookup l languageNames;
     listLanguages := fun _ => Ok ["JavaScript"; "javascript"; "HTML"];
     getContent := fun o r p rf =>
                     match lookup (o ++ "/" ++ r ++ "/" ++ p ++ "@" ++ rf) docs with
                     | Some _ => Ok (FileContent (o ++ "/" ++ r ++ "/" ++ p ++ "@" ++ rf))
                     | None => Error "Not Found"
                     end;
     checkoutExternalRepository :=
       fun nwo ref tempDir => Ok (join tempDir (nwo ++ "/" ++ ref));
     existsSync := fun p => match lookup p files with Some _ => true | None => false end;
     realpathSync := fun p => match lookup p files with
                              | Some r => Ok r
                              | None => Error ("ENOENT: no such file or directory: " ++ p)
                              end;
     loadYamlFile := fun p => match lookup p docs with
                              | Some y => Ok y
                              | None => Error ("cannot read " ++ p)
                              end;
     loadYamlBase64 := fun c => match lookup c docs with
                                | Some y => Ok y
                                | None => Error "cannot decode"
                                end;
     path_join := join;
     path_resolve := resolve;
     path_sep := "/" |}.

(** A checkout at [/work/repo] with a query directory, a config file, a
    symbolic link [link.yml] to a file outside the checkout, and a
    directory outside the checkout. *)
Definition files : list (string * string) :=
  [("/work/repo", "/work/repo");
   ("/work/repo/queries", "/work/repo/queries");
   ("/work/repo/config.yml", "/work/repo/config.yml");
   ("/work/repo/link.yml", "/outside/secret.yml");
   ("/work/outside", "/work/outside")].

Definition configYaml : yaml :=
  YObject [("name", YString "sample");
           ("queries", YArray [YObject [("uses", YString "./queries")]]);
           ("paths", YArray [YString "/src/**"])].

Definition docs : list (string * yaml) :=
  [("/work/repo/config.yml", configYaml);
   ("/work/repo/link.yml", YObject [("disable-default-queries", YBool false)]);
   ("octo/conf/codeql.yml@main", YObject [])].

Definition world : Env := env files docs resolver.
Definition emptyWorld : Env := env files docs emptyResolver.
Definition ambiguousWorld : Env := env files docs ambiguousResolver.

Definition repository : RepositoryNwo := {| owner := "octo"; repo := "app" |}.

End Sample.


(* ================================================================== *)
(** * Notions used in the statements *)

(** [f] occurs in [msg] as a substring. *)
Definition occursIn (f msg : string) : Prop :=
  exists a b, msg = a ++ f ++ b.

(** [msg.includes(f)]: [f] is a prefix of some suffix of [msg]. *)
Fixpoint includes (msg f : string) : bool :=
  prefix f msg ||
  match msg with
  | String _ msg' => includes msg' f
  | EmptyString => false
  end.

(** The number of occurrences of the character [c] in [s]. *)
Fixpoint countChar (c : ascii) (s : string) : nat :=
  match s with
  | String a s' => (if Ascii.eqb a c then 1 else 0) + countChar c s'
  | EmptyString => 0
  end.

(** The environment [env] with another repository API. *)
Definition withGetContent (env : Env)
           (g : string -> string -> string -> string -> result ContentData) : Env :=
  {| resolveQueries := resolveQueries env;
     getPath := getPath env;
     parseLanguage := parseLanguage env;
     listLanguages := listLanguages env;
     getContent := g;
     checkoutExternalRepository := checkoutExternalRepository env;
     existsSync := existsSync env;
     realpathSync := realpathSync env;
     loadYamlFile := loadYamlFile env;
     loadYamlBase64 := loadYamlBase64 env;
     path_join := path_join env;
     path_resolve := path_resolve env;
     path_sep := path_sep env |}.

Definition withListLanguages (env : Env)
           (g : RepositoryNwo -> result (list string)) : Env :=
  {| resolveQueries := resolveQueries env;
     getPath := getPath env;
     parseLanguage := parseLanguage env;
     listLanguages := g;
     getContent := getContent env;
     checkoutExternalRepository := checkoutExternalRepository env;
     existsSync := existsSync env;
     realpathSync := realpathSync env;
     loadYamlFile := loadYamlFile env;
     loadYamlBase64 := loadYamlBase64 env;
     path_join := path_join env;
     path_resolve := path_resolve env;
     path_sep := path_sep env |}.

(** [q'] has everything [q] has: every language of [q] is in [q'], with
    the queries of [q] at the front of its lists. *)
Definition extends (q q' : Queries) : Prop :=
  forall lang e,
    lookup lang q = Some e ->
    exists e' b c,
      lookup lang q' = Some e' /\
      builtin e' = (builtin e ++ b)%list /\
      custom e' = (custom e ++ c)%list.

(** The flag [disable-default-queries] of a config file, [false] when
    the file does not have it. *)
Definition configDisablesDefaults (y : yaml) : bool :=
  match getProperty DISABLE_DEFAULT_QUERIES_PROPERTY y with
  | YBool b => b
  | _ => false
  end.

(** The [queries] of a config file, none when the file has no such list. *)
Definition configFileQueries (y : yaml) : list yaml :=
  match getProperty QUERIES_PROPERTY y with
  | YArray items => items
  | _ => []
  end.

(** The query set [q] after all query sources are merged: the default
    queries unless the config file [y] disables them, then the queries
    of the run parameter when it is a non-empty string, then the
    queries of the config file when [shouldAddConfigFileQueries] says
    so. *)
Definition mergedQueries (env : Env) (queriesInput : option string) (y : yaml)
           (languages : list string) (tempDir checkoutPath configFile : string)
           (q : Queries) : Prop :=
  exists qD qR : Queries,
    (if configDisablesDefaults y then qD = []
     else addDefaultQueries env languages [] = Ok qD) /\
    match queriesInput with
    | Some r =>
        if r =? "" then qR = qD
        else addQueriesFromWorkflow env r languages qD tempDir checkoutPath = Ok qR
    | None => qR = qD
    end /\
    (if shouldAddConfigFileQueries queriesInput
     then forEach (addConfigFileQuery env languages tempDir checkoutPath configFile)
                  (configFileQueries y) qR = Ok q
     else q = qR).

(** What the last loop of [loadConfig] asks of the language [l]: the
    result map has an entry for it with a builtin query or with a
    custom group.  A custom group counts whatever it lists, also when
    it lists no query file. *)
Definition hasQueries (q : Queries) (l : string) : Prop :=
  exists e, lookup l q = Some e /\ (builtin e <> [] \/ custom e <> []).

(** The query files of the language [l] in [q]: its builtin queries and
    the queries of its custom groups. *)
Definition queryFiles (q : Queries) (l : string) : list string :=
  match lookup l q with
  | Some e => (builtin e ++ flat_map customQueries (custom e))%list
  | None => []
  end.

(** The parsed languages of the tokens that parse, and the tokens that
    do not. *)
Definition parsedOf (env : Env) (tokens : list string) : list string :=
  flat_map (fun t => match parseLanguage env t with
                     | Some l => [l]
                     | None => []
                     end) tokens.

Definition unknownOf (env : Env) (tokens : list string) : list string :=
  filter (fun t => match parseLanguage env t with
                   | None => true
                   | Some _ => false
                   end) tokens.

(** Adding the elements of [l] to the ordered set [acc]. *)
Definition addAll (l acc : list string) : list string :=
  fold_left (fun acc x => setAdd x acc) l acc.

(** Two stars that the path filter refuses: they end the path, or are
    followed by a character other than a slash, or come after a
    character other than a slash.  Two stars at the very start of the
    path with a slash after them are not refused. *)
Definition badStars (s : string) : Prop :=
  exists u v,
    s = u ++ "**" ++ v /\
    (v = "" \/
     (exists c v', v = String c v' /\ c <> "/"%char) \/
     (exists u' c, u = u' ++ String c "" /\ c <> "/"%char)).

(** A string of slashes only. *)
Fixpoint onlySlashes (s : string) : bool :=
  match s with
  | String a s' => Ascii.eqb a "/" && onlySlashes s'
  | EmptyString => true
  end.

(** The characters of [filterPatternCharactersRegex]. *)
Definition filterPatternCharacters : list ascii :=
  ["?"; "+"; "["; "]"; "!"]%char.

(** Some character of [cs] is in [s]. *)
Definition hasAnyChar (cs : list ascii) (s : string) : bool :=
  existsb (fun c => JS.hasChar c s) cs.

(** The builtin queries and the custom query groups of a language in a
    result map, none when the map does not have the language. *)
Definition builtinOf (m : Queries) (lang : string) : list string :=
  match lookup lang m with
  | Some e => builtin e
  | None => []
  end.

Definition customOf (m : Queries) (lang : string) : list QueriesWithSearchPath :=
  match lookup lang m with
  | Some e => custom e
  | None => []
  end.

(** The query ends with one of the suffixes that the table of disabled
    queries lists for the language. *)
Definition isDisabled (language query : string) : bool :=
  existsb (fun disabledQuery => JS.endsWith query disabledQuery)
          (match lookup language DISABLED_BUILTIN_QUERIES with
           | Some l => l
           | None => []
           end).

(** The result map with an entry for the language, a new and empty one
    at the end when it had none. *)
Definition withLanguage (language : string) (resultMap : Queries) : Queries :=
  match lookup language resultMap with
  | Some _ => resultMap
  | None => (resultMap ++ [(language, emptyLanguageQueries)])%list
  end.

(** What one turn of the loop of [runResolveQueries] makes of the
    result map when it does not fail. *)
Definition pushResolved (extraSearchPath : option string)
           (resultMap : Queries) (entry : string * list string) : Queries :=
  let (language, queryPaths) := entry in
  let qs := filter (fun q => negb (isDisabled language q)) queryPaths in
  update language
         (fun e =>
            match extraSearchPath with
            | Some sp =>
                {| builtin := builtin e;
                   custom := (custom e ++ [{| searchPath := sp; customQueries := qs |}])%list |}
            | None =>
                {| builtin := (builtin e ++ qs)%list; custom := custom e |}
            end)
         (withLanguage language resultMap).

(** No query of the result map is on the list of disabled queries of
    its language. *)
Definition noDisabled (m : Queries) : Prop :=
  forall lang,
    (forall q, In q (builtinOf m lang) -> isDisabled lang q = false) /\
    (forall g q, In g (customOf m lang) -> In q (customQueries g) ->
                 isDisabled lang q = false).

(** The queries that one answer of the resolver contributes to a
    language: the files listed under that language that are not
    disabled. *)
Definition resolvedFor (out : ResolveQueriesOutput) (lang : string)
  : list (list string) :=
  flat_map (fun entry : string * list string =>
              if fst entry =? lang
              then [filter (fun q => negb (isDisabled lang q)) (snd entry)]
              else [])
           (byLanguage out).

(** More sample environments. *)
Module SampleMore.

(** A resolver that finds one disabled and one other C# query. *)
Definition csharpWorld : Env :=
  Sample.env Sample.files Sample.docs
    (fun _ _ =>
       Ok {| byLanguage :=
               [("csharp",
                 ["/codeql/csharp/ql/src/Security Features/CWE-937/VulnerablePackage.ql";
                  "/codeql/csharp/ql/src/Other.ql"])];
             noDeclaredLanguage := [];
             multipleDeclaredLanguages := [] |}).

(** A resolver that lists a language without any query. *)
Definition goWorld : Env :=
  Sample.env Sample.files Sample.docs
    (fun _ _ => Ok {| byLanguage := [("go", [])];
                      noDeclaredLanguage := [];
                      multipleDeclaredLanguages := [] |}).

(** A config file that turns the default queries off and names a
    local query directory, and a resolver that lists the language of
    the directory without any query file in it. *)
Definition hollowWorld : Env :=
  Sample.env Sample.files
    [("/work/repo/config.yml",
      YObject [("disable-default-queries", YBool true);
               ("queries", YArray [YObject [("uses", YString "./queries")]])])]
    (fun _ _ => Ok {| byLanguage := [("javascript", [])];
                      noDeclaredLanguage := [];
                      multipleDeclaredLanguages := [] |}).

(** A config file whose document is a timestamp scalar, 2001-12-14,
    which the loader turns into a [Date]. *)
Definition timestampWorld : Env :=
  Sample.env Sample.files [("/work/repo/config.yml", YDate 1008288000000)]
             Sample.resolver.

(** A resolver that lists the language [constructor]. *)
Definition constructorWorld : Env :=
  Sample.env Sample.files Sample.docs
    (fun _ _ => Ok {| byLanguage := [("constructor", ["/codeql/q.ql"])];
                      noDeclaredLanguage := [];
                      multipleDeclaredLanguages := [] |}).

End SampleMore.

(** All characters of [s] are in the class [p]. *)
Fixpoint allChars (p : ascii -> bool) (s : string) : bool :=
  match s with
  | String a s' => p a && allChars p s'
  | EmptyString => true
  end.

(** A value of a config file is a string that is not empty and that
    [validateAndSanitisePath] turns into the path filter [q]. *)
Definition sanitisedFrom (propertyName configFile : string) (item : yaml) (q : string)
  : Prop :=
  exists s,
    item = YString s /\ s <> "" /\
    snd (validateAndSanitisePath s propertyName configFile) = Ok q.

(** The items of the list [p] of a config file, none when the file has
    no such property. *)
Definition configList (p : string) (y : yaml) : list yaml :=
  match getProperty p y with
  | YArray items => items
  | _ => []
  end.

(** The property [p] of a config file is absent or a list. *)
Definition absentOrList (p : string) (y : yaml) : Prop :=
  getProperty p y = YUndefined \/ exists items, getProperty p y = YArray items.

Section CountLocNotions.

Variable Language : Type.
Variable Language_eqb : Language -> Language -> bool.

(** The [code] counts, among the entries [languages] of the line
    counter, that go to the prefix [p]: those of the linguist names
    that the table maps to [p] and to one of the languages
    [dbLanguages]. *)
Definition countsFor (table : list (string * CountLoc.Metrics Language))
           (dbLanguages : list Language) (p : string)
           (languages : list (string * nat)) : list nat :=
  flat_map (fun entry : string * nat =>
              match lookup (fst entry) table with
              | Some m =>
                  if (CountLoc.prefix m =? p)
                     && existsb (Language_eqb (CountLoc.name m)) dbLanguages
                  then [snd entry] else []
              | None => []
              end) languages.

(** The linguist names that the table maps to the language [a]. *)
Definition namesFor (table : list (string * CountLoc.Metrics Language))
           (a : Language) : list string :=
  flat_map (fun entry : string * CountLoc.Metrics Language =>
              if Language_eqb (CountLoc.name (snd entry)) a
              then [fst entry] else []) table.

End CountLocNotions.

(** The count of a prefix after more counts went to it. *)
Definition addCounts (o : option nat) (cs : list nat) : option nat :=
  match cs with
  | [] => o
  | _ :: _ => Some (list_sum cs + match o with Some v => v | None => 0 end)
  end.

(** The names of a language after more names were pushed. *)
Definition addNames (o : option (list string)) (ks : list string)
  : option (list string) :=
  match ks with
  | [] => o
  | _ :: _ => Some ((match o with Some l => l | None => [] end) ++ ks)%list
  end.

(** A sample line counter and the languages as their names. *)
Module SampleLoc.

Definition loadInfo (cwd : string) (include exclude : list string)
           (analysisLanguages : list (option string))
  : result (list (string * nat)) :=
  Ok [("typescript", 120); ("html", 40); ("javascript", 30);
      ("python", 7); ("c", 5)].

Definition countLoc :=
  CountLoc.countLoc String.eqb "cpp" "csharp" "go" "java" "javascript" "python"
                    loadInfo.

Definition analysisLanguages :=
  CountLoc.analysisLanguages String.eqb
    "cpp" "csharp" "go" "java" "javascript" "python".

End SampleLoc.

(* ================================================================== *)
(** * Facts about strings *)

Unset Implicit Arguments.

Section StringFacts.

Lemma append_nil_r (s : string) : s ++ "" = s.
Proof. induction s as [|a s IH]; simpl; [reflexivity | now rewrite IH]. Qed.

Lemma append_assoc (s t u : string) : (s ++ t) ++ u = s ++ (t ++ u).
Proof. induction s as [|a s IH]; simpl; [reflexivity | now rewrite IH]. Qed.

Lemma length_append (s t : string) :
  String.length (s ++ t) = String.length s + String.length t.
Proof. induction s as [|a s IH]; simpl; [reflexivity | now rewrite IH]. Qed.

Lemma append_inv_head (s t u : string) : s ++ t = s ++ u -> t = u.
Proof.
  induction s as [|a s IH]; simpl; intros H; [assumption|].
  injection H as H. auto.
Qed.

Lemma substring_prefix (s t : string) :
  substring 0 (String.length s) (s ++ t) = s.
Proof.
  induction s as [|a s IH]; simpl.
  - destruct t; reflexivity.
  - now rewrite IH.
Qed.

Lemma prefix_append (s t : string) : prefix s (s ++ t) = true.
Proof.
  induction s as [|a s IH]; simpl.
  - destruct t; reflexivity.
  - destruct (ascii_dec a a) as [_|N]; [assumption | now destruct N].
Qed.

Lemma prefix_inv (s t : string) :
  prefix s t = true -> exists u, t = s ++ u.
Proof.
  revert t; induction s as [|a s IH]; intros t H.
  - exists t. reflexivity.
  - destruct t as [|b t]; simpl in H; [discriminate|].
    destruct (ascii_dec a b) as [->|_]; [|discriminate].
    destruct (IH _ H) as [u ->]. exists u. reflexivity.
Qed.

Lemma endsWith_append (s p : string) : JS.endsWith (s ++ p) p = true.
Proof.
  induction s as [|a s IH].
  - simpl append. destruct p; unfold JS.endsWith; rewrite String.eqb_refl; reflexivity.
  - change (((String a (s ++ p) =? p) || JS.endsWith (s ++ p) p) = true).
    rewrite IH. apply orb_true_r.
Qed.

Lemma endsWith_inv (s p : string) :
  JS.endsWith s p = true -> exists u, s = u ++ p.
Proof.
  induction s as [|a s IH]; intros H.
  - destruct p; [exists ""; reflexivity | discriminate].
  - change (((String a s =? p) || JS.endsWith s p) = true) in H.
    apply orb_true_iff in H. destruct H as [H|H].
    + apply String.eqb_eq in H. exists "". now rewrite H.
    + destruct (IH H) as [u ->]. exists (String a u). reflexivity.
Qed.

End StringFacts.

(* ================================================================== *)
(** * Facts about the matcher *)

Section RegexFacts.

(** A match found in a suffix is found in the whole string. *)
Lemma matches_suffix (r : regex) (s t : string) :
  matches r t = true -> matches r (s ++ t) = true.
Proof.
  intros H. induction s as [|a s IH]; simpl; [assumption|].
  unfold matches in *. simpl.
  destruct (rmatch r (String a (s ++ t)) [] (fun _ c => Some c)); [reflexivity|].
  exact IH.
Qed.

(** A repetition can stop where it starts. *)
Lemma star_complete (p : ascii -> bool) (s : string)
      (k : string -> option captures) (c : captures) :
  k s = Some c -> exists c', star p s k = Some c'.
Proof.
  intros H. destruct s as [|a s]; simpl; [eauto|].
  destruct (p a); [|eauto].
  destruct (star p s k); eauto.
Qed.

(** A repetition that succeeds stopped at some suffix. *)
Lemma star_sound (p : ascii -> bool) (s : string)
      (k : string -> option captures) (c : captures) :
  star p s k = Some c -> exists x t, s = x ++ t /\ k t = Some c.
Proof.
  revert c. induction s as [|a s IH]; simpl; intros c H.
  - exists "", "". auto.
  - destruct (p a); [|exists "", (String a s); auto].
    destruct (star p s k) as [c'|] eqn:E.
    + destruct (IH _ eq_refl) as (x & t & -> & K).
      exists (String a x), t. injection H as <-. auto.
    + exists "", (String a s). auto.
Qed.

Lemma exec_sound (r : regex) (s : string) (c : captures) :
  exec r s = Some c ->
  exists w t, s = w ++ t /\ rmatch r t [] (fun _ c => Some c) = Some c.
Proof.
  induction s as [|a s IH]; simpl.
  - destruct (rmatch r "" [] (fun _ c => Some c)) eqn:E; [|discriminate].
    intros H. injection H as <-. exists "", "". auto.
  - destruct (rmatch r (String a s) [] (fun _ c => Some c)) eqn:E.
    + intros H. injection H as <-. exists "", (String a s). auto.
    + intros H. destruct (IH H) as (w & t & -> & M).
      exists (String a w), t. auto.
Qed.

Lemma matches_at (r : regex) (w t : string) (c : captures) :
  rmatch r t [] (fun _ c => Some c) = Some c -> matches r (w ++ t) = true.
Proof.
  intros H. apply matches_suffix. unfold matches.
  destruct t; simpl; now rewrite H.
Qed.

(** The stars pattern finds exactly the stars that are not between
    slashes. *)
Lemma pathStarsRegex_spec (s : string) :
  matches pathStarsRegex s = true <-> badStars s.
Proof.
  split.
  - unfold matches. destruct (exec pathStarsRegex s) as [c|] eqn:E; [|discriminate].
    intros _. destruct (exec_sound _ _ _ E) as (w & t & -> & M).
    simpl in M. apply star_sound in M. destruct M as (x & t' & -> & M).
    rewrite <- append_assoc.
    destruct t' as [|a1 t1]; [discriminate|].
    destruct (Ascii.eqb_spec a1 "*") as [->|N1].
    + destruct t1 as [|a2 t2]; [discriminate|].
      destruct (Ascii.eqb_spec a2 "*") as [->|N2].
      * exists (w ++ x), t2. split; [reflexivity|].
        destruct t2 as [|a3 t3]; [now left|]. right. left.
        destruct (Ascii.eqb_spec a3 "/") as [->|N3]; [|eauto].
        simpl in M. destruct t3 as [|a4 t4]; [discriminate|].
        unfold lit, notChar in M. simpl in M. discriminate.
      * simpl in M. unfold lit, notChar in M.
        rewrite (proj2 (Ascii.eqb_neq _ _) N2) in M. simpl in M.
        destruct t2 as [|a3 t3]; [discriminate|].
        destruct (Ascii.eqb_spec a3 "*") as [->|N3]; [|discriminate].
        exists ((w ++ x) ++ "*"), (String "*" t3).
        split; [now rewrite !append_assoc|].
        right. left. exists "*"%char, t3. split; [reflexivity | discriminate].
    + simpl in M. unfold lit, notChar in M.
      rewrite (proj2 (Ascii.eqb_neq _ _) N1) in M. simpl in M.
      destruct (Ascii.eqb_spec a1 "/") as [->|N0]; [discriminate|]. simpl in M.
      destruct t1 as [|a2 t2]; [discriminate|].
      destruct (Ascii.eqb_spec a2 "*") as [->|N2]; [|discriminate].
      destruct t2 as [|a3 t3]; [discriminate|].
      destruct (Ascii.eqb_spec a3 "*") as [->|N3]; [|discriminate].
      exists ((w ++ x) ++ String a1 ""), t3. split; [now rewrite !append_assoc|].
      right. right. eauto.
  - intros (u & v & -> & [->|[(c & v' & -> & N)|(u' & c & -> & N)]]).
    + apply matches_suffix. reflexivity.
    + destruct (star_complete dot v' (fun _ => Some []) [] eq_refl) as [c1 H1].
      destruct (star_complete dot ("**" ++ String c v')
                  (fun s' => rmatch
                     (RAlt (RSeq star2 (RSeq (RChar (notChar "/")) (RStar dot)))
                           (RAlt (RSeq star2 REnd)
                                 (RSeq (RChar (notChar "/")) (RSeq star2 (RStar dot)))))
                     s' [] (fun _ c => Some c)) c1) as [c2 H2].
      { simpl. unfold notChar. rewrite (proj2 (Ascii.eqb_neq _ _) N). simpl.
        unfold captures in *. now rewrite H1. }
      apply (matches_at pathStarsRegex u ("**" ++ String c v') c2). exact H2.
    + destruct (star_complete dot v (fun _ => Some []) [] eq_refl) as [c1 H1].
      destruct (star_complete dot (String c ("**" ++ v))
                  (fun s' => rmatch
                     (RAlt (RSeq star2 (RSeq (RChar (notChar "/")) (RStar dot)))
                           (RAlt (RSeq star2 REnd)
                                 (RSeq (RChar (notChar "/")) (RSeq star2 (RStar dot)))))
                     s' [] (fun _ c => Some c)) c1) as [c2 H2].
      { simpl. unfold lit, notChar.
        rewrite (proj2 (Ascii.eqb_neq _ _) N). simpl.
        unfold captures in *. rewrite H1.
        destruct (Ascii.eqb_spec c "*") as [->|Nc].
        - destruct v as [|b v]; simpl; [reflexivity|].
          destruct (negb (Ascii.eqb b "/")); simpl;
            [destruct (star dot v (fun _ => Some [])); reflexivity | reflexivity].
        - reflexivity. }
      rewrite append_assoc.
      apply (matches_at pathStarsRegex u' (String c ("**" ++ v)) c2). exact H2.
Qed.

(** Two stars at the end of the path are refused. *)
Lemma pathStars_trailing (u : string) :
  matches pathStarsRegex (u ++ "/**") = true.
Proof. apply matches_suffix. reflexivity. Qed.

End RegexFacts.

(* ================================================================== *)
(** * The path filter validator *)

Section PathFilter.

Lemma stripLeadingSlashes_no_slash (s t : string) :
  stripLeadingSlashes s <> String "/" t.
Proof.
  induction s as [|a s IH]; simpl; [discriminate|].
  destruct (Ascii.eqb_spec a "/") as [->|N].
  - exact IH.
  - assert (E : stripLeadingSlashes (String a s) = String a s).
    { simpl. destruct a as [[] [] [] [] [] [] [] []]; try reflexivity.
      now destruct N. }
    simpl in E. rewrite E. intros H. injection H as H _. now destruct N.
Qed.

Lemma stripLeadingSlashes_id (s : string) :
  (forall t, s <> String "/" t) -> stripLeadingSlashes s = s.
Proof.
  destruct s as [|a s]; intros H; [reflexivity|].
  destruct (Ascii.eqb_spec a "/") as [->|N].
  - now destruct (H s).
  - simpl. destruct a as [[] [] [] [] [] [] [] []]; try reflexivity.
    now destruct N.
Qed.

Lemma stripTrailingStars_append (u : string) :
  stripTrailingStars (u ++ "/**") = u ++ "/".
Proof.
  unfold stripTrailingStars. rewrite endsWith_append.
  replace (u ++ "/**") with ((u ++ "/") ++ "**")
    by (rewrite append_assoc; reflexivity).
  rewrite length_append. simpl String.length.
  replace (String.length (u ++ "/") + 2 - 2) with (String.length (u ++ "/")) by lia.
  apply substring_prefix.
Qed.

(** The trailing-stars step keeps the first character of a path that
    does not start with a slash. *)
Lemma stripTrailingStars_no_slash (s : string) :
  (forall t, s <> String "/" t) ->
  forall t, stripTrailingStars s <> String "/" t.
Proof.
  intros H t. unfold stripTrailingStars.
  destruct (JS.endsWith s "/**") eqn:E; [|apply H].
  destruct (endsWith_inv _ _ E) as [u ->].
  fold (stripTrailingStars (u ++ "/**")).
  pose proof (stripTrailingStars_append u) as A.
  unfold stripTrailingStars in A. rewrite endsWith_append in A. rewrite A.
  destruct u as [|a u]; simpl.
  - now destruct (H "**").
  - intros K. injection K as -> _. now destruct (H (u ++ "/**")).
Qed.

(** What a successful validation says about its result. *)
Lemma validateAndSanitisePath_ok (p prop cf q : string) :
  snd (validateAndSanitisePath p prop cf) = Ok q ->
  q = stripTrailingStars (stripLeadingSlashes p) /\
  (q =? "") = false /\
  matches pathStarsRegex q = false /\
  JS.hasChar JS.backslash q = false.
Proof.
  unfold validateAndSanitisePath.
  set (n := stripTrailingStars (stripLeadingSlashes p)).
  destruct (n =? "") eqn:E1; simpl; [discriminate|].
  destruct (matches pathStarsRegex n) eqn:E2; simpl; [discriminate|].
  destruct (JS.hasChar JS.backslash n) eqn:E3; simpl; [discriminate|].
  intros H. injection H as <-. auto.
Qed.

(** A path that passes the checks and is already in normal form is
    returned as it is. *)
Lemma validateAndSanitisePath_fixed (q prop cf : string) :
  stripTrailingStars (stripLeadingSlashes q) = q ->
  (q =? "") = false ->
  matches pathStarsRegex q = false ->
  JS.hasChar JS.backslash q = false ->
  snd (validateAndSanitisePath q prop cf) = Ok q.
Proof.
  intros E H1 H2 H3. unfold validateAndSanitisePath.
  rewrite E, H1, H2, H3. reflexivity.
Qed.

End PathFilter.

(** C3 (as the code has it): [validateAndSanitisePath] applied to the
    input "/foo/**" returns the string "foo/": the leading slash is
    stripped and of the trailing "/**" only the two stars are dropped,
    the slash is kept. *)
Theorem validateAndSanitisePath_foo_stars :
  forall propertyName configFile : string,
    snd (validateAndSanitisePath "/foo/**" propertyName configFile) = Ok "foo/".
Proof. intros. reflexivity. Qed.

(** C3, refuted: the result on "/foo/**" is not the string "foo". *)
Lemma validateAndSanitisePath_foo_stars_not_foo :
  snd (validateAndSanitisePath "/foo/**" "paths" "codeql-config.yml") <> Ok "foo".
Proof. simpl. discriminate. Qed.

(** C9: path-filter normalisation is idempotent: when
    [validateAndSanitisePath] succeeds on [p] with result [q], it
    succeeds on [q] and returns [q] again. *)
Theorem validateAndSanitisePath_idempotent :
  forall (p propertyName configFile q propertyName' configFile' : string),
    snd (validateAndSanitisePath p propertyName configFile) = Ok q ->
    snd (validateAndSanitisePath q propertyName' configFile') = Ok q.
Proof.
  intros p prop cf q prop' cf' H.
  destruct (validateAndSanitisePath_ok _ _ _ _ H) as (Eq & H1 & H2 & H3).
  apply validateAndSanitisePath_fixed; trivial.
  assert (NS : forall t, q <> String "/" t).
  { rewrite Eq. apply stripTrailingStars_no_slash.
    intros t. apply stripLeadingSlashes_no_slash. }
  rewrite (stripLeadingSlashes_id _ NS).
  unfold stripTrailingStars.
  destruct (JS.endsWith q "/**") eqn:E; [|reflexivity].
  destruct (endsWith_inv _ _ E) as [u ->].
  rewrite pathStars_trailing in H2. discriminate.
Qed.

Lemma validateAndSanitisePath_idempotent_witness :
  snd (validateAndSanitisePath "//src/**" "paths" "codeql-config.yml") = Ok "src/" /\
  snd (validateAndSanitisePath "src/" "paths-ignore" "other.yml") = Ok "src/".
Proof.
  split; [reflexivity|].
  apply (validateAndSanitisePath_idempotent
           "//src/**" "paths" "codeql-config.yml" "src/" "paths-ignore" "other.yml").
  reflexivity.
Defined.

(* ================================================================== *)
(** * The query resolution client *)

Section ResolutionClient.

Lemma occursIn_append_r (f s t : string) : occursIn f t -> occursIn f (s ++ t).
Proof.
  intros (a & b & ->). exists (s ++ a), b. now rewrite append_assoc.
Qed.

(** Every joined string occurs in the join. *)
Lemma join_occursIn (sep : string) (l : list string) (f : string) :
  In f l -> occursIn f (JS.join sep l).
Proof.
  unfold JS.join.
  induction l as [|x l IH]; intros H; [destruct H|].
  destruct H as [->|H].
  - destruct l as [|y l]; simpl.
    + exists "", "". simpl. now rewrite append_nil_r.
    + exists "", (sep ++ String.concat sep (y :: l)). reflexivity.
  - destruct l as [|y l]; [destruct H|].
    change (String.concat sep (x :: y :: l))
      with (x ++ sep ++ String.concat sep (y :: l)).
    apply occursIn_append_r, occursIn_append_r. auto.
Qed.

Lemma occursIn_includes (f msg : string) :
  occursIn f msg -> includes msg f = true.
Proof.
  intros (a & b & ->). induction a as [|x a IH].
  - simpl append. destruct (f ++ b) eqn:E; unfold includes; fold includes;
      rewrite <- E, prefix_append; reflexivity.
  - change (String x a ++ f ++ b) with (String x (a ++ f ++ b)).
    unfold includes; fold includes. rewrite IH. apply orb_true_r.
Qed.

Lemma bind_ok_inv (A B : Type) (m : result A) (f : A -> result B) (b : B) :
  bind m f = Ok b -> exists a, m = Ok a /\ f a = Ok b.
Proof. destruct m as [a|e]; simpl; [eauto | discriminate]. Qed.

Lemma lookup_app (V : Type) (k : string) (m1 m2 : list (string * V)) :
  lookup k (m1 ++ m2) =
  match lookup k m1 with
  | Some v => Some v
  | None => lookup k m2
  end.
Proof.
  induction m1 as [|[k' v] m1 IH]; simpl; [reflexivity|].
  destruct (k' =? k); [reflexivity | exact IH].
Qed.

Lemma lookup_update (V : Type) (k k' : string) (f : V -> V) (m : list (string * V)) :
  lookup k (update k' f m) =
  if k' =? k then option_map f (lookup k m) else lookup k m.
Proof.
  induction m as [|[k0 v] m IH]; simpl.
  - now destruct (k' =? k).
  - destruct (k0 =? k') eqn:E0; simpl.
    + apply String.eqb_eq in E0. subst k0.
      destruct (k' =? k); reflexivity.
    + destruct (k0 =? k) eqn:E1.
      * apply String.eqb_eq in E1. subst k0.
        rewrite String.eqb_sym, E0. reflexivity.
      * exact IH.
Qed.

(** The test of the source agrees with the table where it answers, and
    answers for every language that is not an inherited name. *)
Lemma queryIsDisabled_ok (language query : string) (b : bool) :
  queryIsDisabled language query = Ok b -> b = isDisabled language query.
Proof.
  unfold queryIsDisabled, isDisabled.
  destruct (lookup language DISABLED_BUILTIN_QUERIES).
  - intros H. now injection H.
  - destruct (inherited language); [discriminate|]. intros H. now injection H.
Qed.

Lemma queryIsDisabled_own (language query : string) :
  inherited language = false ->
  queryIsDisabled language query = Ok (isDisabled language query).
Proof.
  intros N. unfold queryIsDisabled, isDisabled. rewrite N.
  now destruct (lookup language DISABLED_BUILTIN_QUERIES).
Qed.

Lemma enabledQueries_ok (language : string) (queryPaths queries : list string) :
  enabledQueries language queryPaths = Ok queries ->
  queries = filter (fun q => negb (isDisabled language q)) queryPaths.
Proof.
  revert queries. induction queryPaths as [|q queryPaths IH]; intros queries H;
    cbn [enabledQueries] in H.
  - now injection H.
  - apply bind_ok_inv in H. destruct H as (d & D & H).
    apply bind_ok_inv in H. destruct H as (r & R & H).
    injection H as <-. apply queryIsDisabled_ok in D. subst d.
    rewrite (IH _ R). cbn [filter]. now destruct (isDisabled language q).
Qed.

Lemma enabledQueries_own (language : string) (queryPaths : list string) :
  inherited language = false ->
  enabledQueries language queryPaths
  = Ok (filter (fun q => negb (isDisabled language q)) queryPaths).
Proof.
  intros N. induction queryPaths as [|q queryPaths IH]; [reflexivity|].
  cbn [enabledQueries filter]. rewrite (queryIsDisabled_own _ _ N), IH.
  cbn [bind]. now destruct (isDisabled language q).
Qed.

(** A turn of the loop that does not fail does what [pushResolved]
    says, and no turn fails for a language that is not an inherited
    name. *)
Lemma addResolved_ok (extra : option string) (m m' : Queries)
      (entry : string * list string) :
  addResolved extra m entry = Ok m' -> m' = pushResolved extra m entry.
Proof.
  destruct entry as [language queryPaths]. unfold addResolved, pushResolved.
  cbv zeta. intros H.
  apply bind_ok_inv in H. destruct H as (r & R & H).
  apply enabledQueries_ok in R. subst r.
  unfold ensureLanguage, withLanguage in *.
  destruct (lookup language m) as [e|] eqn:L.
  - rewrite L in H. now injection H.
  - destruct (inherited language).
    + rewrite L in H. discriminate.
    + destruct (lookup language (m ++ [(language, emptyLanguageQueries)]));
        [now injection H | discriminate].
Qed.

Lemma addResolved_own (extra : option string) (m : Queries)
      (entry : string * list string) :
  inherited (fst entry) = false ->
  addResolved extra m entry = Ok (pushResolved extra m entry).
Proof.
  destruct entry as [language queryPaths]. cbn [fst]. intros N.
  unfold addResolved, pushResolved. cbv zeta.
  rewrite (enabledQueries_own _ _ N). cbn [bind].
  unfold ensureLanguage, withLanguage. rewrite N.
  destruct (lookup language m) as [e|] eqn:L.
  - rewrite L. reflexivity.
  - rewrite lookup_app, L. cbn [lookup]. rewrite String.eqb_refl. reflexivity.
Qed.

(** A turn for an inherited name that the result map has no entry for
    fails, and a turn for another language leaves such a name without
    an entry. *)
Lemma addResolved_inherited (extra : option string) (m : Queries)
      (language : string) (queryPaths : list string) :
  inherited language = true -> lookup language m = None ->
  isOk (addResolved extra m (language, queryPaths)) = false.
Proof.
  intros I L. unfold addResolved. cbv zeta. unfold ensureLanguage.
  rewrite L, I. destruct (enabledQueries language queryPaths); [|reflexivity].
  cbn [bind]. rewrite L. reflexivity.
Qed.

Lemma addResolved_keeps_none (extra : option string) (m m' : Queries)
      (entry : string * list string) (l : string) :
  addResolved extra m entry = Ok m' ->
  inherited l = true -> lookup l m = None -> lookup l m' = None.
Proof.
  destruct entry as [language queryPaths]. intros H I L.
  destruct (String.eqb_spec language l) as [->|N].
  - pose proof (addResolved_inherited extra m l queryPaths I L) as F.
    rewrite H in F. discriminate.
  - apply addResolved_ok in H. subst m'. unfold pushResolved.
    rewrite lookup_update. apply String.eqb_neq in N. rewrite N.
    unfold withLanguage. destruct (lookup language m); [exact L|].
    rewrite lookup_app, L. cbn [lookup]. now rewrite N.
Qed.

Lemma forEach_addResolved_ok (extra : option string)
      (entries : list (string * list string)) (m m' : Queries) :
  forEach (addResolved extra) entries m = Ok m' ->
  m' = fold_left (pushResolved extra) entries m.
Proof.
  revert m. induction entries as [|x entries IH]; intros m H; cbn [forEach] in H.
  - now injection H.
  - apply bind_ok_inv in H. destruct H as (m1 & M & H).
    apply addResolved_ok in M. subst m1. cbn [fold_left]. now apply IH.
Qed.

Lemma forEach_addResolved_own (extra : option string)
      (entries : list (string * list string)) (m : Queries) :
  (forall l, In l (map fst entries) -> inherited l = false) ->
  forEach (addResolved extra) entries m
  = Ok (fold_left (pushResolved extra) entries m).
Proof.
  revert m. induction entries as [|x entries IH]; intros m N; [reflexivity|].
  cbn [forEach fold_left]. rewrite addResolved_own.
  - cbn [bind]. apply IH. intros l I. apply N. now right.
  - apply N. now left.
Qed.

Lemma forEach_addResolved_inherited (extra : option string)
      (entries : list (string * list string)) (m : Queries) (l : string) :
  In l (map fst entries) -> inherited l = true -> lookup l m = None ->
  isOk (forEach (addResolved extra) entries m) = false.
Proof.
  revert m. induction entries as [|[k qs] entries IH]; intros m I P L;
    [destruct I|].
  cbn [forEach]. destruct (addResolved extra m (k, qs)) as [m1|e] eqn:A;
    [|reflexivity].
  cbn [bind]. destruct I as [E|I].
  - cbn [fst] in E. subst k.
    pose proof (addResolved_inherited extra m l qs P L) as F.
    rewrite A in F. discriminate.
  - apply IH; [exact I | exact P |].
    eapply addResolved_keeps_none; eassumption.
Qed.

End ResolutionClient.

(** C7 (as the code has it): with an [extraSearchPath] (custom queries),
    [runResolveQueries] fails whenever the resolver's
    [noDeclaredLanguage] or [multipleDeclaredLanguages] bucket is not
    empty, with an error that lists every file of the bucket it
    reports: [noDeclaredLanguage] when that one is not empty, otherwise
    [multipleDeclaredLanguages]; without an [extraSearchPath] (builtin
    suites) both checks are skipped: the outcome is that of the loop
    over the languages of the answer, whatever the buckets hold, and
    the resolved queries are merged when no language of the answer is a
    name that every object inherits (on such a name the loop itself can
    fail). *)
Theorem runResolveQueries_validates_custom_queries :
  forall (env : Env) (resultMap : Queries) (toResolve : list string)
         (extraSearchPath : option string) (out : ResolveQueriesOutput),
    resolveQueries env toResolve extraSearchPath = Ok out ->
    (forall sp, extraSearchPath = Some sp ->
       noDeclaredLanguage out <> [] \/ multipleDeclaredLanguages out <> [] ->
       exists msg,
         runResolveQueries env resultMap toResolve extraSearchPath = Error msg /\
         (noDeclaredLanguage out <> [] ->
          forall f, In f (noDeclaredLanguage out) -> occursIn f msg) /\
         (noDeclaredLanguage out = [] ->
          forall f, In f (multipleDeclaredLanguages out) -> occursIn f msg)) /\
    (extraSearchPath = None ->
       runResolveQueries env resultMap toResolve extraSearchPath =
       forEach (addResolved None) (byLanguage out) resultMap /\
       ((forall l, In l (map fst (byLanguage out)) -> inherited l = false) ->
        runResolveQueries env resultMap toResolve extraSearchPath =
        Ok (fold_left (pushResolved None) (byLanguage out) resultMap))).
Proof.
  intros env rm toResolve extra out R. split.
  - intros sp -> Hb. unfold runResolveQueries. rewrite R. cbn [bind].
    unfold validateQueries.
    destruct (noDeclaredLanguage out) as [|n ns] eqn:En.
    + destruct (multipleDeclaredLanguages out) as [|m ms] eqn:Em.
      * destruct Hb as [Hb|Hb]; now destruct Hb.
      * cbn [bind]. eexists. split; [reflexivity|]. split.
        -- intros N. now destruct N.
        -- intros _ f Hf. rewrite <- append_assoc.
           do 2 apply occursIn_append_r. now apply join_occursIn.
    + cbn [bind]. eexists. split; [reflexivity|]. split.
      * intros _ f Hf. rewrite <- append_assoc.
        do 2 apply occursIn_append_r. now apply join_occursIn.
      * discriminate.
  - intros ->. unfold runResolveQueries. rewrite R. cbn [bind].
    split; [reflexivity|]. apply forEach_addResolved_own.
Qed.

(** Without a search path too, a language of the answer that is a name
    every object inherits, and that the result map has no entry of its
    own for, makes [runResolveQueries] fail. *)
Lemma runResolveQueries_inherited_language :
  forall (env : Env) (resultMap : Queries) (toResolve : list string)
         (extraSearchPath : option string) (out : ResolveQueriesOutput)
         (l : string),
    resolveQueries env toResolve extraSearchPath = Ok out ->
    In l (map fst (byLanguage out)) -> inherited l = true ->
    lookup l resultMap = None ->
    isOk (runResolveQueries env resultMap toResolve extraSearchPath) = false.
Proof.
  intros env rm toResolve extra out l R I P L. unfold runResolveQueries.
  rewrite R. cbn [bind].
  destruct (match extra with
            | Some _ => validateQueries out
            | None => Ok tt
            end); [|reflexivity].
  cbn [bind]. eapply forEach_addResolved_inherited; eassumption.
Qed.

(** A resolver answer that lists the language [constructor] makes the
    merge of builtin queries fail. *)
Lemma runResolveQueries_constructor_language :
  isOk (runResolveQueries SampleMore.constructorWorld []
                          ["javascript-code-scanning.qls"] None) = false.
Proof.
  apply (runResolveQueries_inherited_language
           SampleMore.constructorWorld [] ["javascript-code-scanning.qls"] None
           _ "constructor" eq_refl); [now left | reflexivity | reflexivity].
Qed.

(** C7, refuted: when both buckets hold files, the error lists the files
    without a language only; the file with several languages is not in
    the message. *)
Lemma runResolveQueries_reports_one_bucket :
  exists out msg,
    resolveQueries Sample.ambiguousWorld ["/work/repo/queries"] (Some "/work/repo")
    = Ok out /\
    In "/work/repo/queries/c.ql" (multipleDeclaredLanguages out) /\
    runResolveQueries Sample.ambiguousWorld [] ["/work/repo/queries"]
                      (Some "/work/repo") = Error msg /\
    ~ occursIn "/work/repo/queries/c.ql" msg.
Proof.
  eexists. eexists. split; [reflexivity|]. split; [simpl; auto|].
  split; [reflexivity|].
  intros H. apply occursIn_includes in H. vm_compute in H. discriminate.
Qed.

Lemma runResolveQueries_validates_custom_queries_witness :
  (exists msg,
     runResolveQueries Sample.ambiguousWorld [] ["/work/repo/queries"]
                       (Some "/work/repo") = Error msg /\
     occursIn "/work/repo/queries/b.ql" msg) /\
  isOk (runResolveQueries Sample.ambiguousWorld [] ["javascript-code-scanning.qls"]
                          None) = true.
Proof.
  split.
  - destruct (runResolveQueries_validates_custom_queries
                Sample.ambiguousWorld [] ["/work/repo/queries"] (Some "/work/repo")
                _ eq_refl) as [H _].
    destruct (H "/work/repo" eq_refl) as (msg & E & L & _).
    + left. discriminate.
    + exists msg. split; [exact E|]. apply L; [discriminate|].
      simpl. auto.
  - destruct (runResolveQueries_validates_custom_queries
                Sample.ambiguousWorld [] ["javascript-code-scanning.qls"] None
                _ eq_refl) as [_ H].
    destruct (H eq_refl) as [_ M]. rewrite M; [reflexivity|].
    intros l [<-|[]]. reflexivity.
Defined.

(* ================================================================== *)
(** * The language resolver *)

Section LanguageResolver.

Variable env : Env.

Lemma existsb_eqb_In (x : string) (l : list string) :
  existsb (String.eqb x) l = true <-> In x l.
Proof.
  rewrite existsb_exists. split.
  - intros (y & Hy & E). apply String.eqb_eq in E. now subst.
  - intros H. exists x. split; [assumption | apply String.eqb_refl].
Qed.

Lemma setAdd_In (x y : string) (l : list string) :
  In y (setAdd x l) <-> In y l \/ y = x.
Proof.
  unfold setAdd. destruct (existsb (String.eqb x) l) eqn:E.
  - apply existsb_eqb_In in E. split; [auto | intros [H| ->]; assumption].
  - rewrite in_app_iff. simpl. intuition.
Qed.

Lemma setAdd_NoDup (x : string) (l : list string) :
  NoDup l -> NoDup (setAdd x l).
Proof.
  intros H. unfold setAdd. destruct (existsb (String.eqb x) l) eqn:E; [assumption|].
  assert (N : ~ In x l).
  { intros I. apply existsb_eqb_In in I. congruence. }
  clear E. induction H as [|a l Ha Hl IH]; simpl.
  - constructor; [intros [] | constructor].
  - constructor.
    + rewrite in_app_iff. simpl. intros [I|[->|[]]]; [auto | apply N; now left].
    + apply IH. intros I. apply N. now right.
Qed.

Lemma addAll_In (l acc : list string) (y : string) :
  In y (addAll l acc) <-> In y acc \/ In y l.
Proof.
  unfold addAll. revert acc.
  induction l as [|x l IH]; intros acc; simpl; [intuition|].
  rewrite IH, setAdd_In. intuition.
Qed.

Lemma addAll_NoDup (l acc : list string) :
  NoDup acc -> NoDup (addAll l acc).
Proof.
  unfold addAll. revert acc.
  induction l as [|x l IH]; intros acc H; simpl; [assumption|].
  apply IH, setAdd_NoDup, H.
Qed.

(** The set only grows at its end. *)
Lemma addAll_extends (l acc : list string) :
  exists r, addAll l acc = (acc ++ r)%list.
Proof.
  unfold addAll. revert acc.
  induction l as [|x l IH]; intros acc; simpl.
  - exists []. now rewrite app_nil_r.
  - destruct (IH (setAdd x acc)) as [r ->]. unfold setAdd.
    destruct (existsb (String.eqb x) acc); [now exists r|].
    exists (x :: r). now rewrite <- app_assoc.
Qed.

(** An element seen for the first time goes right after the elements
    seen before it. *)
Lemma addAll_first_seen (l1 l2 : list string) (x : string) :
  ~ In x l1 ->
  exists r2, addAll (l1 ++ x :: l2) [] = (addAll l1 [] ++ x :: r2)%list.
Proof.
  intros N. unfold addAll. rewrite fold_left_app. simpl.
  fold (addAll l1 []).
  assert (E : setAdd x (addAll l1 []) = (addAll l1 [] ++ [x])%list).
  { unfold setAdd. destruct (existsb (String.eqb x) (addAll l1 [])) eqn:E; [|reflexivity].
    apply existsb_eqb_In, addAll_In in E. destruct E as [[]|E]. now destruct N. }
  rewrite E.
  destruct (addAll_extends l2 (addAll l1 [] ++ [x])) as [r Hr].
  unfold addAll in Hr at 1. rewrite Hr. exists r. now rewrite <- app_assoc.
Qed.

(** The loop of [getLanguages] sorts the tokens into the set of parsed
    languages and the list of unknown tokens. *)
Lemma classifyLanguage_fold (tokens parsed unknown : list string) :
  fold_left (classifyLanguage env) tokens (parsed, unknown) =
  (addAll (parsedOf env tokens) parsed, (unknown ++ unknownOf env tokens)%list).
Proof.
  revert parsed unknown.
  induction tokens as [|t tokens IH]; intros parsed unknown; simpl.
  - now rewrite app_nil_r.
  - destruct (parseLanguage env t) as [l|] eqn:E; simpl.
    + unfold addAll. simpl. fold (addAll (parsedOf env tokens) (setAdd l parsed)).
      unfold setAdd.
      destruct (existsb (String.eqb l) parsed); apply IH.
    + rewrite IH. now rewrite <- app_assoc.
Qed.

Lemma parsedOf_In (tokens : list string) (l : string) :
  In l (parsedOf env tokens) <-> exists t, In t tokens /\ parseLanguage env t = Some l.
Proof.
  unfold parsedOf. rewrite in_flat_map. split.
  - intros (t & Ht & H). exists t. split; [assumption|].
    destruct (parseLanguage env t); simpl in H; [|destruct H].
    destruct H as [->|[]]. reflexivity.
  - intros (t & Ht & H). exists t. split; [assumption|].
    rewrite H. now left.
Qed.

Lemma parsedOf_app (t1 t2 : list string) :
  parsedOf env (t1 ++ t2) = (parsedOf env t1 ++ parsedOf env t2)%list.
Proof. unfold parsedOf. apply flat_map_app. Qed.

Lemma unknownOf_nil (tokens : list string) :
  (forall t, In t tokens -> parseLanguage env t <> None) -> unknownOf env tokens = [].
Proof.
  intros H. unfold unknownOf. induction tokens as [|t tokens IH]; simpl; [reflexivity|].
  destruct (parseLanguage env t) eqn:E.
  - apply IH. intros t' Ht'. apply H. now right.
  - destruct (H t); [now left | assumption].
Qed.

Lemma unknownOf_cons (tokens : list string) :
  (exists t, In t tokens /\ parseLanguage env t = None) ->
  exists u us, unknownOf env tokens = u :: us.
Proof.
  intros (t & Ht & E).
  assert (I : In t (unknownOf env tokens)).
  { unfold unknownOf. apply filter_In. split; [assumption | now rewrite E]. }
  destruct (unknownOf env tokens) as [|u us]; [destruct I | eauto].
Qed.

End LanguageResolver.

(** C8: [getLanguages] on an explicit input splits on commas, trims each
    entry and drops the empty entries ([languagesFromInput]); when every
    token maps to a supported language the result is the parsed
    languages without duplicates, each at the place of its first
    occurrence; when some token does not map, it fails with the
    unknown-languages error that lists every such token; and when the
    input and the detection in the repository both yield nothing it
    fails with the no-languages error. *)
Theorem getLanguages_explicit_input :
  forall (env : Env) (languagesInput : option string) (repository : RepositoryNwo),
    let tokens :=
      filter (fun x => negb (String.length x =? 0)%nat)
             (map JS.trim
                  (JS.split "," (match languagesInput with Some s => s | None => "" end))) in
    (tokens <> [] ->
     (forall t, In t tokens -> parseLanguage env t <> None) ->
     exists langs,
       getLanguages env languagesInput repository = Ok langs /\
       NoDup langs /\
       (forall l, In l langs <->
                  exists t, In t tokens /\ parseLanguage env t = Some l) /\
       (forall t1 t t2 l,
           tokens = (t1 ++ t :: t2)%list ->
           parseLanguage env t = Some l ->
           (forall t', In t' t1 -> parseLanguage env t' <> Some l) ->
           exists r1 r2,
             langs = (r1 ++ l :: r2)%list /\
             (forall l', In l' r1 <->
                         exists t', In t' t1 /\ parseLanguage env t' = Some l'))) /\
    (tokens <> [] ->
     (exists t, In t tokens /\ parseLanguage env t = None) ->
     getLanguages env languagesInput repository =
     Error (getUnknownLanguagesError
              (filter (fun t => match parseLanguage env t with
                                | None => true
                                | Some _ => false
                                end) tokens))) /\
    (tokens = [] ->
     getLanguagesInRepo env repository = Ok [] ->
     getLanguages env languagesInput repository = Error getNoLanguagesError).
Proof.
  intros env languagesInput repository tokens.
  assert (D : languagesFromInput languagesInput = tokens) by reflexivity.
  clearbody tokens. repeat split.
  - intros NE All. unfold getLanguages. rewrite D.
    destruct tokens as [|t0 ts]; [now destruct NE|].
    cbn [bind]. rewrite classifyLanguage_fold.
    rewrite (unknownOf_nil env _ All). cbn [app].
    exists (addAll (parsedOf env (t0 :: ts)) []). split; [reflexivity|].
    split; [apply addAll_NoDup; constructor|]. split.
    + intros l. rewrite addAll_In, parsedOf_In. simpl. intuition.
    + intros t1 t t2 l E P First. rewrite E, parsedOf_app.
      change (parsedOf env (t :: t2))
        with ((match parseLanguage env t with Some l => [l] | None => [] end)
                ++ parsedOf env t2)%list.
      rewrite P. cbn [app].
      destruct (addAll_first_seen (parsedOf env t1) (parsedOf env t2) l) as [r2 Hr].
      * rewrite parsedOf_In. intros (t' & Ht' & P'). now apply (First t').
      * exists (addAll (parsedOf env t1) []), r2. split; [exact Hr|].
        intros l'. rewrite addAll_In, parsedOf_In. simpl. intuition.
  - intros NE Unknown. unfold getLanguages. rewrite D.
    destruct tokens as [|t0 ts]; [now destruct NE|].
    cbn [bind]. rewrite classifyLanguage_fold. cbn [app].
    destruct (unknownOf_cons env _ Unknown) as (u & us & Eu).
    fold (unknownOf env (t0 :: ts)). rewrite Eu. reflexivity.
  - intros E R. unfold getLanguages. rewrite D, E, R. reflexivity.
Qed.

Lemma getLanguages_explicit_input_witness :
  getLanguages Sample.world (Some "typescript, python,,javascript ") Sample.repository
  = Ok ["javascript"; "python"] /\
  getLanguages Sample.world (Some "go, ruby,,swift ,ruby") Sample.repository
  = Error "Did not recognise the following languages: ruby, swift, ruby" /\
  getLanguages (withListLanguages Sample.world (fun _ => Ok ["HTML"])) (Some " , ")
               Sample.repository
  = Error getNoLanguagesError.
Proof.
  pose proof (getLanguages_explicit_input Sample.world
                (Some "typescript, python,,javascript ") Sample.repository) as H1.
  pose proof (getLanguages_explicit_input Sample.world
                (Some "go, ruby,,swift ,ruby") Sample.repository) as H2.
  pose proof (getLanguages_explicit_input
                (withListLanguages Sample.world (fun _ => Ok ["HTML"]))
                (Some " , ") Sample.repository) as H3.
  cbv zeta in H1, H2, H3.
  destruct H1 as (H1 & _ & _). destruct H2 as (_ & H2 & _).
  destruct H3 as (_ & _ & H3).
  split; [|split].
  - destruct H1 as (langs & E & _ & _ & _).
    + discriminate.
    + vm_compute. intros t [<-|[<-|[<-|[]]]]; discriminate.
    + rewrite E. vm_compute in E. congruence.
  - rewrite H2.
    + reflexivity.
    + discriminate.
    + exists "ruby". split; [vm_compute; auto | reflexivity].
  - apply H3; reflexivity.
Defined.

(* ================================================================== *)
(** * The query reference parser *)

Section ReferenceParser.

Lemma split_not_nil (c : ascii) (s : string) : JS.split c s <> [].
Proof.
  destruct s as [|a s]; simpl; [discriminate|].
  destruct (Ascii.eqb a c); [discriminate|].
  destruct (JS.split c s); discriminate.
Qed.

Lemma split_length (c : ascii) (s : string) :
  List.length (JS.split c s) = S (countChar c s).
Proof.
  induction s as [|a s IH]; simpl; [reflexivity|].
  destruct (Ascii.eqb a c); simpl; [now rewrite IH|].
  destruct (JS.split c s) as [|h t] eqn:E; [now destruct (split_not_nil c s)|].
  simpl in *. exact IH.
Qed.

(** A string without the separator is its own single part. *)
Lemma split_no_separator (c : ascii) (s : string) :
  JS.hasChar c s = false -> JS.split c s = [s].
Proof.
  induction s as [|a s IH]; simpl; intros H; [reflexivity|].
  apply orb_false_iff in H. destruct H as [H1 H2].
  rewrite H1, (IH H2). reflexivity.
Qed.

(** The first part ends at the first separator. *)
Lemma split_at_separator (c : ascii) (s t : string) :
  JS.hasChar c s = false ->
  JS.split c (s ++ String c t) = s :: JS.split c t.
Proof.
  induction s as [|a s IH]; simpl; intros H.
  - now rewrite Ascii.eqb_refl.
  - apply orb_false_iff in H. destruct H as [H1 H2].
    rewrite H1, (IH H2). reflexivity.
Qed.

End ReferenceParser.

(** C5 (as the code has it): a [uses] string that, once trimmed, is not
    empty, does not start with "./" and contains a slash or an at sign
    is parsed as a reference to a remote repository.  The reference is
    split on the at sign and must have exactly two parts: with no at
    sign or with more than one it is refused with the uses-invalid
    error.  The part before the at sign is split on slashes: the first
    two segments are the owner and the repo, both not empty once
    trimmed, and the remaining segments joined by slashes are the
    optional path inside the checkout; the part after the at sign is
    the ref. *)
Theorem addRemoteQueries_grammar :
  forall (env : Env) (languages : list string) (resultMap : Queries)
         (tempDir checkoutPath : string) (configFile : option string),
    (forall queryUses,
        (JS.trim queryUses =? "") = false ->
        JS.startsWith (JS.trim queryUses) "./" = false ->
        JS.hasChar "/" (JS.trim queryUses) || JS.hasChar "@" (JS.trim queryUses) = true ->
        parseQueryUses env languages resultMap queryUses tempDir checkoutPath configFile
        = addRemoteQueries env resultMap (JS.trim queryUses) tempDir configFile) /\
    (forall queryUses,
        countChar "@" queryUses <> 1 ->
        addRemoteQueries env resultMap queryUses tempDir configFile
        = Error (getQueryUsesInvalid configFile (Some queryUses))) /\
    (forall locator ref,
        JS.hasChar "@" locator = false ->
        JS.hasChar "@" ref = false ->
        (JS.hasChar "/" locator = false \/
         exists tok0 tok1 rest,
           JS.split "/" locator = tok0 :: tok1 :: rest /\
           (JS.trim tok0 = "" \/ JS.trim tok1 = "")) ->
        addRemoteQueries env resultMap (locator ++ "@" ++ ref) tempDir configFile
        = Error (getQueryUsesInvalid configFile (Some (locator ++ "@" ++ ref)))) /\
    (forall locator ref tok0 tok1 rest,
        JS.hasChar "@" locator = false ->
        JS.hasChar "@" ref = false ->
        JS.split "/" locator = tok0 :: tok1 :: rest ->
        JS.trim tok0 <> "" ->
        JS.trim tok1 <> "" ->
        addRemoteQueries env resultMap (locator ++ "@" ++ ref) tempDir configFile
        = (repoPath <- checkoutExternalRepository env (tok0 ++ "/" ++ tok1) ref tempDir ;;
           runResolveQueries env resultMap
             [match rest with
              | [] => repoPath
              | _ :: _ => path_join env repoPath (JS.join "/" rest)
              end]
             (Some repoPath))).
Proof.
  intros env languages rm tempDir checkoutPath cf.
  assert (S2 : forall locator ref,
             JS.hasChar "@" locator = false -> JS.hasChar "@" ref = false ->
             JS.split "@" (locator ++ "@" ++ ref) = [locator; ref]).
  { intros locator ref Hl Hr. change ("@" ++ ref) with (String "@" ref).
    rewrite (split_at_separator _ _ _ Hl), (split_no_separator _ _ Hr). reflexivity. }
  repeat split.
  - intros u H1 H2 H3. unfold parseQueryUses. rewrite H1, H2.
    apply orb_true_iff in H3.
    destruct (JS.hasChar "/" (JS.trim u)), (JS.hasChar "@" (JS.trim u));
      try reflexivity.
    destruct H3; discriminate.
  - intros u H. unfold addRemoteQueries.
    pose proof (split_length "@" u) as L.
    destruct (JS.split "@" u) as [|a [|b [|c l]]]; try reflexivity.
    simpl in L. injection L as L. now destruct H.
  - intros locator ref Hl Hr H. unfold addRemoteQueries. rewrite (S2 _ _ Hl Hr).
    destruct H as [H|(tok0 & tok1 & rest & E & H)].
    + now rewrite (split_no_separator _ _ H).
    + rewrite E. destruct H as [-> | ->]; [reflexivity|].
      now rewrite orb_true_r.
  - intros locator ref tok0 tok1 rest Hl Hr E H0 H1. unfold addRemoteQueries.
    rewrite (S2 _ _ Hl Hr), E.
    apply String.eqb_neq in H0, H1. rewrite H0, H1. cbn [orb].
    destruct rest; reflexivity.
Qed.

(** C5, refuted: a reference with two at signs is refused, it is not
    parsed with the text after the last at sign as its ref. *)
Lemma addRemoteQueries_two_at_signs_refused :
  parseQueryUses Sample.world ["javascript"] [] "octo/queries@v1@v2"
                 "/tmp" "/work/repo" None
  = Error (getQueryUsesInvalid None (Some "octo/queries@v1@v2")) /\
  isOk (parseQueryUses Sample.world ["javascript"] [] "octo/queries@v1@v2"
                       "/tmp" "/work/repo" None) = false /\
  isOk (checkoutExternalRepository Sample.world "octo/queries" "v2" "/tmp") = true.
Proof. repeat split. Qed.

Lemma addRemoteQueries_grammar_witness :
  addRemoteQueries Sample.world [] "octo/queries/go/ql@refs/heads/main" "/tmp" None
  = Ok [("javascript",
         {| builtin := [];
            custom := [{| searchPath := "/tmp/octo/queries/refs/heads/main";
                          customQueries :=
                            ["/tmp/octo/queries/refs/heads/main/go/ql/q.ql"] |}] |})] /\
  addRemoteQueries Sample.world [] "octo/queries" "/tmp" None
  = Error (getQueryUsesInvalid None (Some "octo/queries")) /\
  addRemoteQueries Sample.world [] "octo@v1" "/tmp" None
  = Error (getQueryUsesInvalid None (Some "octo@v1")) /\
  parseQueryUses Sample.world ["javascript"] [] " octo/queries@v1 " "/tmp" "/work/repo" None
  = addRemoteQueries Sample.world [] "octo/queries@v1" "/tmp" None.
Proof.
  destruct (addRemoteQueries_grammar Sample.world ["javascript"] [] "/tmp" "/work/repo" None)
    as (H1 & H2 & H3 & H4).
  split; [|split; [|split]].
  - change "octo/queries/go/ql@refs/heads/main"
      with ("octo/queries/go/ql" ++ "@" ++ "refs/heads/main").
    rewrite (H4 "octo/queries/go/ql" "refs/heads/main" "octo" "queries" ["go"; "ql"]);
      try reflexivity; discriminate.
  - apply H2. simpl. discriminate.
  - change "octo@v1" with ("octo" ++ "@" ++ "v1").
    apply (H3 "octo" "v1"); try reflexivity. left. reflexivity.
  - apply (H1 " octo/queries@v1 "); reflexivity.
Defined.

(* ================================================================== *)
(** * Local query paths *)

Section LocalQueries.

(** The two errors of a local path are different messages. *)
Lemma local_path_errors_differ (configFile : option string) (localPath : string) :
  getLocalPathOutsideOfRepository configFile localPath
  <> getLocalPathDoesNotExist configFile localPath.
Proof.
  unfold getLocalPathOutsideOfRepository, getLocalPathDoesNotExist,
    getConfigFilePropertyError.
  destruct configFile as [f|]; intros H;
    repeat (apply append_inv_head in H); discriminate.
Qed.

End LocalQueries.

(** C6: for a local query path whose joined target under the checkout
    root exists but whose canonical path is not under the canonical
    checkout root, [addLocalQueries] fails with the
    outside-of-the-repository error, which is not the does-not-exist
    error; a target that does not exist fails with the does-not-exist
    error. *)
Theorem addLocalQueries_escape_is_not_missing :
  forall (env : Env) (resultMap : Queries)
         (localQueryPath checkoutPath : string) (configFile : option string),
    let target := path_join env checkoutPath localQueryPath in
    (forall real root,
        existsSync env target = true ->
        realpathSync env target = Ok real ->
        realpathSync env checkoutPath = Ok root ->
        JS.startsWith (real ++ path_sep env) (root ++ path_sep env) = false ->
        addLocalQueries env resultMap localQueryPath checkoutPath configFile
        = Error (getLocalPathOutsideOfRepository configFile localQueryPath) /\
        addLocalQueries env resultMap localQueryPath checkoutPath configFile
        <> Error (getLocalPathDoesNotExist configFile localQueryPath)) /\
    (existsSync env target = false ->
     addLocalQueries env resultMap localQueryPath checkoutPath configFile
     = Error (getLocalPathDoesNotExist configFile localQueryPath)).
Proof.
  intros env rm p cp cf target. split.
  - intros real root Hx Hr Hc Hp.
    assert (E : addLocalQueries env rm p cp cf
                = Error (getLocalPathOutsideOfRepository cf p)).
    { unfold addLocalQueries. fold target. rewrite Hx, Hr, Hc. cbn [negb bind].
      rewrite Hp. reflexivity. }
    split; [exact E|]. rewrite E. intros H. injection H as H.
    exact (local_path_errors_differ cf p H).
  - intros Hx. unfold addLocalQueries. fold target. rewrite Hx. reflexivity.
Qed.

Lemma addLocalQueries_escape_is_not_missing_witness :
  addLocalQueries Sample.world [] "../outside" "/work/repo" None
  = Error (getLocalPathOutsideOfRepository None "../outside") /\
  addLocalQueries Sample.world [] "missing" "/work/repo" None
  = Error (getLocalPathDoesNotExist None "missing").
Proof.
  split.
  - destruct (addLocalQueries_escape_is_not_missing
                Sample.world [] "../outside" "/work/repo" None) as [H _].
    apply (H "/work/outside" "/work/repo"); reflexivity.
  - destruct (addLocalQueries_escape_is_not_missing
                Sample.world [] "missing" "/work/repo" None) as [_ H].
    apply H. reflexivity.
Defined.

(* ================================================================== *)
(** * The merge of the query sources *)

Section Merge.

Lemma extends_refl (q : Queries) : extends q q.
Proof.
  intros lang e H. exists e, [], []. now rewrite !app_nil_r.
Qed.

Lemma extends_trans (q1 q2 q3 : Queries) :
  extends q1 q2 -> extends q2 q3 -> extends q1 q3.
Proof.
  intros H12 H23 lang e H.
  destruct (H12 _ _ H) as (e2 & b2 & c2 & L2 & B2 & C2).
  destruct (H23 _ _ L2) as (e3 & b3 & c3 & L3 & B3 & C3).
  exists e3, (b2 ++ b3)%list, (c2 ++ c3)%list.
  rewrite B3, C3, B2, C2, !app_assoc. auto.
Qed.

Lemma pushResolved_extends (extra : option string) (q : Queries)
      (entry : string * list string) :
  extends q (pushResolved extra q entry).
Proof.
  destruct entry as [language queryPaths]. intros lang e H.
  unfold pushResolved. rewrite lookup_update.
  assert (L : lookup lang (withLanguage language q) = Some e).
  { unfold withLanguage. destruct (lookup language q); [assumption|].
    rewrite lookup_app, H. reflexivity. }
  rewrite L. destruct (language =? lang).
  - destruct extra as [sp|]; simpl; eexists; eexists; eexists;
      (split; [reflexivity|]); simpl; split;
      try reflexivity; now rewrite app_nil_r.
  - exists e, [], []. now rewrite !app_nil_r.
Qed.

Lemma fold_pushResolved_extends (extra : option string)
      (entries : list (string * list string)) (q : Queries) :
  extends q (fold_left (pushResolved extra) entries q).
Proof.
  revert q. induction entries as [|x entries IH]; intros q; simpl.
  - apply extends_refl.
  - eapply extends_trans; [apply pushResolved_extends | apply IH].
Qed.

Lemma runResolveQueries_extends (env : Env) (q q' : Queries)
      (toResolve : list string) (extra : option string) :
  runResolveQueries env q toResolve extra = Ok q' -> extends q q'.
Proof.
  unfold runResolveQueries. intros H.
  apply bind_ok_inv in H. destruct H as (out & _ & H).
  apply bind_ok_inv in H. destruct H as (u & _ & H).
  apply forEach_addResolved_ok in H. subst q'. apply fold_pushResolved_extends.
Qed.

Lemma parseQueryUses_extends (env : Env) (languages : list string)
      (q q' : Queries) (queryUses tempDir checkoutPath : string)
      (configFile : option string) :
  parseQueryUses env languages q queryUses tempDir checkoutPath configFile = Ok q' ->
  extends q q'.
Proof.
  unfold parseQueryUses.
  destruct (JS.trim queryUses =? ""); [discriminate|].
  destruct (JS.startsWith (JS.trim queryUses) "./").
  - unfold addLocalQueries.
    destruct (negb (existsSync env _)); [discriminate|]. intros H.
    apply bind_ok_inv in H. destruct H as (a & _ & H).
    apply bind_ok_inv in H. destruct H as (r & _ & H).
    destruct (negb (JS.startsWith _ _)); [discriminate|].
    eapply runResolveQueries_extends, H.
  - destruct (negb (JS.hasChar "/" (JS.trim queryUses)) &&
              negb (JS.hasChar "@" (JS.trim queryUses))).
    + unfold addBuiltinSuiteQueries.
      destruct (find _ builtinSuites); [|discriminate].
      apply runResolveQueries_extends.
    + unfold addRemoteQueries.
      destruct (JS.split "@" (JS.trim queryUses)) as [|l [|r [|x xs]]];
        try discriminate.
      destruct (JS.split "/" l) as [|t0 [|t1 rest]]; try discriminate.
      destruct ((JS.trim t0 =? "") || (JS.trim t1 =? "")); [discriminate|].
      intros H. apply bind_ok_inv in H. destruct H as (cp & _ & H).
      eapply runResolveQueries_extends, H.
Qed.

Lemma forEach_extends (A : Type) (body : Queries -> A -> result Queries) :
  (forall q x q', body q x = Ok q' -> extends q q') ->
  forall items q q', forEach body items q = Ok q' -> extends q q'.
Proof.
  intros B items. induction items as [|x items IH]; simpl; intros q q' H.
  - injection H as <-. apply extends_refl.
  - apply bind_ok_inv in H. destruct H as (q1 & H1 & H).
    eapply extends_trans; [eapply B, H1 | eapply IH, H].
Qed.

Lemma addQueriesFromWorkflow_extends (env : Env) (queriesInput : string)
      (languages : list string) (q q' : Queries) (tempDir checkoutPath : string) :
  addQueriesFromWorkflow env queriesInput languages q tempDir checkoutPath = Ok q' ->
  extends q q'.
Proof.
  unfold addQueriesFromWorkflow. apply forEach_extends.
  intros q0 x q1. apply parseQueryUses_extends.
Qed.

Lemma addConfigFileQuery_extends (env : Env) (languages : list string)
      (tempDir checkoutPath configFile : string) (q : Queries) (query : yaml)
      (q' : Queries) :
  addConfigFileQuery env languages tempDir checkoutPath configFile q query = Ok q' ->
  extends q q'.
Proof.
  unfold addConfigFileQuery. intros H.
  apply bind_ok_inv in H. destruct H as (hasUses & _ & H).
  destruct hasUses; [|discriminate].
  destruct (getProperty QUERIES_USES_PROPERTY query); try discriminate.
  eapply parseQueryUses_extends, H.
Qed.

(** The test of [shouldAddConfigFileQueries], spelled out: the config
    file's queries are left out exactly when the input is a non-empty
    string whose first character after leading white space is not a
    plus sign. *)
Lemma shouldAddConfigFileQueries_spec (queriesInput : option string) :
  shouldAddConfigFileQueries queriesInput =
  match queriesInput with
  | Some r => (r =? "") || JS.startsWith (JS.trimStart r) "+"
  | None => true
  end.
Proof.
  destruct queriesInput as [r|]; [|reflexivity].
  unfold shouldAddConfigFileQueries, truthy, JS.startsWith.
  destruct (r =? ""); [reflexivity|]. cbn [negb orb].
  destruct (JS.trimStart r) as [|a t]; [reflexivity|].
  change (substring 0 1 (String a t)) with (String a (substring 0 0 t)).
  replace (substring 0 0 t) with "" by (destruct t; reflexivity).
  change (prefix "+" (String a t))
    with (if ascii_dec "+" a then prefix "" t else false).
  destruct (ascii_dec "+" a) as [<-|N].
  - destruct t; reflexivity.
  - apply String.eqb_neq. intros H. injection H as H. now destruct N.
Qed.

(** A plus sign is not white space: an input that starts with one is
    additive. *)
Lemma startsWith_plus_additive (r : string) :
  JS.startsWith r "+" = true -> shouldAddConfigFileQueries (Some r) = true.
Proof.
  intros H. rewrite shouldAddConfigFileQueries_spec.
  destruct (prefix_inv _ _ H) as [u ->]. unfold JS.startsWith.
  change (JS.trimStart ("+" ++ u)) with ("+" ++ u).
  rewrite prefix_append. apply orb_true_r.
Qed.

End Merge.

(* ================================================================== *)
(** * The orchestrator *)

Section OrchestratorFacts.

Lemma hasProperty_false (p : string) (y : yaml) :
  hasProperty p y = Ok false -> getProperty p y = YUndefined.
Proof.
  destruct y; simpl; try discriminate; try reflexivity.
  destruct (lookup p fields); [discriminate | reflexivity].
Qed.

Lemma checkQueriesNotEmpty_ok (languages : list string) (q : Queries) :
  checkQueriesNotEmpty languages q = Ok tt ->
  forall l, In l languages -> hasQueries q l.
Proof.
  induction languages as [|x languages IH]; simpl; intros H l I; [destruct I|].
  destruct (lookup x q) as [e|] eqn:L; [|destruct (inherited x); discriminate].
  destruct (builtin e) as [|b bs] eqn:B.
  - destruct (custom e) as [|c cs] eqn:C; [discriminate|].
    destruct I as [<-|I]; [|now apply IH].
    exists e. split; [assumption|]. right. rewrite C. discriminate.
  - destruct I as [<-|I]; [|now apply IH].
    exists e. split; [assumption|]. left. rewrite B. discriminate.
Qed.

Lemma checkQueriesNotEmpty_error (languages : list string) (q : Queries) :
  (forall l, In l languages -> inherited l = false) ->
  (exists l, In l languages /\ ~ hasQueries q l) ->
  exists l, In l languages /\ ~ hasQueries q l /\
            checkQueriesNotEmpty languages q = Error (getNoQueriesError l).
Proof.
  induction languages as [|x languages IH]; intros P (l & I & N); [destruct I|].
  assert (P' : forall l, In l languages -> inherited l = false)
    by (intros l' I'; apply P; now right).
  specialize (IH P').
  simpl. rewrite (P x (or_introl eq_refl)).
  destruct (lookup x q) as [e|] eqn:L.
  - destruct (builtin e) as [|b bs] eqn:B.
    + destruct (custom e) as [|c cs] eqn:C.
      * exists x. split; [now left|]. split; [|reflexivity].
        intros (e' & L' & [H|H]); rewrite L in L'; injection L' as <-; auto.
      * destruct I as [<-|I].
        -- destruct N. exists e. split; [assumption|]. right. rewrite C. discriminate.
        -- destruct IH as (l' & I' & N' & E'); [eauto|].
           exists l'. split; [now right | now split].
    + destruct I as [<-|I].
      * destruct N. exists e. split; [assumption|]. left. rewrite B. discriminate.
      * destruct IH as (l' & I' & N' & E'); [eauto|].
        exists l'. split; [now right | now split].
  - exists x. split; [now left|]. split; [|reflexivity].
    intros (e' & L' & _). congruence.
Qed.

Variable GitHubVersion : Type.
Variable env : Env.

(** What a successful [loadConfig] did, step by step. *)
Lemma loadConfig_inv
      (languagesInput queriesInput : option string) (configFile : string)
      (repository : RepositoryNwo) (tempDir toolCacheDir checkoutPath : string)
      (gitHubVersion : GitHubVersion) (c : Config GitHubVersion) :
  loadConfig env languagesInput queriesInput configFile repository
             tempDir toolCacheDir checkoutPath gitHubVersion = Ok c ->
  let configFile' :=
    if isLocal configFile then path_resolve env checkoutPath configFile
    else configFile in
  (if isLocal configFile
   then getLocalConfig env configFile' checkoutPath
   else getRemoteConfig env configFile) = Ok (originalUserInput c) /\
  getLanguages env languagesInput repository = Ok (languages c) /\
  checkQueriesNotEmpty (languages c) (queries c) = Ok tt /\
  mergedQueries env queriesInput (originalUserInput c) (languages c)
                tempDir checkoutPath configFile' (queries c).
Proof.
  intros H cf'. unfold loadConfig in H. cbv zeta in H. fold cf' in H.
  apply bind_ok_inv in H. destruct H as (y & Hy & H).
  apply bind_ok_inv in H. destruct H as (hasName & _ & H).
  apply bind_ok_inv in H. destruct H as (u & _ & H).
  apply bind_ok_inv in H. destruct H as (langs & HL & H).
  apply bind_ok_inv in H. destruct H as (hasDisable & HD & H).
  apply bind_ok_inv in H. destruct H as (disable & HDis & H).
  apply bind_ok_inv in H. destruct H as (qD & HqD & H).
  apply bind_ok_inv in H. destruct H as (qR & HqR & H).
  apply bind_ok_inv in H. destruct H as (hasQ & HQ & H).
  apply bind_ok_inv in H. destruct H as (qC & HqC & H).
  apply bind_ok_inv in H. destruct H as (hasPI & _ & H).
  apply bind_ok_inv in H. destruct H as (pI & _ & H).
  apply bind_ok_inv in H. destruct H as (hasP & _ & H).
  apply bind_ok_inv in H. destruct H as (p & _ & H).
  apply bind_ok_inv in H. destruct H as (u' & HC & H).
  injection H as <-. cbn [originalUserInput languages queries].
  destruct u'. repeat split; try assumption.
  exists qD, qR. repeat split.
  - assert (E : configDisablesDefaults y = disable).
    { unfold configDisablesDefaults. destruct hasDisable.
      - destruct (getProperty DISABLE_DEFAULT_QUERIES_PROPERTY y); try discriminate.
        now injection HDis.
      - rewrite (hasProperty_false _ _ HD). now injection HDis. }
    rewrite E. destruct disable; simpl in HqD; [now injection HqD | assumption].
  - destruct queriesInput as [r|]; [|now injection HqR].
    unfold truthy in HqR. destruct (r =? ""); simpl in HqR;
      [now injection HqR | assumption].
  - unfold configFileQueries.
    destruct (shouldAddConfigFileQueries queriesInput).
    + destruct hasQ.
      * destruct (getProperty QUERIES_PROPERTY y); try discriminate. assumption.
      * rewrite (hasProperty_false _ _ HQ). simpl. assumption.
    + injection HQ as <-. now injection HqC.
Qed.

(** The merge has one outcome. *)
Lemma mergedQueries_functional
      (queriesInput : option string) (y : yaml) (languages : list string)
      (tempDir checkoutPath configFile : string) (q q' : Queries) :
  mergedQueries env queriesInput y languages tempDir checkoutPath configFile q ->
  mergedQueries env queriesInput y languages tempDir checkoutPath configFile q' ->
  q = q'.
Proof.
  intros (qD & qR & HD & HR & HC) (qD' & qR' & HD' & HR' & HC').
  assert (ED : qD = qD').
  { destruct (configDisablesDefaults y); congruence. }
  subst qD'.
  assert (ER : qR = qR').
  { destruct queriesInput as [r|]; [|congruence].
    destruct (r =? ""); congruence. }
  subst qR'.
  destruct (shouldAddConfigFileQueries queriesInput); congruence.
Qed.

End OrchestratorFacts.

(** C1 (as the code has it): when [loadConfig] succeeds, its query set
    is built in this order.  The default queries D come first, unless
    the config file sets [disable-default-queries] to true.  Then come
    the queries R of the run parameter, when it is a non-empty string.
    If R is a non-empty string whose first character after leading
    white space is not a plus sign, the queries C of the config file
    are skipped: the result is D (if not disabled) followed by R.  If R
    is absent, or starts with a plus sign, also after leading white
    space, the queries C of the config file are added as well.  Nothing
    that an earlier source contributed is lost. *)
Theorem loadConfig_query_precedence :
  forall (GitHubVersion : Type) (env : Env)
         (languagesInput queriesInput : option string) (configFile : string)
         (repository : RepositoryNwo) (tempDir toolCacheDir checkoutPath : string)
         (gitHubVersion : GitHubVersion) (c : Config GitHubVersion),
    loadConfig env languagesInput queriesInput configFile repository
               tempDir toolCacheDir checkoutPath gitHubVersion = Ok c ->
    let configFile' :=
      if isLocal configFile then path_resolve env checkoutPath configFile
      else configFile in
    exists qD qR : Queries,
      (if configDisablesDefaults (originalUserInput c) then qD = []
       else addDefaultQueries env (languages c) [] = Ok qD) /\
      extends qD (queries c) /\
      match queriesInput with
      | Some r =>
          if r =? "" then qR = qD
          else addQueriesFromWorkflow env r (languages c) qD tempDir checkoutPath = Ok qR
      | None => qR = qD
      end /\
      extends qR (queries c) /\
      (forall r,
          queriesInput = Some r -> r <> "" ->
          JS.startsWith (JS.trimStart r) "+" = false ->
          queries c = qR) /\
      (queriesInput = None \/
       (exists r, queriesInput = Some r /\
                  (JS.startsWith r "+" = true \/
                   JS.startsWith (JS.trimStart r) "+" = true \/
                   r = "")) ->
       forEach (addConfigFileQuery env (languages c) tempDir checkoutPath configFile')
               (configFileQueries (originalUserInput c)) qR = Ok (queries c)).
Proof.
  intros GV env li qi cf repo tmp cache cp gv c H cf'.
  destruct (loadConfig_inv _ _ _ _ _ _ _ _ _ _ _ H)
    as (_ & _ & _ & qD & qR & HD & HR & HC).
  fold cf' in HC.
  assert (XR : extends qR (queries c)).
  { destruct (shouldAddConfigFileQueries qi).
    - eapply forEach_extends, HC. intros q x q'. apply addConfigFileQuery_extends.
    - rewrite HC. apply extends_refl. }
  assert (XD : extends qD qR).
  { destruct qi as [r|]; [|rewrite HR; apply extends_refl].
    destruct (r =? ""); [rewrite HR; apply extends_refl|].
    eapply addQueriesFromWorkflow_extends, HR. }
  exists qD, qR. repeat split; try assumption.
  - eapply extends_trans; eassumption.
  - intros r -> NE NP. rewrite shouldAddConfigFileQueries_spec in HC.
    apply String.eqb_neq in NE. now rewrite NE, NP in HC.
  - intros [->|(r & -> & [P|[P| ->]])].
    + exact HC.
    + now rewrite (startsWith_plus_additive _ P) in HC.
    + rewrite shouldAddConfigFileQueries_spec, P, orb_true_r in HC. exact HC.
    + exact HC.
Qed.

(** C1, refuted: a run parameter that is present and does not start
    with a plus sign, but with a blank and then a plus sign, does not
    make [loadConfig] skip the queries of the config file: the result
    has more than D and R, it has the local queries of the config
    file. *)
Lemma loadConfig_blank_plus_keeps_config_queries :
  exists (c : Config unit) (qD qR : Queries) (e : LanguageQueries),
    JS.startsWith " +octo/queries@v1" "+" = false /\
    loadConfig Sample.world (Some "javascript") (Some " +octo/queries@v1") "config.yml"
               Sample.repository "/tmp" "/cache" "/work/repo" tt = Ok c /\
    addDefaultQueries Sample.world ["javascript"] [] = Ok qD /\
    addQueriesFromWorkflow Sample.world " +octo/queries@v1" ["javascript"] qD
                           "/tmp" "/work/repo" = Ok qR /\
    queries c <> qR /\
    lookup "javascript" (queries c) = Some e /\
    In {| searchPath := "/work/repo";
          customQueries := ["/work/repo/queries/q.ql"] |} (custom e).
Proof.
  eexists. eexists. eexists. eexists.
  split; [reflexivity|]. split; [vm_compute; reflexivity|].
  split; [vm_compute; reflexivity|]. split; [vm_compute; reflexivity|].
  split; [discriminate|]. split; [reflexivity|]. simpl. auto.
Qed.

Lemma loadConfig_query_precedence_witness :
  exists (c : Config unit) (qD qR : Queries),
    loadConfig Sample.world (Some "javascript") (Some "octo/queries@v1") "config.yml"
               Sample.repository "/tmp" "/cache" "/work/repo" tt = Ok c /\
    addDefaultQueries Sample.world ["javascript"] [] = Ok qD /\
    addQueriesFromWorkflow Sample.world "octo/queries@v1" ["javascript"] qD
                           "/tmp" "/work/repo" = Ok qR /\
    queries c = qR.
Proof.
  pose proof (loadConfig_query_precedence unit Sample.world
                (Some "javascript") (Some "octo/queries@v1") "config.yml"
                Sample.repository "/tmp" "/cache" "/work/repo" tt) as P.
  destruct (loadConfig Sample.world (Some "javascript") (Some "octo/queries@v1")
                       "config.yml" Sample.repository "/tmp" "/cache" "/work/repo" tt)
    as [c|e] eqn:E; [|vm_compute in E; discriminate].
  destruct (P c eq_refl) as (qD & qR & HD & _ & HR & _ & Skip & _).
  vm_compute in E. injection E as <-.
  eexists. exists qD, qR. split; [reflexivity|]. split; [exact HD|]. split; [exact HR|].
  apply (Skip "octo/queries@v1"); [reflexivity | discriminate | reflexivity].
Defined.

(** C2, refuted: without a config file, [initConfig] returns and stores
    a configuration in which the language has no query at all, when the
    resolver finds none. *)
Lemma initConfig_default_path_keeps_empty_language :
  exists c : Config unit,
    initConfig Sample.emptyWorld (Some "javascript") None None
               Sample.repository "/tmp" "/cache" "/work/repo" tt []
    = (Ok c, [("/tmp/config", c)]) /\
    languages c = ["javascript"] /\
    lookup "javascript" (queries c) = None /\
    ~ hasQueries (queries c) "javascript".
Proof.
  eexists. split; [vm_compute; reflexivity|]. split; [reflexivity|].
  split; [reflexivity|]. intros (e & L & _). discriminate.
Qed.

(** C2 (as the code has it): on the path of a config file, when after
    all query sources are merged some resolved language has no entry in
    the result map, or an entry with no builtin query and no custom
    group, the run fails and nothing is stored; when no language is a
    name that every object inherits, the check that enforces it fails
    with the no-queries error for the first such language.  So a run
    that succeeds has, for every resolved language, a builtin query or
    a custom group, and only then is the configuration stored; a run
    that fails stores nothing.  The test counts the custom groups, not
    the query files they list.  The path without a config file has no
    such check. *)
Theorem initConfig_config_file_languages_have_queries :
  forall (GitHubVersion : Type) (env : Env)
         (languagesInput queriesInput : option string) (configFile : string)
         (repository : RepositoryNwo) (tempDir toolCacheDir checkoutPath : string)
         (gitHubVersion : GitHubVersion) (store : Store GitHubVersion),
    configFile <> "" ->
    let configFile' :=
      if isLocal configFile then path_resolve env checkoutPath configFile
      else configFile in
    let run := initConfig env languagesInput queriesInput (Some configFile)
                          repository tempDir toolCacheDir checkoutPath
                          gitHubVersion store in
    (forall c, fst run = Ok c ->
               (forall l, In l (languages c) -> hasQueries (queries c) l) /\
               snd run = saveConfig env c store) /\
    (forall e, fst run = Error e -> snd run = store) /\
    (forall y langs q,
        (if isLocal configFile
         then getLocalConfig env configFile' checkoutPath
         else getRemoteConfig env configFile) = Ok y ->
        getLanguages env languagesInput repository = Ok langs ->
        mergedQueries env queriesInput y langs tempDir checkoutPath configFile' q ->
        (exists l, In l langs /\ ~ hasQueries q l) ->
        (exists e, run = (Error e, store)) /\
        ((forall l, In l langs -> inherited l = false) ->
         exists l, In l langs /\ ~ hasQueries q l /\
                   checkQueriesNotEmpty langs q = Error (getNoQueriesError l))).
Proof.
  intros GV env li qi cf repo tmp cache cp gv store NE cf' run.
  assert (R : run = match loadConfig env li qi cf repo tmp cache cp gv with
                    | Ok c => (Ok c, saveConfig env c store)
                    | Error e => (Error e, store)
                    end).
  { unfold run, initConfig, truthy. apply String.eqb_neq in NE. now rewrite NE. }
  rewrite R. clear R run.
  destruct (loadConfig env li qi cf repo tmp cache cp gv) as [c0|e0] eqn:E.
  - destruct (loadConfig_inv _ _ _ _ _ _ _ _ _ _ _ E) as (Hy & HL & HC & HM).
    fold cf' in Hy, HM. split; [|split].
    + intros c H. injection H as <-. split; [|reflexivity].
      intros l I. eapply checkQueriesNotEmpty_ok; eassumption.
    + discriminate.
    + intros y langs q Hy' HL' HM' (l & I & N).
      rewrite Hy in Hy'. injection Hy' as <-.
      rewrite HL in HL'. injection HL' as <-.
      rewrite (mergedQueries_functional _ _ _ _ _ _ _ _ _ HM' HM) in N.
      destruct N. eapply checkQueriesNotEmpty_ok; eassumption.
  - split; [|split].
    + discriminate.
    + reflexivity.
    + intros y langs q _ _ _ X. split; [eauto|].
      intros P. now apply checkQueriesNotEmpty_error.
Qed.

Lemma initConfig_config_file_languages_have_queries_witness :
  (exists c : Config unit,
     fst (initConfig Sample.world (Some "javascript") None (Some "config.yml")
                     Sample.repository "/tmp" "/cache" "/work/repo" tt []) = Ok c /\
     hasQueries (queries c) "javascript") /\
  initConfig Sample.emptyWorld (Some "javascript") None (Some "config.yml")
             Sample.repository "/tmp" "/cache" "/work/repo" tt []
  = (Error (getNoQueriesError "javascript"), []) /\
  (exists e,
      initConfig Sample.emptyWorld (Some "javascript") None (Some "config.yml")
                 Sample.repository "/tmp" "/cache" "/work/repo" tt []
      = (Error e, [])).
Proof.
  split; [|split].
  - destruct (initConfig_config_file_languages_have_queries
                unit Sample.world (Some "javascript") None "config.yml"
                Sample.repository "/tmp" "/cache" "/work/repo" tt [])
      as (H & _ & _); [discriminate|].
    eexists. split; [vm_compute; reflexivity|].
    apply (H _ eq_refl). simpl. auto.
  - destruct (initConfig_config_file_languages_have_queries
                unit Sample.emptyWorld (Some "javascript") None "config.yml"
                Sample.repository "/tmp" "/cache" "/work/repo" tt [])
      as (_ & H & _); [discriminate|].
    pose proof (H (getNoQueriesError "javascript") eq_refl) as S.
    apply injective_projections; [reflexivity | exact S].
  - destruct (initConfig_config_file_languages_have_queries
                unit Sample.emptyWorld (Some "javascript") None "config.yml"
                Sample.repository "/tmp" "/cache" "/work/repo" tt [])
      as (_ & _ & H); [discriminate|].
    destruct (H Sample.configYaml ["javascript"] []) as [F _].
    + reflexivity.
    + reflexivity.
    + exists [], []. repeat split.
    + exists "javascript". split; [now left|].
      intros (e & L & _). discriminate.
    + exact F.
Defined.

(** The test of the last loop counts custom groups: where the resolver
    lists the language of a local query directory without any query
    file, the language gets a custom group that lists nothing, the test
    passes, and [initConfig] returns and stores a configuration in
    which the language has no query file. *)
Lemma initConfig_accepts_empty_custom_group :
  exists c : Config unit,
    initConfig SampleMore.hollowWorld (Some "javascript") None (Some "config.yml")
               Sample.repository "/tmp" "/cache" "/work/repo" tt []
    = (Ok c, [("/tmp/config", c)]) /\
    languages c = ["javascript"] /\
    lookup "javascript" (queries c)
    = Some {| builtin := [];
              custom := [{| searchPath := "/work/repo"; customQueries := [] |}] |} /\
    hasQueries (queries c) "javascript" /\
    queryFiles (queries c) "javascript" = [].
Proof.
  eexists. split; [vm_compute; reflexivity|]. split; [reflexivity|].
  split; [reflexivity|]. split; [|reflexivity].
  eexists. split; [reflexivity|]. right. discriminate.
Qed.

(* ================================================================== *)
(** * Local and remote config files *)

Section ConfigSource.

(** [loadConfig] fails as soon as reading the config file fails. *)
Lemma loadConfig_source_error (GitHubVersion : Type) (env : Env)
      (languagesInput queriesInput : option string) (configFile : string)
      (repository : RepositoryNwo) (tempDir toolCacheDir checkoutPath : string)
      (gitHubVersion : GitHubVersion) (e : string) :
  (if isLocal configFile
   then getLocalConfig env (path_resolve env checkoutPath configFile) checkoutPath
   else getRemoteConfig env configFile) = Error e ->
  loadConfig env languagesInput queriesInput configFile repository
             tempDir toolCacheDir checkoutPath gitHubVersion = Error e.
Proof.
  intros H. unfold loadConfig. cbv zeta.
  destruct (isLocal configFile); rewrite H; reflexivity.
Qed.

(** The check of [getLocalConfig] compares the texts of the two paths
    as they are given; it does not consult [realpathSync]. *)
Lemma getLocalConfig_textual (env : Env) (configFile checkoutPath : string) :
  getLocalConfig env configFile checkoutPath =
  if JS.startsWith (configFile ++ path_sep env) (checkoutPath ++ path_sep env)
  then if existsSync env configFile
       then loadYamlFile env configFile
       else Error (getConfigFileDoesNotExistErrorMessage configFile)
  else Error (getConfigFileOutsideWorkspaceErrorMessage configFile).
Proof.
  unfold getLocalConfig.
  destruct (JS.startsWith _ _); [|reflexivity].
  destruct (existsSync env configFile); reflexivity.
Qed.

End ConfigSource.

(** C10: a config-file reference without an at sign is local, also when
    it does not start with "./": it is resolved against the checkout
    root and read from the file system, and the repository API plays no
    part in the outcome.  Only a reference that contains an at sign and
    does not start with "./" is fetched as a remote config. *)
Theorem isLocal_without_at_sign :
  forall (configFile : string),
    (JS.hasChar "@" configFile = false -> isLocal configFile = true) /\
    (isLocal configFile = false <->
     JS.hasChar "@" configFile = true /\ JS.startsWith configFile "./" = false) /\
    forall (GitHubVersion : Type) (env : Env)
           (languagesInput queriesInput : option string)
           (repository : RepositoryNwo) (tempDir toolCacheDir checkoutPath : string)
           (gitHubVersion : GitHubVersion),
      let run env :=
        loadConfig env languagesInput queriesInput configFile repository
                   tempDir toolCacheDir checkoutPath gitHubVersion in
      (isLocal configFile = true ->
       (forall g, run (withGetContent env g) = run env) /\
       (forall c, run env = Ok c ->
                  getLocalConfig env (path_resolve env checkoutPath configFile)
                                 checkoutPath = Ok (originalUserInput c)) /\
       (forall e, getLocalConfig env (path_resolve env checkoutPath configFile)
                                 checkoutPath = Error e ->
                  run env = Error e)) /\
      (isLocal configFile = false ->
       (forall c, run env = Ok c ->
                  getRemoteConfig env configFile = Ok (originalUserInput c)) /\
       (forall e, getRemoteConfig env configFile = Error e -> run env = Error e)).
Proof.
  intros cf. split; [|split].
  - unfold isLocal. intros ->. now destruct (JS.startsWith cf "./").
  - unfold isLocal. destruct (JS.startsWith cf "./"), (JS.hasChar "@" cf);
      simpl; intuition discriminate.
  - intros GV env li qi repo tmp cache cp gv run. split; intros L.
    + split; [|split].
      * intros g. unfold run, loadConfig. rewrite L. reflexivity.
      * intros c H. apply loadConfig_inv in H. rewrite L in H. apply H.
      * intros e H. apply loadConfig_source_error. now rewrite L.
    + split.
      * intros c H. apply loadConfig_inv in H. rewrite L in H. apply H.
      * intros e H. apply loadConfig_source_error. now rewrite L.
Qed.

Lemma isLocal_without_at_sign_witness :
  isLocal "octo/conf/config.yml" = true /\
  loadConfig Sample.world (Some "javascript") None "octo/conf/config.yml"
             Sample.repository "/tmp" "/cache" "/work/repo" tt
  = Error (getConfigFileDoesNotExistErrorMessage "/work/repo/octo/conf/config.yml") /\
  isLocal "octo/conf/codeql.yml@main" = false /\
  getRemoteConfig Sample.world "octo/conf/codeql.yml@main" = Ok (YObject []).
Proof.
  destruct (isLocal_without_at_sign "octo/conf/config.yml") as (H1 & _ & H3).
  destruct (isLocal_without_at_sign "octo/conf/codeql.yml@main") as (_ & H2 & H4).
  split; [apply H1; reflexivity|]. split.
  - destruct (H3 unit Sample.world (Some "javascript") None Sample.repository
                 "/tmp" "/cache" "/work/repo" tt) as [HL _].
    apply (HL (H1 eq_refl)). reflexivity.
  - assert (R : isLocal "octo/conf/codeql.yml@main" = false).
    { apply H2. split; reflexivity. }
    split; [exact R|].
    destruct (H4 unit Sample.world (Some "javascript") None Sample.repository
                 "/tmp" "/cache" "/work/repo" tt) as [_ HR].
    destruct (HR R) as [HC _].
    rewrite (HC _ eq_refl). reflexivity.
Defined.

(** C4, the code at a symbolic link: [getLocalConfig] compares the
    texts of the resolved path and of the checkout path and never asks
    for a canonical path ([getLocalConfig_textual]).  The config file
    [link.yml] lies in the checkout and points to a file outside of it:
    its canonical path is not under the canonical checkout root, and
    yet [getLocalConfig] reads it and [loadConfig] succeeds, while
    [addLocalQueries] refuses the same link as a query path. *)
Lemma getLocalConfig_follows_symlink_out_of_checkout :
  path_resolve Sample.world "/work/repo" "link.yml" = "/work/repo/link.yml" /\
  realpathSync Sample.world "/work/repo/link.yml" = Ok "/outside/secret.yml" /\
  realpathSync Sample.world "/work/repo" = Ok "/work/repo" /\
  JS.startsWith ("/outside/secret.yml" ++ path_sep Sample.world)
                ("/work/repo" ++ path_sep Sample.world) = false /\
  getLocalConfig Sample.world "/work/repo/link.yml" "/work/repo"
  = Ok (YObject [("disable-default-queries", YBool false)]) /\
  isOk (loadConfig Sample.world (Some "javascript") None "link.yml"
                   Sample.repository "/tmp" "/cache" "/work/repo" tt) = true /\
  addLocalQueries Sample.world [] "link.yml" "/work/repo" None
  = Error (getLocalPathOutsideOfRepository None "link.yml").
Proof. repeat split. Qed.

(* ================================================================== *)
(** * Checks on sample inputs *)

Section Samples.

Example validate_root_only :
  isOk (snd (validateAndSanitisePath "/**" "paths" "codeql-config.yml")) = false.
Proof. reflexivity. Qed.

Example validate_stars_inside_segment :
  isOk (snd (validateAndSanitisePath "foo/**bar" "paths" "codeql-config.yml")) = false.
Proof. reflexivity. Qed.

Example validate_stars_between_slashes :
  snd (validateAndSanitisePath "foo/**/bar" "paths" "codeql-config.yml")
  = Ok "foo/**/bar".
Proof. reflexivity. Qed.

Example validate_backslash :
  isOk (snd (validateAndSanitisePath (String JS.backslash "foo") "paths"
                                     "codeql-config.yml")) = false.
Proof. reflexivity. Qed.

Example validate_warns_and_accepts :
  List.length (fst (validateAndSanitisePath "a?b" "paths" "codeql-config.yml")) = 1 /\
  snd (validateAndSanitisePath "a?b" "paths" "codeql-config.yml") = Ok "a?b".
Proof. split; reflexivity. Qed.

Example uses_local :
  parseQueryUses Sample.world ["javascript"] [] "./queries" "/tmp" "/work/repo" None
  = addLocalQueries Sample.world [] "queries" "/work/repo" None.
Proof. reflexivity. Qed.

Example uses_builtin_suite :
  parseQueryUses Sample.world ["javascript"] [] "security-extended"
                 "/tmp" "/work/repo" None
  = runResolveQueries Sample.world [] ["javascript-security-extended.qls"] None.
Proof. reflexivity. Qed.

Example uses_unknown_suite :
  parseQueryUses Sample.world ["javascript"] [] "a" "/tmp" "/work/repo" None
  = Error (getQueryUsesInvalid None (Some "a")).
Proof. reflexivity. Qed.

Example uses_empty :
  parseQueryUses Sample.world ["javascript"] [] "" "/tmp" "/work/repo" None
  = Error (getQueryUsesInvalid None None).
Proof. reflexivity. Qed.

Example uses_empty_owner :
  parseQueryUses Sample.world ["javascript"] [] "/b@v1" "/tmp" "/work/repo" None
  = Error (getQueryUsesInvalid None (Some "/b@v1")).
Proof. reflexivity. Qed.

Example remote_config_pieces :
  exec remoteConfigFormat "octo/conf/dir/codeql.yml@refs/heads/main"
  = Some [("ref", "refs/heads/main"); ("path", "dir/codeql.yml");
          ("repo", "conf"); ("owner", "octo")].
Proof. reflexivity. Qed.

Example additive_input_adds_config_queries :
  option_map (fun e => List.length (custom e))
    (match loadConfig Sample.world (Some "javascript") (Some "+octo/queries@v1")
                      "config.yml" Sample.repository "/tmp" "/cache" "/work/repo" tt
     with
     | Ok c => lookup "javascript" (queries c)
     | Error _ => None
     end) = Some 2.
Proof. reflexivity. Qed.

End Samples.

(* ================================================================== *)
(** * More on the path filter validator *)

Section PathFilterShape.

Lemma stripLeadingSlashes_split (p : string) :
  exists slashes,
    onlySlashes slashes = true /\ p = slashes ++ stripLeadingSlashes p.
Proof.
  induction p as [|a p IH].
  - exists "". split; reflexivity.
  - destruct (Ascii.eqb_spec a "/") as [->|N].
    + destruct IH as (sl & O & E). exists (String "/" sl). split.
      * simpl. exact O.
      * simpl. now rewrite <- E.
    + exists "". split; [reflexivity|].
      now rewrite (stripLeadingSlashes_id (String a p))
        by (intros t H; injection H as H _; now destruct N).
Qed.

Lemma stripTrailingStars_cases (n : string) :
  (JS.endsWith n "/**" = false /\ stripTrailingStars n = n) \/
  (exists u, n = u ++ "/**" /\ stripTrailingStars n = u ++ "/").
Proof.
  destruct (JS.endsWith n "/**") eqn:E.
  - right. destruct (endsWith_inv _ _ E) as [u ->]. exists u.
    split; [reflexivity | apply stripTrailingStars_append].
  - left. split; [reflexivity|]. unfold stripTrailingStars. now rewrite E.
Qed.

Lemma hasChar_split (c : ascii) (s : string) :
  JS.hasChar c s = true <-> exists u v, s = u ++ String c v.
Proof.
  split.
  - induction s as [|a s IH]; simpl; [discriminate|].
    destruct (Ascii.eqb_spec a c) as [->|N]; simpl.
    + intros _. exists "", s. reflexivity.
    + intros H. destruct (IH H) as (u & v & ->). exists (String a u), v. reflexivity.
  - intros (u & v & ->). induction u as [|a u IH]; simpl.
    + now rewrite Ascii.eqb_refl.
    + rewrite IH. apply orb_true_r.
Qed.

(** The pattern of the unsupported characters finds exactly the strings
    that hold one of them. *)
Lemma filterPatternCharactersRegex_spec (s : string) :
  matches filterPatternCharactersRegex s = true <->
  hasAnyChar filterPatternCharacters s = true.
Proof.
  unfold hasAnyChar. rewrite existsb_exists. split.
  - unfold matches.
    destruct (exec filterPatternCharactersRegex s) as [c|] eqn:E; [|discriminate].
    intros _. destruct (exec_sound _ _ _ E) as (w & t & -> & M).
    simpl in M. apply star_sound in M. destruct M as (x & t' & -> & M).
    destruct t' as [|a t1]; [discriminate|].
    match type of M with
    | (if ?b then _ else _) = _ => destruct b eqn:C; [|discriminate]
    end.
    change (existsb (Ascii.eqb a) ["?"; "+"; "["; "]"; "!"]%char = true) in C.
    apply existsb_exists in C. destruct C as (c0 & I & Ec).
    apply Ascii.eqb_eq in Ec. subst c0. exists a. split; [exact I|].
    apply hasChar_split. exists (w ++ x), t1. now rewrite append_assoc.
  - intros (c & I & H). apply hasChar_split in H. destruct H as (u & v & ->).
    destruct (star_complete dot v (fun _ => Some []) [] eq_refl) as [c1 H1].
    destruct (star_complete dot (String c v)
                (fun s' => rmatch
                   (RSeq (RChar (fun a => existsb (Ascii.eqb a)
                                            ["?"; "+"; "["; "]"; "!"]%char))
                         (RStar dot))
                   s' [] (fun _ c => Some c)) c1) as [c2 H2].
    { simpl.
      assert (C : existsb (Ascii.eqb c) ["?"; "+"; "["; "]"; "!"]%char = true).
      { apply existsb_exists. exists c. split; [exact I | apply Ascii.eqb_refl]. }
      simpl in C. rewrite C. unfold captures in *. exact H1. }
    apply (matches_at filterPatternCharactersRegex u (String c v) c2). exact H2.
Qed.

End PathFilterShape.

(** X1: a path filter that [validateAndSanitisePath] returns is not
    empty, does not start with a slash, holds no backslash, and has no
    two stars that end it, that are followed by a character other than
    a slash, or that come after a character other than a slash (two
    stars at its very start with a slash after them are kept); it is
    the input without its leading slashes and, when the input ends with
    a slash and two stars, without these two stars. *)
Theorem validateAndSanitisePath_result_shape :
  forall (p propertyName configFile q : string),
    snd (validateAndSanitisePath p propertyName configFile) = Ok q ->
    q <> "" /\
    (forall t, q <> String "/" t) /\
    JS.hasChar JS.backslash q = false /\
    ~ badStars q /\
    exists slashes,
      onlySlashes slashes = true /\
      (p = slashes ++ q \/
       (p = slashes ++ q ++ "**" /\ JS.endsWith q "/" = true)).
Proof.
  intros p prop cf q H.
  destruct (validateAndSanitisePath_ok _ _ _ _ H) as (Eq & H1 & H2 & H3).
  split; [now apply String.eqb_neq|]. split.
  { rewrite Eq. apply stripTrailingStars_no_slash.
    intros t. apply stripLeadingSlashes_no_slash. }
  split; [exact H3|]. split.
  { intros B. apply pathStarsRegex_spec in B. congruence. }
  destruct (stripLeadingSlashes_split p) as (sl & O & E).
  exists sl. split; [exact O|].
  destruct (stripTrailingStars_cases (stripLeadingSlashes p))
    as [[_ S]|(u & Eu & S)].
  - left. rewrite Eq, S. exact E.
  - right. rewrite Eq, S. split.
    + rewrite E at 1. rewrite Eu, append_assoc. reflexivity.
    + apply endsWith_append.
Qed.

Lemma validateAndSanitisePath_result_shape_witness :
  exists slashes,
    onlySlashes slashes = true /\
    ("//src/**" = slashes ++ "src/" \/
     ("//src/**" = slashes ++ "src/" ++ "**" /\ JS.endsWith "src/" "/" = true)).
Proof.
  apply (validateAndSanitisePath_result_shape
           "//src/**" "paths" "codeql-config.yml" "src/" eq_refl).
Defined.

(** X2: [validateAndSanitisePath] accepts exactly the paths whose normal
    form (leading slashes stripped, trailing stars after a slash
    dropped) is not empty, has no two stars outside of slashes and has
    no backslash; two stars at the very end are refused, two stars at
    the start followed by a slash are accepted. *)
Theorem validateAndSanitisePath_accepts :
  forall (p propertyName configFile : string),
    isOk (snd (validateAndSanitisePath p propertyName configFile)) = true <->
    stripTrailingStars (stripLeadingSlashes p) <> "" /\
    ~ badStars (stripTrailingStars (stripLeadingSlashes p)) /\
    JS.hasChar JS.backslash (stripTrailingStars (stripLeadingSlashes p)) = false.
Proof.
  intros p prop cf. unfold validateAndSanitisePath.
  set (n := stripTrailingStars (stripLeadingSlashes p)).
  destruct (String.eqb_spec n "") as [E|E].
  - cbn [snd isOk]. split; [discriminate | intros (N & _); now destruct N].
  - destruct (matches pathStarsRegex n) eqn:M.
    + cbn [snd isOk]. split; [discriminate|]. intros (_ & B & _).
      destruct B. now apply pathStarsRegex_spec.
    + destruct (JS.hasChar JS.backslash n) eqn:B; cbn [snd isOk].
      * split; [discriminate | intros (_ & _ & X); discriminate].
      * split; [|reflexivity]. intros _. repeat split; [assumption|].
        intros X. apply pathStarsRegex_spec in X. congruence.
Qed.

(** X3: [validateAndSanitisePath] sends a warning to the logger exactly
    when the normal form of the path is not empty, has no two stars
    outside of slashes and holds one of the characters ?, +, [, ], !;
    it sends at most one. *)
Theorem validateAndSanitisePath_warns :
  forall (p propertyName configFile : string),
    (fst (validateAndSanitisePath p propertyName configFile) <> [] <->
     stripTrailingStars (stripLeadingSlashes p) <> "" /\
     ~ badStars (stripTrailingStars (stripLeadingSlashes p)) /\
     hasAnyChar filterPatternCharacters
                (stripTrailingStars (stripLeadingSlashes p)) = true) /\
    List.length (fst (validateAndSanitisePath p propertyName configFile)) <= 1.
Proof.
  intros p prop cf. unfold validateAndSanitisePath.
  set (n := stripTrailingStars (stripLeadingSlashes p)).
  destruct (String.eqb_spec n "") as [E|E].
  - cbn [fst]. split; [|simpl; lia].
    split; [intros X; now destruct X | intros (N & _); now destruct N].
  - destruct (matches pathStarsRegex n) eqn:M.
    + cbn [fst]. split; [|simpl; lia].
      split; [intros X; now destruct X|]. intros (_ & B & _).
      destruct B. now apply pathStarsRegex_spec.
    + assert (NB : ~ badStars n).
      { intros X. apply pathStarsRegex_spec in X. congruence. }
      destruct (matches filterPatternCharactersRegex n) eqn:F.
      * apply filterPatternCharactersRegex_spec in F.
        destruct (JS.hasChar JS.backslash n); cbn [fst];
          (split; [split; [auto | discriminate] | simpl; lia]).
      * assert (NF : hasAnyChar filterPatternCharacters n <> true).
        { intros X. apply filterPatternCharactersRegex_spec in X. congruence. }
        destruct (JS.hasChar JS.backslash n); cbn [fst];
          (split; [split; [intros X; now destruct X
                          | intros (_ & _ & X); now destruct NF]
                  | simpl; lia]).
Qed.

(* ================================================================== *)
(** * The effect of one resolution on the result map *)

Section ResolutionEffect.

Lemma lookup_withLanguage (l k : string) (m : Queries) :
  lookup k (withLanguage l m) =
  match lookup k m with
  | Some e => Some e
  | None => if l =? k then Some emptyLanguageQueries else None
  end.
Proof.
  unfold withLanguage. destruct (lookup l m) as [e|] eqn:L.
  - destruct (lookup k m) as [e'|] eqn:K; [reflexivity|].
    destruct (String.eqb_spec l k) as [->|N]; [congruence | reflexivity].
  - rewrite lookup_app. destruct (lookup k m); [reflexivity|].
    simpl. reflexivity.
Qed.

Lemma builtinOf_pushResolved (extra : option string) (m : Queries)
      (entry : string * list string) (lang : string) :
  builtinOf (pushResolved extra m entry) lang =
  match extra with
  | None =>
      (builtinOf m lang ++
       (if fst entry =? lang
        then filter (fun q => negb (isDisabled lang q)) (snd entry)
        else []))%list
  | Some _ => builtinOf m lang
  end.
Proof.
  destruct entry as [l qs]. unfold builtinOf, pushResolved. cbn [fst snd].
  rewrite lookup_update, lookup_withLanguage.
  destruct (String.eqb_spec l lang) as [->|N].
  - destruct (lookup lang m) as [e|]; destruct extra; simpl; reflexivity.
  - destruct (lookup lang m) as [e|]; destruct extra; simpl;
      now rewrite ?app_nil_r.
Qed.

Lemma customOf_pushResolved (extra : option string) (m : Queries)
      (entry : string * list string) (lang : string) :
  customOf (pushResolved extra m entry) lang =
  match extra with
  | None => customOf m lang
  | Some sp =>
      (customOf m lang ++
       (if fst entry =? lang
        then [{| searchPath := sp;
                 customQueries :=
                   filter (fun q => negb (isDisabled lang q)) (snd entry) |}]
        else []))%list
  end.
Proof.
  destruct entry as [l qs]. unfold customOf, pushResolved. cbn [fst snd].
  rewrite lookup_update, lookup_withLanguage.
  destruct (String.eqb_spec l lang) as [->|N].
  - destruct (lookup lang m) as [e|]; destruct extra; simpl; reflexivity.
  - destruct (lookup lang m) as [e|]; destruct extra; simpl;
      now rewrite ?app_nil_r.
Qed.

Lemma builtinOf_fold (entries : list (string * list string)) (m : Queries)
      (lang : string) :
  builtinOf (fold_left (pushResolved None) entries m) lang =
  (builtinOf m lang ++
   List.concat
     (flat_map (fun entry : string * list string =>
                  if fst entry =? lang
                  then [filter (fun q => negb (isDisabled lang q)) (snd entry)]
                  else [])
               entries))%list.
Proof.
  revert m. induction entries as [|x entries IH]; intros m; simpl.
  - now rewrite app_nil_r.
  - rewrite IH, builtinOf_pushResolved, <- app_assoc.
    destruct (fst x =? lang); simpl; rewrite ?app_nil_r; reflexivity.
Qed.

Lemma builtinOf_fold_custom (sp : string) (entries : list (string * list string))
      (m : Queries) (lang : string) :
  builtinOf (fold_left (pushResolved (Some sp)) entries m) lang = builtinOf m lang.
Proof.
  revert m. induction entries as [|x entries IH]; intros m; simpl; [reflexivity|].
  now rewrite IH, builtinOf_pushResolved.
Qed.

Lemma customOf_fold_builtin (entries : list (string * list string))
      (m : Queries) (lang : string) :
  customOf (fold_left (pushResolved None) entries m) lang = customOf m lang.
Proof.
  revert m. induction entries as [|x entries IH]; intros m; simpl; [reflexivity|].
  now rewrite IH, customOf_pushResolved.
Qed.

Lemma customOf_fold (sp : string) (entries : list (string * list string))
      (m : Queries) (lang : string) :
  customOf (fold_left (pushResolved (Some sp)) entries m) lang =
  (customOf m lang ++
   map (fun qs => {| searchPath := sp; customQueries := qs |})
       (flat_map (fun entry : string * list string =>
                    if fst entry =? lang
                    then [filter (fun q => negb (isDisabled lang q)) (snd entry)]
                    else [])
                 entries))%list.
Proof.
  revert m. induction entries as [|x entries IH]; intros m; simpl.
  - now rewrite app_nil_r.
  - rewrite IH, customOf_pushResolved, <- app_assoc, map_app.
    destruct (fst x =? lang); simpl; reflexivity.
Qed.

Lemma lookup_fold_pushResolved (extra : option string)
      (entries : list (string * list string)) (m : Queries) (lang : string) :
  lookup lang (fold_left (pushResolved extra) entries m) = None <->
  lookup lang m = None /\ ~ In lang (map fst entries).
Proof.
  revert m. induction entries as [|[l qs] entries IH]; intros m; simpl.
  - tauto.
  - rewrite IH. unfold pushResolved. rewrite lookup_update, lookup_withLanguage.
    destruct (String.eqb_spec l lang) as [->|N].
    + destruct (lookup lang m); simpl; split;
        try (intros [X _]; discriminate); intros [_ X]; destruct X; auto.
    + destruct (lookup lang m); simpl; split; try (intros [X _]; discriminate);
        intros [X Y]; split; auto; intros [Z|Z]; auto.
Qed.

Lemma runResolveQueries_inv (env : Env) (m m' : Queries)
      (toResolve : list string) (extra : option string) :
  runResolveQueries env m toResolve extra = Ok m' ->
  exists out,
    resolveQueries env toResolve extra = Ok out /\
    (extra <> None ->
     noDeclaredLanguage out = [] /\ multipleDeclaredLanguages out = []) /\
    m' = fold_left (pushResolved extra) (byLanguage out) m.
Proof.
  unfold runResolveQueries. intros H.
  apply bind_ok_inv in H. destruct H as (out & R & H).
  apply bind_ok_inv in H. destruct H as (u & V & H).
  apply forEach_addResolved_ok in H. subst m'.
  exists out. split; [exact R|]. split; [|reflexivity].
  intros N. destruct extra as [sp|]; [|now destruct N].
  unfold validateQueries in V.
  destruct (noDeclaredLanguage out); [|discriminate].
  destruct (multipleDeclaredLanguages out); [auto | discriminate].
Qed.

End ResolutionEffect.

(** X4: the exact effect of a successful [runResolveQueries].  Without
    a search path the files that the resolver lists for a language,
    less the disabled ones, are appended to the builtin queries of the
    language, and the custom groups stay as they are.  With a search
    path the builtin queries stay as they are and every entry of the
    resolver for the language becomes one new custom group of its own,
    with this search path, after the groups already there; the two
    buckets of the resolver are empty. *)
Theorem runResolveQueries_effect :
  forall (env : Env) (m m' : Queries) (toResolve : list string)
         (extraSearchPath : option string),
    runResolveQueries env m toResolve extraSearchPath = Ok m' ->
    exists out,
      resolveQueries env toResolve extraSearchPath = Ok out /\
      forall lang,
        match extraSearchPath with
        | None =>
            builtinOf m' lang
            = (builtinOf m lang ++ List.concat (resolvedFor out lang))%list /\
            customOf m' lang = customOf m lang
        | Some sp =>
            builtinOf m' lang = builtinOf m lang /\
            customOf m' lang
            = (customOf m lang ++
               map (fun qs => {| searchPath := sp; customQueries := qs |})
                   (resolvedFor out lang))%list /\
            noDeclaredLanguage out = [] /\
            multipleDeclaredLanguages out = []
        end.
Proof.
  intros env m m' toResolve extra H.
  destruct (runResolveQueries_inv _ _ _ _ _ H) as (out & R & V & ->).
  exists out. split; [exact R|]. intros lang. unfold resolvedFor.
  destruct extra as [sp|].
  - rewrite builtinOf_fold_custom, customOf_fold.
    destruct V as [V1 V2]; [discriminate|]. auto.
  - rewrite builtinOf_fold, customOf_fold_builtin. auto.
Qed.

Lemma runResolveQueries_effect_witness :
  exists m',
    runResolveQueries Sample.world
      [("javascript", {| builtin := ["a.ql"]; custom := [] |})]
      ["/work/repo/queries"] (Some "/work/repo") = Ok m' /\
    builtinOf m' "javascript" = ["a.ql"] /\
    customOf m' "javascript"
    = [{| searchPath := "/work/repo";
          customQueries := ["/work/repo/queries/q.ql"] |}].
Proof.
  destruct (runResolveQueries Sample.world
              [("javascript", {| builtin := ["a.ql"]; custom := [] |})]
              ["/work/repo/queries"] (Some "/work/repo")) as [m'|e] eqn:E;
    [|vm_compute in E; discriminate].
  exists m'. split; [reflexivity|].
  destruct (runResolveQueries_effect _ _ _ _ _ E) as (out & R & H).
  vm_compute in R. injection R as <-.
  destruct (H "javascript") as (B & C & _). rewrite B, C. split; reflexivity.
Defined.

(** X5: after a successful [runResolveQueries] the result map has an
    entry for a language exactly when it had one before or the resolver
    listed the language: a language that the resolver lists gets an
    entry even when all of its files are disabled or it has none. *)
Theorem runResolveQueries_languages :
  forall (env : Env) (m m' : Queries) (toResolve : list string)
         (extraSearchPath : option string),
    runResolveQueries env m toResolve extraSearchPath = Ok m' ->
    exists out,
      resolveQueries env toResolve extraSearchPath = Ok out /\
      forall lang,
        lookup lang m' <> None <->
        lookup lang m <> None \/ In lang (map fst (byLanguage out)).
Proof.
  intros env m m' toResolve extra H.
  destruct (runResolveQueries_inv _ _ _ _ _ H) as (out & R & _ & ->).
  exists out. split; [exact R|]. intros lang.
  pose proof (lookup_fold_pushResolved extra (byLanguage out) m lang) as L.
  destruct (lookup lang (fold_left (pushResolved extra) (byLanguage out) m)) as [e|].
  - split; [|discriminate]. intros _.
    destruct (lookup lang m) as [e0|]; [left; discriminate|]. right.
    destruct (in_dec string_dec lang (map fst (byLanguage out))) as [I|I];
      [exact I|].
    destruct L as [_ L]. discriminate L. auto.
  - destruct L as [L _]. destruct (L eq_refl) as [L1 L2]. split.
    + intros X. now destruct X.
    + intros [X|X]; [now destruct X | now destruct L2].
Qed.

Lemma runResolveQueries_languages_witness :
  exists m',
    runResolveQueries SampleMore.goWorld [] ["go-code-scanning.qls"] None = Ok m' /\
    lookup "go" m' <> None /\ builtinOf m' "go" = [].
Proof.
  eexists. split; [vm_compute; reflexivity|].
  split; [|reflexivity].
  destruct (runResolveQueries_languages
              SampleMore.goWorld [] _ ["go-code-scanning.qls"] None eq_refl)
    as (out & R & H).
  apply H. right. injection R as <-. simpl. auto.
Defined.

(* ================================================================== *)
(** * Properties that every resolution keeps *)

Section Preserved.

Variable P : Queries -> Prop.
Hypothesis P_resolve :
  forall env m toResolve extra m',
    runResolveQueries env m toResolve extra = Ok m' -> P m -> P m'.

Lemma parseQueryUses_preserves (env : Env) (languages : list string)
      (q q' : Queries) (queryUses tempDir checkoutPath : string)
      (configFile : option string) :
  parseQueryUses env languages q queryUses tempDir checkoutPath configFile = Ok q' ->
  P q -> P q'.
Proof.
  unfold parseQueryUses.
  destruct (JS.trim queryUses =? ""); [discriminate|].
  destruct (JS.startsWith (JS.trim queryUses) "./").
  - unfold addLocalQueries.
    destruct (negb (existsSync env _)); [discriminate|]. intros H.
    apply bind_ok_inv in H. destruct H as (a & _ & H).
    apply bind_ok_inv in H. destruct H as (r & _ & H).
    destruct (negb (JS.startsWith _ _)); [discriminate|].
    eapply P_resolve, H.
  - destruct (negb (JS.hasChar "/" (JS.trim queryUses)) &&
              negb (JS.hasChar "@" (JS.trim queryUses))).
    + unfold addBuiltinSuiteQueries.
      destruct (find _ builtinSuites); [|discriminate].
      apply P_resolve.
    + unfold addRemoteQueries.
      destruct (JS.split "@" (JS.trim queryUses)) as [|l [|r [|x xs]]];
        try discriminate.
      destruct (JS.split "/" l) as [|t0 [|t1 rest]]; try discriminate.
      destruct ((JS.trim t0 =? "") || (JS.trim t1 =? "")); [discriminate|].
      intros H. apply bind_ok_inv in H. destruct H as (cp & _ & H).
      eapply P_resolve, H.
Qed.

Lemma forEach_preserves (A : Type) (body : Queries -> A -> result Queries) :
  (forall q x q', body q x = Ok q' -> P q -> P q') ->
  forall items q q', forEach body items q = Ok q' -> P q -> P q'.
Proof.
  intros B items. induction items as [|x items IH]; simpl; intros q q' H Pq.
  - now injection H as <-.
  - apply bind_ok_inv in H. destruct H as (q1 & H1 & H).
    eapply IH; [exact H|]. eapply B; eassumption.
Qed.

Lemma addQueriesFromWorkflow_preserves (env : Env) (queriesInput : string)
      (languages : list string) (q q' : Queries) (tempDir checkoutPath : string) :
  addQueriesFromWorkflow env queriesInput languages q tempDir checkoutPath = Ok q' ->
  P q -> P q'.
Proof.
  unfold addQueriesFromWorkflow. apply forEach_preserves.
  intros q0 x q1. apply parseQueryUses_preserves.
Qed.

Lemma addConfigFileQuery_preserves (env : Env) (languages : list string)
      (tempDir checkoutPath configFile : string) (q : Queries) (query : yaml)
      (q' : Queries) :
  addConfigFileQuery env languages tempDir checkoutPath configFile q query = Ok q' ->
  P q -> P q'.
Proof.
  unfold addConfigFileQuery. intros H.
  apply bind_ok_inv in H. destruct H as (hasUses & _ & H).
  destruct hasUses; [|discriminate].
  destruct (getProperty QUERIES_USES_PROPERTY query); try discriminate.
  eapply parseQueryUses_preserves, H.
Qed.

Lemma mergedQueries_preserves (env : Env) (queriesInput : option string)
      (y : yaml) (languages : list string)
      (tempDir checkoutPath configFile : string) (q : Queries) :
  mergedQueries env queriesInput y languages tempDir checkoutPath configFile q ->
  P [] -> P q.
Proof.
  intros (qD & qR & HD & HR & HC) P0.
  assert (PD : P qD).
  { destruct (configDisablesDefaults y); [now subst|].
    eapply P_resolve; [exact HD | exact P0]. }
  assert (PR : P qR).
  { destruct queriesInput as [r|]; [|now subst].
    destruct (r =? ""); [now subst|].
    eapply addQueriesFromWorkflow_preserves; eassumption. }
  destruct (shouldAddConfigFileQueries queriesInput); [|now subst].
  eapply forEach_preserves; [|exact HC|exact PR].
  intros q0 x q1. apply addConfigFileQuery_preserves.
Qed.

End Preserved.

Section DefaultConfig.

Variable GitHubVersion : Type.
Variable env : Env.

(** What a successful [getDefaultConfig] did. *)
Lemma getDefaultConfig_inv
      (languagesInput queriesInput : option string)
      (repository : RepositoryNwo) (tempDir toolCacheDir checkoutPath : string)
      (gitHubVersion : GitHubVersion) (c : Config GitHubVersion) :
  getDefaultConfig env languagesInput queriesInput repository
                   tempDir toolCacheDir checkoutPath gitHubVersion = Ok c ->
  getLanguages env languagesInput repository = Ok (languages c) /\
  (exists qD,
      addDefaultQueries env (languages c) [] = Ok qD /\
      match queriesInput with
      | Some r =>
          if r =? "" then queries c = qD
          else addQueriesFromWorkflow env r (languages c) qD tempDir checkoutPath
               = Ok (queries c)
      | None => queries c = qD
      end) /\
  pathsIgnore c = [] /\ paths c = [] /\ originalUserInput c = YObject [].
Proof.
  unfold getDefaultConfig. intros H.
  apply bind_ok_inv in H. destruct H as (langs & HL & H).
  apply bind_ok_inv in H. destruct H as (qD & HD & H).
  apply bind_ok_inv in H. destruct H as (qR & HR & H).
  injection H as <-. cbn. repeat split; try assumption.
  exists qD. split; [exact HD|].
  destruct queriesInput as [r|]; [|now injection HR].
  unfold truthy in HR. destruct (r =? ""); simpl in HR;
    [now injection HR | exact HR].
Qed.

End DefaultConfig.

Section NoDisabled.

Lemma noDisabled_empty : noDisabled [].
Proof. intros lang. split; intros; simpl in *; contradiction. Qed.

Lemma noDisabled_resolve (env : Env) (m : Queries) (toResolve : list string)
      (extra : option string) (m' : Queries) :
  runResolveQueries env m toResolve extra = Ok m' -> noDisabled m -> noDisabled m'.
Proof.
  intros H N lang.
  destruct (runResolveQueries_inv _ _ _ _ _ H) as (out & _ & _ & ->).
  destruct (N lang) as [NB NC].
  assert (F : forall qs q,
             In qs (flat_map
                      (fun entry : string * list string =>
                         if fst entry =? lang
                         then [filter (fun q => negb (isDisabled lang q))
                                      (snd entry)]
                         else []) (byLanguage out)) ->
             In q qs -> isDisabled lang q = false).
  { intros qs q I Iq. apply in_flat_map in I. destruct I as (entry & _ & I).
    destruct (fst entry =? lang); [|destruct I].
    destruct I as [<-|[]]. apply filter_In in Iq. destruct Iq as [_ Iq].
    now apply negb_true_iff in Iq. }
  destruct extra as [sp|].
  - rewrite builtinOf_fold_custom, customOf_fold. split; [exact NB|].
    intros g q Ig Iq. apply in_app_or in Ig. destruct Ig as [Ig|Ig].
    + eapply NC; eassumption.
    + apply in_map_iff in Ig. destruct Ig as (qs & <- & Iqs).
      eapply F; eassumption.
  - rewrite builtinOf_fold, customOf_fold_builtin. split; [|exact NC].
    intros q Iq. apply in_app_or in Iq. destruct Iq as [Iq|Iq]; [now apply NB|].
    apply in_concat in Iq. destruct Iq as (qs & Iqs & Iq). eapply F; eassumption.
Qed.

End NoDisabled.

(** X6: a configuration that [initConfig] returns, from a config file or
    by default, holds no disabled query: no builtin and no custom query
    of a language ends with one of the suffixes that
    [DISABLED_BUILTIN_QUERIES] lists for the language. *)
Theorem initConfig_no_disabled_query :
  forall (GitHubVersion : Type) (env : Env)
         (languagesInput queriesInput configFile : option string)
         (repository : RepositoryNwo) (tempDir toolCacheDir checkoutPath : string)
         (gitHubVersion : GitHubVersion) (store store' : Store GitHubVersion)
         (c : Config GitHubVersion),
    initConfig env languagesInput queriesInput configFile repository
               tempDir toolCacheDir checkoutPath gitHubVersion store
    = (Ok c, store') ->
    noDisabled (queries c).
Proof.
  intros GV env li qi cfo repo tmp cache cp gv store store' c H.
  assert (D : forall c0,
             getDefaultConfig env li qi repo tmp cache cp gv = Ok c0 ->
             noDisabled (queries c0)).
  { intros c0 E. destruct (getDefaultConfig_inv _ _ _ _ _ _ _ _ _ _ E)
      as (_ & (qD & HD & HR) & _).
    assert (ND : noDisabled qD).
    { eapply noDisabled_resolve; [exact HD | apply noDisabled_empty]. }
    destruct qi as [r|]; [|now rewrite HR].
    destruct (r =? ""); [now rewrite HR|].
    eapply (addQueriesFromWorkflow_preserves noDisabled noDisabled_resolve);
      eassumption. }
  assert (L : forall f c0,
             loadConfig env li qi f repo tmp cache cp gv = Ok c0 ->
             noDisabled (queries c0)).
  { intros f c0 E.
    destruct (loadConfig_inv _ _ _ _ _ _ _ _ _ _ _ E) as (_ & _ & _ & M).
    eapply (mergedQueries_preserves noDisabled noDisabled_resolve);
      [exact M | apply noDisabled_empty]. }
  unfold initConfig in H.
  destruct cfo as [f|].
  - destruct (truthy (Some f)).
    + destruct (loadConfig env li qi f repo tmp cache cp gv) as [c0|e] eqn:E;
        [|discriminate].
      injection H as <- _. eapply L, E.
    + destruct (getDefaultConfig env li qi repo tmp cache cp gv) as [c0|e] eqn:E;
        [|discriminate].
      injection H as <- _. apply D. reflexivity.
  - destruct (getDefaultConfig env li qi repo tmp cache cp gv) as [c0|e] eqn:E;
      [|discriminate].
    injection H as <- _. apply D. reflexivity.
Qed.

Lemma initConfig_no_disabled_query_witness :
  exists c : Config unit,
    fst (initConfig SampleMore.csharpWorld (Some "csharp") None None
                    Sample.repository "/tmp" "/cache" "/work/repo" tt []) = Ok c /\
    builtinOf (queries c) "csharp" = ["/codeql/csharp/ql/src/Other.ql"] /\
    noDisabled (queries c).
Proof.
  eexists. split; [vm_compute; reflexivity|]. split; [reflexivity|].
  eapply (initConfig_no_disabled_query unit SampleMore.csharpWorld
            (Some "csharp") None None
            Sample.repository "/tmp" "/cache" "/work/repo" tt [] _ _).
  vm_compute. reflexivity.
Defined.

(* ================================================================== *)
(** * More on the language resolver *)

Section LanguagesMore.

Variable env : Env.

Lemma getLanguagesInRepo_addAll (repository : RepositoryNwo) (names : list string) :
  listLanguages env repository = Ok names ->
  getLanguagesInRepo env repository = Ok (addAll (parsedOf env names) []).
Proof.
  intros H. unfold getLanguagesInRepo. rewrite H. cbn [bind]. f_equal.
  clear H. unfold addAll. generalize (@nil string).
  induction names as [|n names IH]; intros acc; simpl; [reflexivity|].
  destruct (parseLanguage env n); simpl; apply IH.
Qed.

Lemma unknownOf_nil_inv (tokens : list string) :
  unknownOf env tokens = [] ->
  forall t, In t tokens -> parseLanguage env t <> None.
Proof.
  unfold unknownOf. intros H t I N.
  assert (X : In t (filter (fun t => match parseLanguage env t with
                                     | None => true
                                     | Some _ => false
                                     end) tokens)).
  { apply filter_In. split; [exact I | now rewrite N]. }
  rewrite H in X. destruct X.
Qed.

(** The loop of [getLanguages] on a list that is not empty. *)
Lemma getLanguages_loop (tokens langs : list string) :
  (let (parsedLanguages, unknownLanguages) :=
     fold_left (classifyLanguage env) tokens ([], []) in
   match unknownLanguages with
   | _ :: _ => Error (getUnknownLanguagesError unknownLanguages)
   | [] => Ok parsedLanguages
   end) = Ok langs ->
  langs = addAll (parsedOf env tokens) [] /\ unknownOf env tokens = [].
Proof.
  rewrite classifyLanguage_fold. cbn [app].
  destruct (unknownOf env tokens); [|discriminate].
  intros H. injection H as <-. auto.
Qed.

End LanguagesMore.

(** X7: the languages that [getLanguages] returns, from the input or
    from the repository, are never an empty list, have no duplicates,
    and each of them is what [parseLanguage] makes of some name. *)
Theorem getLanguages_result :
  forall (env : Env) (languagesInput : option string)
         (repository : RepositoryNwo) (langs : list string),
    getLanguages env languagesInput repository = Ok langs ->
    langs <> [] /\ NoDup langs /\
    forall l, In l langs -> exists t, parseLanguage env t = Some l.
Proof.
  intros env li repo langs H. unfold getLanguages in H.
  apply bind_ok_inv in H. destruct H as (L & _ & H).
  destruct L as [|t0 ts]; [discriminate|].
  apply getLanguages_loop in H. destruct H as [-> U].
  split; [|split].
  - pose proof (unknownOf_nil_inv env _ U t0 (or_introl eq_refl)) as N.
    destruct (parseLanguage env t0) as [l|] eqn:E; [|now destruct N].
    intros X.
    assert (I : In l (addAll (parsedOf env (t0 :: ts)) [])).
    { apply addAll_In. right. apply parsedOf_In. exists t0. split; [now left | exact E]. }
    rewrite X in I. destruct I.
  - apply addAll_NoDup. constructor.
  - intros l I. apply addAll_In in I. destruct I as [[]|I].
    apply parsedOf_In in I. destruct I as (t & _ & E). eauto.
Qed.

Lemma getLanguages_result_witness :
  exists langs,
    getLanguages Sample.world None Sample.repository = Ok langs /\
    langs <> [] /\ NoDup langs.
Proof.
  eexists. split; [vm_compute; reflexivity|].
  destruct (getLanguages_result Sample.world None Sample.repository
              ["javascript"] eq_refl) as (N & D & _).
  split; assumption.
Defined.

(** X8: the detection of the languages of the repository does not fail
    on a name that [parseLanguage] does not know: such names are
    dropped, the others are parsed and kept without duplicates, each at
    the place where it is first seen in the answer of the API. *)
Theorem getLanguagesInRepo_result :
  forall (env : Env) (repository : RepositoryNwo) (names : list string),
    listLanguages env repository = Ok names ->
    exists langs,
      getLanguagesInRepo env repository = Ok langs /\
      NoDup langs /\
      (forall l, In l langs <->
                 exists n, In n names /\ parseLanguage env n = Some l) /\
      (forall n1 n n2 l,
          names = (n1 ++ n :: n2)%list ->
          parseLanguage env n = Some l ->
          (forall n', In n' n1 -> parseLanguage env n' <> Some l) ->
          exists r1 r2,
            langs = (r1 ++ l :: r2)%list /\
            (forall l', In l' r1 <->
                        exists n', In n' n1 /\ parseLanguage env n' = Some l')).
Proof.
  intros env repo names H.
  exists (addAll (parsedOf env names) []).
  split; [now apply getLanguagesInRepo_addAll|].
  split; [apply addAll_NoDup; constructor|]. split.
  - intros l. rewrite addAll_In, parsedOf_In. simpl. intuition.
  - intros n1 n n2 l E P First. rewrite E, parsedOf_app.
    change (parsedOf env (n :: n2))
      with ((match parseLanguage env n with Some l => [l] | None => [] end)
              ++ parsedOf env n2)%list.
    rewrite P. cbn [app].
    destruct (addAll_first_seen (parsedOf env n1) (parsedOf env n2) l) as [r2 Hr].
    + rewrite parsedOf_In. intros (n' & Hn' & P'). now apply (First n').
    + exists (addAll (parsedOf env n1) []), r2. split; [exact Hr|].
      intros l'. rewrite addAll_In, parsedOf_In. simpl. intuition.
Qed.

Lemma getLanguagesInRepo_result_witness :
  getLanguagesInRepo
    (withListLanguages Sample.world
       (fun _ => Ok ["HTML"; "python"; "typescript"; "javascript"; "Shell"]))
    Sample.repository
  = Ok ["python"; "javascript"].
Proof.
  destruct (getLanguagesInRepo_result
              (withListLanguages Sample.world
                 (fun _ => Ok ["HTML"; "python"; "typescript"; "javascript"; "Shell"]))
              Sample.repository _ eq_refl) as (langs & E & _).
  rewrite E. vm_compute in E. congruence.
Defined.

(** X9: when the input names at least one language, [getLanguages] does
    not consult the repository: its outcome is the same whatever the
    API answers, also when the API fails. *)
Theorem getLanguages_input_wins :
  forall (env : Env) (languagesInput : string) (repository : RepositoryNwo)
         (api : RepositoryNwo -> result (list string)),
    languagesFromInput (Some languagesInput) <> [] ->
    getLanguages (withListLanguages env api) (Some languagesInput) repository
    = getLanguages env (Some languagesInput) repository.
Proof.
  intros env li repo api NE. unfold getLanguages.
  destruct (languagesFromInput (Some li)) as [|t ts]; [now destruct NE|].
  reflexivity.
Qed.

Lemma getLanguages_input_wins_witness :
  getLanguages (withListLanguages Sample.world (fun _ => Error "rate limit"))
               (Some "python") Sample.repository
  = Ok ["python"].
Proof.
  rewrite (getLanguages_input_wins Sample.world "python" Sample.repository
             (fun _ => Error "rate limit")).
  - reflexivity.
  - discriminate.
Defined.

(* ================================================================== *)
(** * More on the query reference parser *)

Section ParserMore.

Lemma substring_full (p : string) : substring 0 (String.length p) p = p.
Proof.
  pose proof (substring_prefix p "") as H. now rewrite append_nil_r in H.
Qed.

Lemma sliceFrom_local (p : string) : JS.sliceFrom 2 ("./" ++ p) = p.
Proof.
  unfold JS.sliceFrom. simpl. rewrite Nat.sub_0_r. apply substring_full.
Qed.

Lemma startsWith_hasChar (s : string) :
  JS.startsWith s "./" = true -> JS.hasChar "/" s = true.
Proof.
  intros H. destruct (prefix_inv _ _ H) as [u ->]. reflexivity.
Qed.

Lemma find_builtinSuite (s : string) :
  (In s builtinSuites -> find (fun suite => suite =? s) builtinSuites = Some s) /\
  (~ In s builtinSuites -> find (fun suite => suite =? s) builtinSuites = None).
Proof.
  unfold builtinSuites. cbn [find In].
  destruct (String.eqb_spec "security-extended" s) as [<-|N1].
  - split; [reflexivity | intros X; destruct X; auto].
  - destruct (String.eqb_spec "security-and-quality" s) as [<-|N2].
    + split; [reflexivity | intros X; destruct X; auto].
    + split; [intros [X|[X|[]]]; congruence | reflexivity].
Qed.

Lemma forEach_fails (A : Type) (body : Queries -> A -> result Queries) (x : A) :
  (forall q, isOk (body q x) = false) ->
  forall items q, In x items -> isOk (forEach body items q) = false.
Proof.
  intros F items. induction items as [|y items IH]; intros q I; [destruct I|].
  simpl. destruct I as [->|I].
  - specialize (F q). destruct (body q x); [discriminate | reflexivity].
  - destruct (body q y) as [q1|e]; simpl; [now apply IH | reflexivity].
Qed.

Lemma trimEnd_cons (a : ascii) (s : string) :
  JS.isWhiteSpace a = false ->
  JS.trimEnd (String a s) = String a (JS.trimEnd s).
Proof.
  intros H. simpl. rewrite H. destruct (JS.trimEnd s); reflexivity.
Qed.

Lemma trimEnd_head (a b : ascii) (s t : string) :
  JS.trimEnd (String a s) = String b t -> b = a.
Proof.
  simpl. destruct (JS.trimEnd s).
  - destruct (JS.isWhiteSpace a); [discriminate|]. intros H. now injection H.
  - intros H. now injection H.
Qed.

End ParserMore.

(** X10: a [uses] string without a slash and without an at sign names a
    builtin suite: with one of the two names [security-extended] and
    [security-and-quality] the suite files of all languages are
    resolved in one call without a search path; any other name is
    refused with the uses-invalid error that quotes it. *)
Theorem parseQueryUses_builtin_suite :
  forall (env : Env) (languages : list string) (resultMap : Queries)
         (queryUses tempDir checkoutPath : string) (configFile : option string),
    (JS.trim queryUses =? "") = false ->
    JS.hasChar "/" (JS.trim queryUses) = false ->
    JS.hasChar "@" (JS.trim queryUses) = false ->
    (In (JS.trim queryUses) builtinSuites ->
     parseQueryUses env languages resultMap queryUses tempDir checkoutPath configFile
     = runResolveQueries env resultMap
         (map (fun l => l ++ "-" ++ JS.trim queryUses ++ ".qls") languages) None) /\
    (~ In (JS.trim queryUses) builtinSuites ->
     parseQueryUses env languages resultMap queryUses tempDir checkoutPath configFile
     = Error (getQueryUsesInvalid configFile (Some (JS.trim queryUses)))).
Proof.
  intros env languages m u tmp cp cf NE NS NA.
  assert (L : JS.startsWith (JS.trim u) "./" = false).
  { destruct (JS.startsWith (JS.trim u) "./") eqn:E; [|reflexivity].
    apply startsWith_hasChar in E. congruence. }
  unfold parseQueryUses. rewrite NE, L, NS, NA. cbn [negb andb].
  unfold addBuiltinSuiteQueries.
  destruct (find_builtinSuite (JS.trim u)) as [F1 F2].
  split; intros I; [rewrite (F1 I) | rewrite (F2 I)]; reflexivity.
Qed.

Lemma parseQueryUses_builtin_suite_witness :
  parseQueryUses Sample.world ["javascript"; "python"] [] " security-and-quality "
                 "/tmp" "/work/repo" None
  = runResolveQueries Sample.world []
      ["javascript-security-and-quality.qls"; "python-security-and-quality.qls"] None /\
  parseQueryUses Sample.world ["javascript"] [] "security-extende"
                 "/tmp" "/work/repo" (Some "c.yml")
  = Error (getQueryUsesInvalid (Some "c.yml") (Some "security-extende")).
Proof.
  split.
  - destruct (parseQueryUses_builtin_suite Sample.world ["javascript"; "python"] []
                " security-and-quality " "/tmp" "/work/repo" None
                eq_refl eq_refl eq_refl) as [H _].
    rewrite H; [reflexivity | simpl; auto].
  - destruct (parseQueryUses_builtin_suite Sample.world ["javascript"] []
                "security-extende" "/tmp" "/work/repo" (Some "c.yml")
                eq_refl eq_refl eq_refl) as [_ H].
    rewrite H; [reflexivity|]. simpl. intros [X|[X|[]]]; discriminate.
Defined.

(** X11: a [uses] string that starts with "./" is a local path: the
    text after "./" is joined to the checkout path, and when the call
    succeeds the joined path exists, its canonical path followed by the
    separator starts with the canonical checkout root followed by the
    separator, and the resolver was run on the canonical path with the
    checkout path as search path. *)
Theorem parseQueryUses_local_contained :
  forall (env : Env) (languages : list string) (resultMap resultMap' : Queries)
         (queryUses localPath tempDir checkoutPath : string)
         (configFile : option string),
    JS.trim queryUses = "./" ++ localPath ->
    parseQueryUses env languages resultMap queryUses tempDir checkoutPath configFile
    = Ok resultMap' ->
    existsSync env (path_join env checkoutPath localPath) = true /\
    exists real root rest,
      realpathSync env (path_join env checkoutPath localPath) = Ok real /\
      realpathSync env checkoutPath = Ok root /\
      real ++ path_sep env = (root ++ path_sep env) ++ rest /\
      runResolveQueries env resultMap [real] (Some checkoutPath) = Ok resultMap'.
Proof.
  intros env languages m m' u p tmp cp cf T H.
  unfold parseQueryUses in H. rewrite T in H.
  change ("./" ++ p =? "") with false in H.
  replace (JS.startsWith ("./" ++ p) "./") with true in H
    by (symmetry; apply prefix_append).
  rewrite sliceFrom_local in H. unfold addLocalQueries in H.
  destruct (existsSync env (path_join env cp p)) eqn:X; [|discriminate].
  split; [reflexivity|]. cbn [negb] in H.
  apply bind_ok_inv in H. destruct H as (real & R1 & H).
  apply bind_ok_inv in H. destruct H as (root & R2 & H).
  destruct (JS.startsWith (real ++ path_sep env) (root ++ path_sep env)) eqn:S;
    [|discriminate].
  destruct (prefix_inv _ _ S) as [rest E].
  exists real, root, rest. auto.
Qed.

Lemma parseQueryUses_local_contained_witness :
  exists m' real,
    parseQueryUses Sample.world ["javascript"] [] "./queries" "/tmp" "/work/repo" None
    = Ok m' /\
    realpathSync Sample.world (path_join Sample.world "/work/repo" "queries") = Ok real /\
    runResolveQueries Sample.world [] [real] (Some "/work/repo") = Ok m'.
Proof.
  destruct (parseQueryUses Sample.world ["javascript"] [] "./queries"
                           "/tmp" "/work/repo" None) as [m'|e] eqn:E;
    [|vm_compute in E; discriminate].
  destruct (parseQueryUses_local_contained Sample.world ["javascript"] [] m'
              "./queries" "queries" "/tmp" "/work/repo" None eq_refl E)
    as (_ & real & root & rest & R1 & _ & _ & R).
  exists m', real. auto.
Defined.

(** X12: the plus sign in front of the queries of the workflow only
    selects the additive mode: an input that starts neither with white
    space nor with a plus sign contributes the same queries with a plus
    sign in front of it as without. *)
Theorem addQueriesFromWorkflow_plus :
  forall (env : Env) (queriesInput : string) (languages : list string)
         (resultMap : Queries) (tempDir checkoutPath : string),
    JS.trimStart queriesInput = queriesInput ->
    JS.startsWith queriesInput "+" = false ->
    addQueriesFromWorkflow env ("+" ++ queriesInput) languages resultMap
                           tempDir checkoutPath
    = addQueriesFromWorkflow env queriesInput languages resultMap
                             tempDir checkoutPath.
Proof.
  intros env r languages m tmp cp T NP. unfold addQueriesFromWorkflow, JS.trim.
  rewrite T. change (JS.trimStart ("+" ++ r)) with (String "+" r).
  rewrite trimEnd_cons by reflexivity. cbn [JS.stripLeadingPlus].
  assert (E : JS.stripLeadingPlus (JS.trimEnd r) = JS.trimEnd r).
  { destruct r as [|a r']; [reflexivity|].
    destruct (JS.trimEnd (String a r')) as [|b t] eqn:Et; [reflexivity|].
    apply trimEnd_head in Et. subst b.
    unfold JS.startsWith in NP.
    change (prefix "+" (String a r'))
      with (if ascii_dec "+" a then prefix "" r' else false) in NP.
    destruct (ascii_dec "+" a) as [<-|N].
    - destruct r'; discriminate.
    - unfold JS.stripLeadingPlus.
      destruct a as [[] [] [] [] [] [] [] []]; try reflexivity. now destruct N. }
  now rewrite E.
Qed.

Lemma addQueriesFromWorkflow_plus_witness :
  addQueriesFromWorkflow Sample.world "+./queries,octo/queries@v1" ["javascript"] []
                         "/tmp" "/work/repo"
  = addQueriesFromWorkflow Sample.world "./queries,octo/queries@v1" ["javascript"] []
                           "/tmp" "/work/repo".
Proof.
  apply (addQueriesFromWorkflow_plus Sample.world "./queries,octo/queries@v1");
    reflexivity.
Defined.

(** X13: an entry of the comma-separated queries of the workflow that
    is empty or blank is not skipped: it makes [addQueriesFromWorkflow]
    fail, for instance after a trailing comma or between two commas. *)
Theorem addQueriesFromWorkflow_blank_entry :
  forall (env : Env) (queriesInput : string) (languages : list string)
         (resultMap : Queries) (tempDir checkoutPath : string) (entry : string),
    In entry (JS.split "," (JS.stripLeadingPlus (JS.trim queriesInput))) ->
    JS.trim entry = "" ->
    isOk (addQueriesFromWorkflow env queriesInput languages resultMap
                                 tempDir checkoutPath) = false.
Proof.
  intros env r languages m tmp cp x I B. unfold addQueriesFromWorkflow.
  apply forEach_fails with (x := x); [|exact I].
  intros q. unfold parseQueryUses. rewrite B. reflexivity.
Qed.

Lemma addQueriesFromWorkflow_blank_entry_witness :
  isOk (addQueriesFromWorkflow Sample.world "./queries, " ["javascript"] []
                               "/tmp" "/work/repo") = false /\
  isOk (addQueriesFromWorkflow Sample.world "./queries" ["javascript"] []
                               "/tmp" "/work/repo") = true.
Proof.
  split; [|reflexivity].
  apply (addQueriesFromWorkflow_blank_entry Sample.world "./queries, "
           ["javascript"] [] "/tmp" "/work/repo" "").
  - simpl. auto.
  - reflexivity.
Defined.

(* ================================================================== *)
(** * The reference of a remote config file *)

Section RemoteConfig.

Lemma allChars_notChar (c : ascii) (s : string) :
  allChars (notChar c) s = true <-> JS.hasChar c s = false.
Proof.
  unfold notChar. induction s as [|a s IH]; simpl; [tauto|].
  rewrite andb_true_iff, orb_false_iff, IH, negb_true_iff. tauto.
Qed.

(** A greedy repetition stops at the first character outside of the
    class. *)
Lemma star_run (p : ascii -> bool) (x t : string)
      (k : string -> option captures) (c : captures) :
  allChars p x = true ->
  (t = "" \/ exists a t', t = String a t' /\ p a = false) ->
  k t = Some c ->
  star p (x ++ t) k = Some c.
Proof.
  intros A T K. induction x as [|a x IH]; simpl in *.
  - destruct T as [->|(b & t' & -> & Pb)]; simpl; [exact K|].
    now rewrite Pb.
  - apply andb_true_iff in A. destruct A as [Pa A].
    rewrite Pa, (IH A). reflexivity.
Qed.

Lemma rmatch_group_plus (n : string) (p : ascii -> bool) (x t : string)
      (caps : captures) (k : string -> captures -> option captures) (c : captures) :
  x <> "" ->
  allChars p x = true ->
  (t = "" \/ exists a t', t = String a t' /\ p a = false) ->
  k t ((n, x) :: caps) = Some c ->
  rmatch (RGroup n (RPlus p)) (x ++ t) caps k = Some c.
Proof.
  intros NE A T K. destruct x as [|a x]; [now destruct NE|].
  simpl in A. apply andb_true_iff in A. destruct A as [Pa A].
  change (String a x ++ t) with (String a (x ++ t)).
  cbn [rmatch]. rewrite Pa. apply star_run; [exact A | exact T|].
  change (String a (x ++ t)) with (String a x ++ t).
  rewrite length_append.
  replace (String.length (String a x) + String.length t - String.length t)
    with (String.length (String a x)) by lia.
  rewrite substring_prefix. exact K.
Qed.

Lemma rmatch_group_star_end (n : string) (p : ascii -> bool) (x : string)
      (caps : captures) (k : string -> captures -> option captures) (c : captures) :
  allChars p x = true ->
  k "" ((n, x) :: caps) = Some c ->
  rmatch (RGroup n (RStar p)) x caps k = Some c.
Proof.
  intros A K. cbn [rmatch].
  rewrite <- (append_nil_r x) at 1. apply star_run; [exact A | now left|].
  simpl String.length. rewrite Nat.sub_0_r, substring_full. exact K.
Qed.

Lemma rmatch_seq (r1 r2 : regex) (s : string) (caps : captures)
      (k : string -> captures -> option captures) :
  rmatch (RSeq r1 r2) s caps k
  = rmatch r1 s caps (fun s' c' => rmatch r2 s' c' k).
Proof. reflexivity. Qed.

Lemma rmatch_lit (a : ascii) (t : string) (caps : captures)
      (k : string -> captures -> option captures) :
  rmatch (RChar (lit a)) (String a t) caps k = k t caps.
Proof. cbn [rmatch]. unfold lit. now rewrite Ascii.eqb_refl. Qed.

Lemma exec_head (r : regex) (s : string) (c : captures) :
  rmatch r s [] (fun _ c => Some c) = Some c -> exec r s = Some c.
Proof. intros H. destruct s; simpl; now rewrite H. Qed.

Lemma countChar_append (c : ascii) (s t : string) :
  countChar c (s ++ t) = countChar c s + countChar c t.
Proof.
  induction s as [|a s IH]; simpl; [reflexivity|]. rewrite IH. lia.
Qed.

(** A match of a group of one or more characters, followed by a slash. *)
Lemma rmatch_group_plus_slash_sound (n : string) (p : ascii -> bool) (r : regex)
      (s : string) (caps : captures)
      (k : string -> captures -> option captures) (c : captures) :
  rmatch (RSeq (RGroup n (RPlus p)) (RSeq (RChar (lit "/")) r)) s caps k = Some c ->
  exists x t caps',
    s = x ++ String "/" t /\ rmatch r t caps' k = Some c.
Proof.
  cbn [rmatch]. destruct s as [|a s]; [discriminate|].
  destruct (p a); [|discriminate]. intros H.
  apply star_sound in H. destruct H as (x & t & -> & H).
  destruct t as [|b t]; [discriminate|].
  unfold lit in H. destruct (Ascii.eqb_spec b "/") as [->|N]; [|discriminate].
  exists (String a x), t. eexists. split; [reflexivity | exact H].
Qed.

(** A reference that matches the pattern has two slashes. *)
Lemma remoteConfigFormat_slashes (s : string) (c : captures) :
  exec remoteConfigFormat s = Some c -> 2 <= countChar "/" s.
Proof.
  intros H. destruct (exec_sound _ _ _ H) as (w & t & -> & M).
  unfold remoteConfigFormat in M.
  apply rmatch_group_plus_slash_sound in M.
  destruct M as (x1 & t1 & caps1 & -> & M).
  apply rmatch_group_plus_slash_sound in M.
  destruct M as (x2 & t2 & caps2 & -> & _).
  rewrite !countChar_append. simpl. rewrite !countChar_append. simpl. lia.
Qed.

End RemoteConfig.

(** X14: a remote config reference made of an owner and a repo, both
    not empty and without a slash, a path that is not empty and has no
    at sign, and a ref on one line, put together as
    owner/repo/path@ref, is taken apart into exactly these pieces: the
    content is asked for with them; a file is decoded and parsed, a
    directory listing and any other answer are refused with their own
    messages.  The path may hold slashes and the ref at signs. *)
Theorem getRemoteConfig_pieces :
  forall (env : Env) (owner repo path ref : string),
    owner <> "" -> JS.hasChar "/" owner = false ->
    repo <> "" -> JS.hasChar "/" repo = false ->
    path <> "" -> JS.hasChar "@" path = false ->
    allChars dot ref = true ->
    let configFile := owner ++ "/" ++ repo ++ "/" ++ path ++ "@" ++ ref in
    getRemoteConfig env configFile
    = (data <- getContent env owner repo path ref ;;
       match data with
       | FileContent fileContents => loadYamlBase64 env fileContents
       | DirectoryListing => Error (getConfigFileDirectoryGivenMessage configFile)
       | OtherContent => Error (getConfigFileFormatInvalidMessage configFile)
       end).
Proof.
  intros env o r p rf No So Nr Sr Np Sp Arf cf.
  assert (E : exec remoteConfigFormat cf
              = Some [("ref", rf); ("path", p); ("repo", r); ("owner", o)]).
  { apply exec_head. unfold cf, remoteConfigFormat.
    rewrite rmatch_seq. apply rmatch_group_plus;
      [exact No | now apply allChars_notChar
       | right; exists "/"%char; eexists; split; reflexivity |].
    change ("/" ++ r ++ "/" ++ p ++ "@" ++ rf)
      with (String "/" (r ++ "/" ++ p ++ "@" ++ rf)).
    rewrite rmatch_seq, rmatch_lit, rmatch_seq. apply rmatch_group_plus;
      [exact Nr | now apply allChars_notChar
       | right; exists "/"%char; eexists; split; reflexivity |].
    change ("/" ++ p ++ "@" ++ rf) with (String "/" (p ++ "@" ++ rf)).
    rewrite rmatch_seq, rmatch_lit, rmatch_seq. apply rmatch_group_plus;
      [exact Np | now apply allChars_notChar
       | right; exists "@"%char; eexists; split; reflexivity |].
    change ("@" ++ rf) with (String "@" rf).
    rewrite rmatch_seq, rmatch_lit.
    apply rmatch_group_star_end; [exact Arf | reflexivity]. }
  unfold getRemoteConfig. rewrite E. reflexivity.
Qed.

Lemma getRemoteConfig_pieces_witness :
  getRemoteConfig Sample.world "octo/conf/codeql.yml@main" = Ok (YObject []) /\
  getRemoteConfig
    (withGetContent Sample.world (fun _ _ _ _ => Ok DirectoryListing))
    "octo/conf/dir/sub@v1@x"
  = Error (getConfigFileDirectoryGivenMessage "octo/conf/dir/sub@v1@x").
Proof.
  split.
  - etransitivity.
    + apply (getRemoteConfig_pieces Sample.world "octo" "conf" "codeql.yml" "main");
        try reflexivity; discriminate.
    + reflexivity.
  - etransitivity.
    + apply (getRemoteConfig_pieces
               (withGetContent Sample.world (fun _ _ _ _ => Ok DirectoryListing))
               "octo" "conf" "dir/sub" "v1@x");
        try reflexivity; discriminate.
    + reflexivity.
Defined.

(** X15: a remote config reference with fewer than two slashes, such as
    owner/repo@ref without a path, is refused with the
    repo-format-invalid message, and the content is not asked for. *)
Theorem getRemoteConfig_needs_path :
  forall (env : Env) (configFile : string),
    countChar "/" configFile < 2 ->
    getRemoteConfig env configFile
    = Error (getConfigFileRepoFormatInvalidMessage configFile).
Proof.
  intros env cf H. unfold getRemoteConfig.
  destruct (exec remoteConfigFormat cf) as [c|] eqn:E; [|reflexivity].
  apply remoteConfigFormat_slashes in E. lia.
Qed.

Lemma getRemoteConfig_needs_path_witness :
  getRemoteConfig Sample.world "octo/conf@main"
  = Error (getConfigFileRepoFormatInvalidMessage "octo/conf@main").
Proof.
  apply (getRemoteConfig_needs_path Sample.world "octo/conf@main"). simpl. lia.
Defined.

(* ================================================================== *)
(** * The fields of the config file *)

Section ConfigFields.

Lemma sanitisePaths_inv (invalid propertyName configFile : string)
      (items : list yaml) (l : list string) :
  sanitisePaths invalid propertyName configFile items = Ok l ->
  Forall2 (sanitisedFrom propertyName configFile) items l.
Proof.
  revert l. induction items as [|item items IH]; simpl; intros l H.
  - injection H as <-. constructor.
  - destruct item; try discriminate.
    destruct (String.eqb_spec s "") as [E|NE]; [discriminate|].
    apply bind_ok_inv in H. destruct H as (q & V & H).
    apply bind_ok_inv in H. destruct H as (rest & R & H).
    injection H as <-. constructor; [|now apply IH].
    exists s. auto.
Qed.

Lemma hasProperty_ok (p : string) (y : yaml) (b : bool) :
  hasProperty p y = Ok b ->
  (exists fields, y = YObject fields) \/ (exists items, y = YArray items) \/
  (exists time, y = YDate time) \/ (exists bytes, y = YBinary bytes).
Proof. destruct y; simpl; try discriminate; eauto 6. Qed.

Lemma forEach_addConfigFileQuery_inv (env : Env) (languages : list string)
      (tempDir checkoutPath configFile : string)
      (items : list yaml) (q q' : Queries) :
  forEach (addConfigFileQuery env languages tempDir checkoutPath configFile)
          items q = Ok q' ->
  forall item, In item items ->
               exists uses, getProperty QUERIES_USES_PROPERTY item = YString uses /\
                            JS.trim uses <> "".
Proof.
  revert q. induction items as [|x items IH]; simpl; intros q H item I;
    [destruct I|].
  apply bind_ok_inv in H. destruct H as (q1 & H1 & H).
  destruct I as [<-|I]; [|eapply IH; eassumption].
  unfold addConfigFileQuery in H1.
  apply bind_ok_inv in H1. destruct H1 as (hasUses & _ & H1).
  destruct hasUses; [|discriminate].
  destruct (getProperty QUERIES_USES_PROPERTY x); try discriminate.
  exists s. split; [reflexivity|].
  unfold parseQueryUses in H1.
  destruct (String.eqb_spec (JS.trim s) ""); [discriminate | assumption].
Qed.

Variable GitHubVersion : Type.
Variable env : Env.

(** What a successful [loadConfig] found in the fields of the file. *)
Lemma loadConfig_inv_fields
      (li qi : option string) (cf : string)
      (repo : RepositoryNwo) (tmp cache cp : string)
      (gv : GitHubVersion) (c : Config GitHubVersion) :
  loadConfig env li qi cf repo tmp cache cp gv = Ok c ->
  let cf' := if isLocal cf then path_resolve env cp cf else cf in
  let y := originalUserInput c in
  ((exists fields, y = YObject fields) \/ (exists items, y = YArray items) \/
   (exists time, y = YDate time) \/ (exists bytes, y = YBinary bytes)) /\
  (getProperty NAME_PROPERTY y = YUndefined \/
   exists n, getProperty NAME_PROPERTY y = YString n /\ n <> "") /\
  (getProperty DISABLE_DEFAULT_QUERIES_PROPERTY y = YUndefined \/
   exists b, getProperty DISABLE_DEFAULT_QUERIES_PROPERTY y = YBool b) /\
  (absentOrList PATHS_IGNORE_PROPERTY y /\
   Forall2 (sanitisedFrom PATHS_IGNORE_PROPERTY cf')
           (configList PATHS_IGNORE_PROPERTY y) (pathsIgnore c)) /\
  (absentOrList PATHS_PROPERTY y /\
   Forall2 (sanitisedFrom PATHS_PROPERTY cf')
           (configList PATHS_PROPERTY y) (paths c)) /\
  (shouldAddConfigFileQueries qi = true -> absentOrList QUERIES_PROPERTY y) /\
  tempDir c = tmp /\ toolCacheDir c = cache /\
  codeQLCmd c = getPath env /\ gitHubVersion c = gv.
Proof.
  intros H cf' y0. unfold loadConfig in H. cbv zeta in H. fold cf' in H.
  apply bind_ok_inv in H. destruct H as (y & Hy & H).
  apply bind_ok_inv in H. destruct H as (hasName & HN & H).
  apply bind_ok_inv in H. destruct H as (u & HN2 & H).
  apply bind_ok_inv in H. destruct H as (langs & HL & H).
  apply bind_ok_inv in H. destruct H as (hasDisable & HD & H).
  apply bind_ok_inv in H. destruct H as (disable & HDis & H).
  apply bind_ok_inv in H. destruct H as (qD & HqD & H).
  apply bind_ok_inv in H. destruct H as (qR & HqR & H).
  apply bind_ok_inv in H. destruct H as (hasQ & HQ & H).
  apply bind_ok_inv in H. destruct H as (qC & HqC & H).
  apply bind_ok_inv in H. destruct H as (hasPI & HPI & H).
  apply bind_ok_inv in H. destruct H as (pI & HPI2 & H).
  apply bind_ok_inv in H. destruct H as (hasP & HP & H).
  apply bind_ok_inv in H. destruct H as (p & HP2 & H).
  apply bind_ok_inv in H. destruct H as (u' & HC & H).
  injection H as <-. subst y0. cbn.
  assert (Paths : forall prop invalid has l,
             hasProperty prop y = Ok has ->
             (if has then
                match getProperty prop y with
                | YArray items => sanitisePaths invalid prop cf' items
                | _ => Error invalid
                end
              else Ok []) = Ok l ->
             absentOrList prop y /\
             Forall2 (sanitisedFrom prop cf') (configList prop y) l).
  { intros prop invalid has l Hh Hs. unfold absentOrList, configList.
    destruct has.
    - destruct (getProperty prop y); try discriminate.
      split; [right; eauto | eapply sanitisePaths_inv, Hs].
    - rewrite (hasProperty_false _ _ Hh). injection Hs as <-.
      split; [now left | constructor]. }
  split; [eapply hasProperty_ok, HN|]. split.
  { destruct hasName.
    - destruct (getProperty NAME_PROPERTY y); try discriminate.
      right. exists s. split; [reflexivity|].
      destruct s; [discriminate | discriminate].
    - left. eapply hasProperty_false, HN. }
  split.
  { destruct hasDisable.
    - destruct (getProperty DISABLE_DEFAULT_QUERIES_PROPERTY y); try discriminate.
      right. eauto.
    - left. eapply hasProperty_false, HD. }
  split; [eapply Paths; eassumption|].
  split; [eapply Paths; eassumption|].
  split; [|auto].
  intros SA. rewrite SA in HQ. unfold absentOrList. destruct hasQ.
  - destruct (getProperty QUERIES_PROPERTY y); try discriminate. right. eauto.
  - left. eapply hasProperty_false, HQ.
Qed.

End ConfigFields.

(** X16: the path filters of a configuration that [loadConfig] returns
    are the entries of the lists [paths-ignore] and [paths] of the
    config file, one for one and in their order: every entry is a
    string that is not empty, and the filter is what
    [validateAndSanitisePath] makes of it; a list that the file does
    not have gives no filter. *)
Theorem loadConfig_path_filters :
  forall (GitHubVersion : Type) (env : Env)
         (languagesInput queriesInput : option string) (configFile : string)
         (repository : RepositoryNwo) (tempDir toolCacheDir checkoutPath : string)
         (gitHubVersion : GitHubVersion) (c : Config GitHubVersion),
    loadConfig env languagesInput queriesInput configFile repository
               tempDir toolCacheDir checkoutPath gitHubVersion = Ok c ->
    let configFile' :=
      if isLocal configFile then path_resolve env checkoutPath configFile
      else configFile in
    Forall2 (sanitisedFrom PATHS_IGNORE_PROPERTY configFile')
            (configList PATHS_IGNORE_PROPERTY (originalUserInput c))
            (pathsIgnore c) /\
    Forall2 (sanitisedFrom PATHS_PROPERTY configFile')
            (configList PATHS_PROPERTY (originalUserInput c))
            (paths c).
Proof.
  intros GV env li qi cf repo tmp cache cp gv c H cf'.
  destruct (loadConfig_inv_fields _ _ _ _ _ _ _ _ _ _ _ H)
    as (_ & _ & _ & (_ & PI) & (_ & P) & _).
  split; assumption.
Qed.

Lemma loadConfig_path_filters_witness :
  exists c : Config unit,
    loadConfig Sample.world (Some "javascript") None "config.yml"
               Sample.repository "/tmp" "/cache" "/work/repo" tt = Ok c /\
    Forall2 (sanitisedFrom "paths" "/work/repo/config.yml")
            [YString "/src/**"] (paths c) /\
    paths c = ["src/"].
Proof.
  destruct (loadConfig Sample.world (Some "javascript") None "config.yml"
                       Sample.repository "/tmp" "/cache" "/work/repo" tt)
    as [c|e] eqn:E; [|vm_compute in E; discriminate].
  exists c. split; [reflexivity|].
  destruct (loadConfig_path_filters _ _ _ _ _ _ _ _ _ _ _ E) as [_ P].
  vm_compute in E. injection E as <-. split; [exact P | reflexivity].
Defined.

(** X17: [loadConfig] succeeds only on a config file whose fields have
    the right types: the document is an object for the engine, that is
    a mapping, or a sequence, a [Date] (a timestamp scalar) or a
    [Buffer] (a binary scalar), which have none of the fields; [name]
    is absent or a string that is not empty, [disable-default-queries]
    is absent or a boolean, [paths-ignore] and [paths] are absent or
    lists.  So a document that is empty, null, a number, a boolean or a
    string makes it fail. *)
Theorem loadConfig_field_types :
  forall (GitHubVersion : Type) (env : Env)
         (languagesInput queriesInput : option string) (configFile : string)
         (repository : RepositoryNwo) (tempDir toolCacheDir checkoutPath : string)
         (gitHubVersion : GitHubVersion) (c : Config GitHubVersion),
    loadConfig env languagesInput queriesInput configFile repository
               tempDir toolCacheDir checkoutPath gitHubVersion = Ok c ->
    let y := originalUserInput c in
    ((exists fields, y = YObject fields) \/ (exists items, y = YArray items) \/
     (exists time, y = YDate time) \/ (exists bytes, y = YBinary bytes)) /\
    (getProperty NAME_PROPERTY y = YUndefined \/
     exists n, getProperty NAME_PROPERTY y = YString n /\ n <> "") /\
    (getProperty DISABLE_DEFAULT_QUERIES_PROPERTY y = YUndefined \/
     exists b, getProperty DISABLE_DEFAULT_QUERIES_PROPERTY y = YBool b) /\
    absentOrList PATHS_IGNORE_PROPERTY y /\
    absentOrList PATHS_PROPERTY y.
Proof.
  intros GV env li qi cf repo tmp cache cp gv c H y.
  destruct (loadConfig_inv_fields _ _ _ _ _ _ _ _ _ _ _ H)
    as (O & N & D & (PI & _) & (P & _) & _).
  repeat split; assumption.
Qed.

Lemma loadConfig_field_types_witness :
  (exists c : Config unit,
     loadConfig Sample.world (Some "javascript") None "config.yml"
                Sample.repository "/tmp" "/cache" "/work/repo" tt = Ok c /\
     (getProperty NAME_PROPERTY (originalUserInput c) = YUndefined \/
      exists n, getProperty NAME_PROPERTY (originalUserInput c) = YString n /\ n <> "")) /\
  (exists c : Config unit,
     loadConfig SampleMore.timestampWorld (Some "javascript") None "config.yml"
                Sample.repository "/tmp" "/cache" "/work/repo" tt = Ok c /\
     originalUserInput c = YDate 1008288000000 /\
     absentOrList PATHS_PROPERTY (originalUserInput c)).
Proof.
  split.
  - destruct (loadConfig Sample.world (Some "javascript") None "config.yml"
                         Sample.repository "/tmp" "/cache" "/work/repo" tt)
      as [c|e] eqn:E; [|vm_compute in E; discriminate].
    exists c. split; [reflexivity|].
    destruct (loadConfig_field_types _ _ _ _ _ _ _ _ _ _ _ E) as (_ & N & _).
    exact N.
  - destruct (loadConfig SampleMore.timestampWorld (Some "javascript") None
                         "config.yml" Sample.repository "/tmp" "/cache"
                         "/work/repo" tt)
      as [c|e] eqn:E; [|vm_compute in E; discriminate].
    exists c. split; [reflexivity|].
    destruct (loadConfig_field_types _ _ _ _ _ _ _ _ _ _ _ E)
      as (_ & _ & _ & _ & P).
    split; [|exact P].
    vm_compute in E. injection E as <-. reflexivity.
Defined.

(** X18: when the queries of the config file are used (no run parameter,
    or an additive one), [loadConfig] succeeds only if the property
    [queries] is absent or a list, and every entry of the list has a
    property [uses] that is a string and is not blank. *)
Theorem loadConfig_queries_field :
  forall (GitHubVersion : Type) (env : Env)
         (languagesInput queriesInput : option string) (configFile : string)
         (repository : RepositoryNwo) (tempDir toolCacheDir checkoutPath : string)
         (gitHubVersion : GitHubVersion) (c : Config GitHubVersion),
    loadConfig env languagesInput queriesInput configFile repository
               tempDir toolCacheDir checkoutPath gitHubVersion = Ok c ->
    shouldAddConfigFileQueries queriesInput = true ->
    absentOrList QUERIES_PROPERTY (originalUserInput c) /\
    forall item,
      In item (configFileQueries (originalUserInput c)) ->
      exists uses,
        getProperty QUERIES_USES_PROPERTY item = YString uses /\
        JS.trim uses <> "".
Proof.
  intros GV env li qi cf repo tmp cache cp gv c H SA.
  destruct (loadConfig_inv_fields _ _ _ _ _ _ _ _ _ _ _ H)
    as (_ & _ & _ & _ & _ & Q & _).
  split; [exact (Q SA)|].
  destruct (loadConfig_inv _ _ _ _ _ _ _ _ _ _ _ H)
    as (_ & _ & _ & qD & qR & _ & _ & HC).
  rewrite SA in HC. eapply forEach_addConfigFileQuery_inv, HC.
Qed.

Lemma loadConfig_queries_field_witness :
  exists c : Config unit,
    loadConfig Sample.world (Some "javascript") (Some "+octo/queries@v1") "config.yml"
               Sample.repository "/tmp" "/cache" "/work/repo" tt = Ok c /\
    absentOrList QUERIES_PROPERTY (originalUserInput c).
Proof.
  destruct (loadConfig Sample.world (Some "javascript") (Some "+octo/queries@v1")
                       "config.yml" Sample.repository "/tmp" "/cache" "/work/repo" tt)
    as [c|e] eqn:E; [|vm_compute in E; discriminate].
  exists c. split; [reflexivity|].
  destruct (loadConfig_queries_field _ _ _ _ _ _ _ _ _ _ _ E eq_refl) as [Q _].
  exact Q.
Defined.

(** X19: a configuration that [loadConfig] returns from a local config
    file was read from the path that [path.resolve] makes of the
    checkout path and the reference: this path followed by the
    separator starts with the checkout path followed by the separator,
    the file exists, and the original user input of the configuration
    is its YAML document. *)
Theorem loadConfig_local_source :
  forall (GitHubVersion : Type) (env : Env)
         (languagesInput queriesInput : option string) (configFile : string)
         (repository : RepositoryNwo) (tempDir toolCacheDir checkoutPath : string)
         (gitHubVersion : GitHubVersion) (c : Config GitHubVersion),
    isLocal configFile = true ->
    loadConfig env languagesInput queriesInput configFile repository
               tempDir toolCacheDir checkoutPath gitHubVersion = Ok c ->
    let resolved := path_resolve env checkoutPath configFile in
    (exists rest,
        resolved ++ path_sep env = (checkoutPath ++ path_sep env) ++ rest) /\
    existsSync env resolved = true /\
    loadYamlFile env resolved = Ok (originalUserInput c).
Proof.
  intros GV env li qi cf repo tmp cache cp gv c L H resolved.
  destruct (loadConfig_inv _ _ _ _ _ _ _ _ _ _ _ H) as (S & _).
  rewrite L in S. fold resolved in S.
  rewrite getLocalConfig_textual in S.
  destruct (JS.startsWith (resolved ++ path_sep env) (cp ++ path_sep env)) eqn:P;
    [|discriminate].
  destruct (existsSync env resolved); [|discriminate].
  split; [now apply prefix_inv|]. auto.
Qed.

Lemma loadConfig_local_source_witness :
  exists c : Config unit,
    loadConfig Sample.world (Some "javascript") None "config.yml"
               Sample.repository "/tmp" "/cache" "/work/repo" tt = Ok c /\
    loadYamlFile Sample.world "/work/repo/config.yml" = Ok (originalUserInput c).
Proof.
  destruct (loadConfig Sample.world (Some "javascript") None "config.yml"
                       Sample.repository "/tmp" "/cache" "/work/repo" tt)
    as [c|e] eqn:E; [|vm_compute in E; discriminate].
  exists c. split; [reflexivity|].
  destruct (loadConfig_local_source unit Sample.world (Some "javascript") None
              "config.yml" Sample.repository "/tmp" "/cache" "/work/repo" tt c
              eq_refl E) as (_ & _ & Y).
  exact Y.
Defined.

(** X20: without a config file the configuration is made of the default
    queries, always, followed by the queries of the run parameter when
    it is a non-empty string, with or without a plus sign; it has no
    path filter and an empty original user input, and its languages are
    those of [getLanguages]. *)
Theorem getDefaultConfig_result :
  forall (GitHubVersion : Type) (env : Env)
         (languagesInput queriesInput : option string)
         (repository : RepositoryNwo) (tempDir toolCacheDir checkoutPath : string)
         (gitHubVersion : GitHubVersion) (c : Config GitHubVersion),
    getDefaultConfig env languagesInput queriesInput repository
                     tempDir toolCacheDir checkoutPath gitHubVersion = Ok c ->
    getLanguages env languagesInput repository = Ok (languages c) /\
    (exists qD,
        addDefaultQueries env (languages c) [] = Ok qD /\
        extends qD (queries c) /\
        match queriesInput with
        | Some r =>
            if r =? "" then queries c = qD
            else addQueriesFromWorkflow env r (languages c) qD tempDir checkoutPath
                 = Ok (queries c)
        | None => queries c = qD
        end) /\
    pathsIgnore c = [] /\ paths c = [] /\ originalUserInput c = YObject [].
Proof.
  intros GV env li qi repo tmp cache cp gv c H.
  destruct (getDefaultConfig_inv _ _ _ _ _ _ _ _ _ _ H)
    as (HL & (qD & HD & HR) & HP).
  split; [exact HL|]. split; [|exact HP].
  exists qD. split; [exact HD|]. split; [|exact HR].
  destruct qi as [r|]; [|rewrite HR; apply extends_refl].
  destruct (r =? ""); [rewrite HR; apply extends_refl|].
  eapply addQueriesFromWorkflow_extends, HR.
Qed.

Lemma getDefaultConfig_result_witness :
  exists (c : Config unit) (qD : Queries),
    getDefaultConfig Sample.world (Some "javascript") (Some "octo/queries@v1")
                     Sample.repository "/tmp" "/cache" "/work/repo" tt = Ok c /\
    addDefaultQueries Sample.world ["javascript"] [] = Ok qD /\
    extends qD (queries c).
Proof.
  destruct (getDefaultConfig Sample.world (Some "javascript") (Some "octo/queries@v1")
                             Sample.repository "/tmp" "/cache" "/work/repo" tt)
    as [c|e] eqn:E; [|vm_compute in E; discriminate].
  destruct (getDefaultConfig_result _ _ _ _ _ _ _ _ _ _ E)
    as (_ & (qD & HD & X & _) & _).
  vm_compute in E. injection E as <-.
  eexists. exists qD. split; [reflexivity|]. split; [exact HD | exact X].
Defined.

(* ================================================================== *)
(** * Counting lines of code *)

Section CountLocFacts.

Variable Language : Type.
Variable Language_eqb : Language -> Language -> bool.
Variables cpp csharp go java javascript python : Language.
Variable loadInfo :
  string -> list string -> list string -> list (option string) ->
  result (list (string * nat)).

Let table := CountLoc.linguistToMetrics cpp csharp go java javascript python.

Lemma addCounts_app (o : option nat) (cs1 cs2 : list nat) :
  addCounts (addCounts o cs1) cs2 = addCounts o (cs1 ++ cs2).
Proof.
  destruct cs1 as [|c1 cs1]; [reflexivity|].
  destruct cs2 as [|c2 cs2]; [now rewrite app_nil_r|].
  cbn [addCounts app]. f_equal.
  change (c1 :: (cs1 ++ c2 :: cs2))%list with ((c1 :: cs1) ++ (c2 :: cs2))%list.
  rewrite list_sum_app. lia.
Qed.

Lemma lookup_addLineCount (dbLanguages : list Language)
      (obj : list (string * nat)) (entry : string * nat) (p : string) :
  lookup p (CountLoc.addLineCount Language_eqb cpp csharp go java javascript python
              dbLanguages obj entry)
  = addCounts (lookup p obj) (countsFor Language_eqb table dbLanguages p [entry]).
Proof.
  destruct entry as [language code].
  unfold CountLoc.addLineCount, countsFor. cbn [flat_map fst snd]. fold table.
  rewrite app_nil_r.
  destruct (lookup language table) as [m|]; [|reflexivity].
  destruct (existsb (Language_eqb (CountLoc.name m)) dbLanguages);
    [|now rewrite andb_false_r].
  rewrite andb_true_r.
  destruct (lookup (CountLoc.prefix m) obj) as [count|] eqn:L.
  - rewrite lookup_update.
    destruct (String.eqb_spec (CountLoc.prefix m) p) as [<-|N].
    + rewrite L. simpl. f_equal. lia.
    + reflexivity.
  - rewrite lookup_app. simpl.
    destruct (String.eqb_spec (CountLoc.prefix m) p) as [<-|N].
    + rewrite L. simpl. f_equal. lia.
    + now destruct (lookup p obj).
Qed.

Lemma lookup_lineCounts (dbLanguages : list Language)
      (languages : list (string * nat)) (obj : list (string * nat)) (p : string) :
  lookup p (fold_left
              (CountLoc.addLineCount Language_eqb cpp csharp go java javascript
                                     python dbLanguages) languages obj)
  = addCounts (lookup p obj) (countsFor Language_eqb table dbLanguages p languages).
Proof.
  revert obj. induction languages as [|x languages IH]; intros obj; [reflexivity|].
  cbn [fold_left]. rewrite IH, lookup_addLineCount, addCounts_app.
  unfold countsFor. cbn [flat_map]. now rewrite app_nil_r.
Qed.

(** X21: the count that [countLoc] returns for a language prefix is the
    sum of the [code] counts of the entries of the line counter whose
    linguist name the table maps to this prefix and to one of the
    requested languages (c and c++ go to cpp, javascript and typescript
    to js); a prefix without such an entry has no count, so that
    languages that were not requested and names that the table does
    not have are left out. *)
Theorem countLoc_sums :
  forall (cwd : string) (include : option (list string)) (exclude : list string)
         (dbLanguages : list Language)
         (log : list CountLoc.LogLine) (lineCounts : list (string * nat)),
    CountLoc.countLoc Language_eqb cpp csharp go java javascript python loadInfo
                      cwd include exclude dbLanguages = Ok (log, lineCounts) ->
    exists languages,
      loadInfo cwd ("**" :: match include with Some l => l | None => [] end)
               exclude
               (CountLoc.analysisLanguages Language_eqb
                  cpp csharp go java javascript python dbLanguages)
      = Ok languages /\
      forall p,
        lookup p lineCounts =
        match countsFor Language_eqb table dbLanguages p languages with
        | [] => None
        | c :: cs => Some (list_sum (c :: cs))
        end.
Proof.
  intros cwd include exclude db log counts H. unfold CountLoc.countLoc in H.
  apply bind_ok_inv in H. destruct H as (languages & L & H).
  injection H as _ <-. exists languages. split; [exact L|].
  intros p. rewrite lookup_lineCounts. cbn [lookup].
  destruct (countsFor Language_eqb table db p languages); [reflexivity|].
  cbn [addCounts]. f_equal. lia.
Qed.

Hypothesis Language_eqb_eq : forall a b, Language_eqb a b = true <-> a = b.

Lemma Language_eqb_refl (a : Language) : Language_eqb a a = true.
Proof. now apply Language_eqb_eq. Qed.

Lemma lookupLanguage_app (V : Type) (k : Language) (m1 m2 : list (Language * V)) :
  CountLoc.lookupLanguage Language_eqb k (m1 ++ m2) =
  match CountLoc.lookupLanguage Language_eqb k m1 with
  | Some v => Some v
  | None => CountLoc.lookupLanguage Language_eqb k m2
  end.
Proof.
  induction m1 as [|[k' v] m1 IH]; simpl; [reflexivity|].
  destruct (Language_eqb k' k); [reflexivity | exact IH].
Qed.

Lemma lookupLanguage_update (V : Type) (k k' : Language) (f : V -> V)
      (m : list (Language * V)) :
  CountLoc.lookupLanguage Language_eqb k
    (CountLoc.updateLanguage Language_eqb k' f m) =
  if Language_eqb k' k
  then option_map f (CountLoc.lookupLanguage Language_eqb k m)
  else CountLoc.lookupLanguage Language_eqb k m.
Proof.
  induction m as [|[k0 v] m IH]; simpl.
  - now destruct (Language_eqb k' k).
  - destruct (Language_eqb k0 k') eqn:E0; simpl.
    + apply Language_eqb_eq in E0. subst k0.
      destruct (Language_eqb k' k); reflexivity.
    + destruct (Language_eqb k0 k) eqn:E1.
      * apply Language_eqb_eq in E1. subst k0.
        destruct (Language_eqb k' k) eqn:E2; [|reflexivity].
        apply Language_eqb_eq in E2. subst k'.
        rewrite Language_eqb_refl in E0. discriminate.
      * exact IH.
Qed.

Lemma addNames_app (o : option (list string)) (ks1 ks2 : list string) :
  addNames (addNames o ks1) ks2 = addNames o (ks1 ++ ks2).
Proof.
  destruct ks1 as [|k1 ks1]; [reflexivity|].
  destruct ks2 as [|k2 ks2]; [now rewrite app_nil_r|].
  cbn [addNames app]. f_equal.
  change (k1 :: (ks1 ++ k2 :: ks2))%list with ((k1 :: ks1) ++ (k2 :: ks2))%list.
  now rewrite app_assoc.
Qed.

Lemma lookup_pushName (obj : list (Language * list string))
      (entry : string * CountLoc.Metrics Language) (a : Language) :
  CountLoc.lookupLanguage Language_eqb a (CountLoc.pushName Language_eqb obj entry)
  = addNames (CountLoc.lookupLanguage Language_eqb a obj)
             (namesFor Language_eqb [entry] a).
Proof.
  destruct entry as [key m]. unfold CountLoc.pushName, namesFor.
  cbn [flat_map fst snd]. rewrite app_nil_r, lookupLanguage_update.
  destruct (CountLoc.lookupLanguage Language_eqb (CountLoc.name m) obj)
    as [keys|] eqn:L.
  - destruct (Language_eqb (CountLoc.name m) a) eqn:E.
    + apply Language_eqb_eq in E. subst a. rewrite L. reflexivity.
    + reflexivity.
  - rewrite lookupLanguage_app. simpl.
    destruct (Language_eqb (CountLoc.name m) a) eqn:E.
    + apply Language_eqb_eq in E. subst a. rewrite L. reflexivity.
    + now destruct (CountLoc.lookupLanguage Language_eqb a obj).
Qed.

Lemma lookup_nameToLinguist (a : Language) :
  CountLoc.lookupLanguage Language_eqb a
    (CountLoc.nameToLinguist Language_eqb cpp csharp go java javascript python)
  = match namesFor Language_eqb table a with
    | [] => None
    | k :: ks => Some (k :: ks)
    end.
Proof.
  unfold CountLoc.nameToLinguist. fold table.
  assert (G : forall entries obj,
             CountLoc.lookupLanguage Language_eqb a
               (fold_left (CountLoc.pushName Language_eqb) entries obj)
             = addNames (CountLoc.lookupLanguage Language_eqb a obj)
                        (namesFor Language_eqb entries a)).
  { induction entries as [|x entries IH]; intros obj; [reflexivity|].
    cbn [fold_left]. rewrite IH, lookup_pushName, addNames_app.
    unfold namesFor. cbn [flat_map]. now rewrite app_nil_r. }
  rewrite G. simpl CountLoc.lookupLanguage.
  destruct (namesFor Language_eqb table a); reflexivity.
Qed.

Lemma namesFor_In (a : Language) (key : string) :
  In key (namesFor Language_eqb table a) <->
  exists m, In (key, m) table /\ CountLoc.name m = a.
Proof.
  unfold namesFor. rewrite in_flat_map. split.
  - intros ([k m] & I & H). cbn [fst snd] in H.
    destruct (Language_eqb (CountLoc.name m) a) eqn:E; [|destruct H].
    destruct H as [<-|[]]. apply Language_eqb_eq in E. eauto.
  - intros (m & I & <-). exists (key, m). split; [exact I|].
    cbn [fst snd]. rewrite Language_eqb_refl. now left.
Qed.

(** X22: the linguist names that [countLoc] hands to the line counter
    as analysis languages are exactly the names that the table maps to
    one of the requested languages; a requested language that the
    table does not have contributes an undefined entry. *)
Theorem countLoc_analysis_languages :
  forall (dbLanguages : list Language),
    (forall key,
        In (Some key)
           (CountLoc.analysisLanguages Language_eqb
              cpp csharp go java javascript python dbLanguages) <->
        exists m, In (key, m) table /\ In (CountLoc.name m) dbLanguages) /\
    (In None
        (CountLoc.analysisLanguages Language_eqb
           cpp csharp go java javascript python dbLanguages) <->
     exists lang, In lang dbLanguages /\
                  forall key m, In (key, m) table -> CountLoc.name m <> lang).
Proof.
  intros db. unfold CountLoc.analysisLanguages. split.
  - intros key. rewrite in_flat_map. split.
    + intros (lang & I & H). rewrite lookup_nameToLinguist in H.
      destruct (namesFor Language_eqb table lang) as [|k ks] eqn:E.
      * destruct H as [H|[]]. discriminate.
      * apply in_map_iff in H. destruct H as (k' & K & H). injection K as ->.
        rewrite <- E in H. apply namesFor_In in H. destruct H as (m & Im & <-).
        eauto.
    + intros (m & Im & I). exists (CountLoc.name m). split; [exact I|].
      rewrite lookup_nameToLinguist.
      assert (K : In key (namesFor Language_eqb table (CountLoc.name m))).
      { apply namesFor_In. eauto. }
      destruct (namesFor Language_eqb table (CountLoc.name m)) as [|k ks];
        [destruct K|]. now apply in_map.
  - rewrite in_flat_map. split.
    + intros (lang & I & H). exists lang. split; [exact I|].
      rewrite lookup_nameToLinguist in H.
      destruct (namesFor Language_eqb table lang) as [|k ks] eqn:E.
      * intros key m Im Em.
        assert (K : In key (namesFor Language_eqb table lang)).
        { apply namesFor_In. eauto. }
        rewrite E in K. destruct K.
      * apply in_map_iff in H. destruct H as (k' & K & _). discriminate.
    + intros (lang & I & H). exists lang. split; [exact I|].
      rewrite lookup_nameToLinguist.
      destruct (namesFor Language_eqb table lang) as [|k ks] eqn:E; [now left|].
      assert (K : In k (namesFor Language_eqb table lang)) by (rewrite E; now left).
      apply namesFor_In in K. destruct K as (m & Im & Em).
      now destruct (H k m Im).
Qed.

End CountLocFacts.

Lemma countLoc_sums_witness :
  exists log lineCounts,
    SampleLoc.countLoc "/work/repo" None [] ["javascript"; "cpp"]
    = Ok (log, lineCounts) /\
    lookup "js" lineCounts = Some 150 /\
    lookup "cpp" lineCounts = Some 5 /\
    lookup "py" lineCounts = None.
Proof.
  destruct (SampleLoc.countLoc "/work/repo" None [] ["javascript"; "cpp"])
    as [[log lineCounts]|e] eqn:E; [|vm_compute in E; discriminate].
  exists log, lineCounts. split; [reflexivity|].
  destruct (countLoc_sums string String.eqb "cpp" "csharp" "go" "java" "javascript"
              "python" SampleLoc.loadInfo "/work/repo" None []
              ["javascript"; "cpp"] log lineCounts E) as (languages & L & H).
  vm_compute in L. injection L as <-.
  rewrite !H. repeat split.
Defined.

Lemma countLoc_analysis_languages_witness :
  In (Some "typescript") (SampleLoc.analysisLanguages ["javascript"]) /\
  ~ In (Some "python") (SampleLoc.analysisLanguages ["javascript"]) /\
  In None (SampleLoc.analysisLanguages ["ruby"]).
Proof.
  pose proof (countLoc_analysis_languages string String.eqb
                "cpp" "csharp" "go" "java" "javascript" "python" String.eqb_eq)
    as H.
  split; [|split].
  - apply (H ["javascript"]).
    exists {| CountLoc.name := "javascript"; CountLoc.prefix := "js" |}.
    split; simpl; auto 10.
  - intros X. apply (H ["javascript"]) in X. destruct X as (m & I & J).
    simpl in I, J.
    destruct I as [I|[I|[I|[I|[I|[I|[I|[I|[]]]]]]]]]; try discriminate.
    injection I as <-. simpl in J. destruct J as [J|[]]. discriminate.
  - apply (H ["ruby"]). exists "ruby". split; [now left|].
    intros key m I.
    simpl in I.
    destruct I as [I|[I|[I|[I|[I|[I|[I|[I|[]]]]]]]]];
      injection I as _ <-; discriminate.
Defined.
